(** * Copilot coding-agent orchestrator: classifier, workflow engine, daemon

    A shallow embedding of the control logic of the orchestrator
    ([src/github_client.py], [src/automation_engine.py], [src/daemon.py])
    and the properties its design document states about it.

    Conventions of the embedding.
    - A Python call that can raise is a [result]; a [try] block whose
      assignments survive an exception is a [Block] over the record of
      the local variables it assigns.
    - Instants are integers counting microseconds.  A [datetime] keeps the
      wall-clock reading and the optional UTC offset apart, as Python does,
      because mixing naive and aware values raises [TypeError].
    - Answers of the external services (issue tracker, agent control) are
      inputs of the functions that consume them; every theorem quantifies
      over them.
    - Logging ([print], [logger], [slog]) has no influence on control flow
      and is left out, except where evaluating the logged expression can
      raise. *)

From Stdlib Require Import ZArith List String Ascii Bool Lia DecimalString Sorted.
From Stdlib Require DecimalZ DecimalPos.
From stdpp Require Import gmap strings sorting.
Import ListNotations.

Open Scope string_scope.
Open Scope Z_scope.

(* ===================================================================== *)
(** * Python runtime fragments                                            *)
(* ===================================================================== *)

Module Py.

(** Exceptions that the modelled code can meet. [ServiceError] stands for
    whatever a failing network or API call raises. *)
Inductive exn : Type :=
| TypeError
| KeyError
| ValueError
| OverflowError
| ServiceError.

Inductive result (A : Type) : Type :=
| Ok (a : A)
| Raise (e : exn).
Arguments Ok {A} a.
Arguments Raise {A} e.

Definition is_ok {A} (r : result A) : bool :=
  match r with Ok _ => true | Raise _ => false end.

Definition rbind {A B} (r : result A) (k : A -> result B) : result B :=
  match r with
  | Ok a => k a
  | Raise e => Raise e
  end.

(** ** Statement blocks

    [Block S A] is a run of statements over local variables [S]: it ends
    with a value or an exception, and in both cases hands back the
    variables as the statements left them. *)
Definition Block (S A : Type) : Type := S -> S * result A.

Definition ret {S A} (a : A) : Block S A := fun s => (s, Ok a).

Definition bind {S A B} (m : Block S A) (k : A -> Block S B) : Block S B :=
  fun s =>
    match m s with
    | (s', Ok a) => k a s'
    | (s', Raise e) => (s', Raise e)
    end.

Definition lift {S A} (r : result A) : Block S A := fun s => (s, r).

Definition assign {S} (f : S -> S) : Block S unit := fun s => (f s, Ok tt).

Definition get {S} : Block S S := fun s => (s, Ok s).

Definition pass {S} : Block S unit := ret tt.

(** [try: body / except Exception: (log only)] *)
Definition try_except {S} (body : Block S unit) (s : S) : S := fst (body s).

(** ** Strings

    A [string] holds the UTF-8 bytes of a Python [str] (a lone surrogate,
    which a [str] can hold, as the three bytes that the same scheme gives
    it).  A character outside ASCII is a run of two to four bytes, each of
    them 128 or more, so that [needle in hay], equality and concatenation
    on the bytes are those on the characters. *)

Definition lower_ascii (c : ascii) : ascii :=
  let n := nat_of_ascii c in
  if ((65 <=? n) && (n <=? 90))%nat then ascii_of_nat (n + 32) else c.

(** [str.lower], exact in the ASCII characters of its result.  Three kinds
    of character have a lower case with an ASCII character in it: the
    ASCII capital letters; U+212A KELVIN SIGN (the bytes 226 132 170),
    which becomes [k]; and U+0130 LATIN CAPITAL LETTER I WITH DOT ABOVE
    (196 176), which becomes [i] followed by U+0307 (204 135).  The lower
    case of any other character is a character outside ASCII again, and
    the character is kept as it is here: the program only looks for ASCII
    phrases in the result, and finds the same ones either way. *)
Fixpoint lower (s : string) : string :=
  match s with
  | EmptyString => EmptyString
  | String c0 s0 =>
      let plain := String (lower_ascii c0) (lower s0) in
      match s0 with
      | String c1 s1 =>
          if Ascii.eqb c0 "196" && Ascii.eqb c1 "176" then
            String "i" (String "204" (String "135" (lower s1)))
          else
            match s1 with
            | String c2 s2 =>
                if Ascii.eqb c0 "226" && Ascii.eqb c1 "132" && Ascii.eqb c2 "170"
                then String "k" (lower s2)
                else plain
            | EmptyString => plain
            end
      | EmptyString => plain
      end
  end.

(** The value of a byte. *)
Definition byte (c : ascii) : N := N_of_ascii c.

(** A byte that continues a character. *)
Definition continuation (c : ascii) : bool :=
  ((128 <=? byte c) && (byte c <? 192))%N.

(** The code point that the bytes of one character stand for. *)
Definition code_point (c : string) : N :=
  match c with
  | String b0 EmptyString => byte b0
  | String b0 (String b1 EmptyString) =>
      (byte b0 - 192) * 64 + (byte b1 - 128)
  | String b0 (String b1 (String b2 EmptyString)) =>
      (byte b0 - 224) * 4096 + (byte b1 - 128) * 64 + (byte b2 - 128)
  | String b0 (String b1 (String b2 (String b3 EmptyString))) =>
      (byte b0 - 240) * 262144 + (byte b1 - 128) * 4096 + (byte b2 - 128) * 64 +
      (byte b3 - 128)
  | _ => 0
  end%N.

(** The bytes of the character that [s] begins with, by the first byte. *)
Definition leading_bytes (s : string) : option (string * string) :=
  match s with
  | EmptyString => None
  | String b0 s0 =>
      if (byte b0 <? 128)%N then Some (String b0 EmptyString, s0)
      else if (byte b0 <? 224)%N then
        match s0 with
        | String b1 s1 =>
            if continuation b1 then Some (String b0 (String b1 EmptyString), s1)
            else None
        | _ => None
        end
      else if (byte b0 <? 240)%N then
        match s0 with
        | String b1 (String b2 s2) =>
            if continuation b1 && continuation b2
            then Some (String b0 (String b1 (String b2 EmptyString)), s2)
            else None
        | _ => None
        end
      else
        match s0 with
        | String b1 (String b2 (String b3 s3)) =>
            if continuation b1 && continuation b2 && continuation b3
            then Some (String b0 (String b1 (String b2 (String b3 EmptyString))), s3)
            else None
        | _ => None
        end
  end.

(** The shortest encoding of a code point, surrogates excluded. *)
Definition well_encoded (c : string) : bool :=
  let cp := code_point c in
  match String.length c with
  | 1 => (cp <? 128)%N
  | 2 => ((128 <=? cp) && (cp <? 2048))%N
  | 3 => ((2048 <=? cp) && (cp <? 65536) && negb ((55296 <=? cp) && (cp <? 57344)))%N
  | 4 => ((65536 <=? cp) && (cp <? 1114112))%N
  | _ => false
  end%nat.

(** The character that the text [s] begins with, and what follows it. *)
Definition take_char (s : string) : option (string * string) :=
  match leading_bytes s with
  | Some (c, rest) => if well_encoded c then Some (c, rest) else None
  | None => None
  end.

(** The code points of the decimal digits, in ranges: the characters of
    the category Nd of Unicode 14.0, which are the ones that [str.isdecimal]
    and, in a [str] pattern, the class of digits of [re] accept. *)
Definition decimal_digits : list (N * N) :=
  [(48, 57); (1632, 1641); (1776, 1785); (1984, 1993); (2406, 2415);
   (2534, 2543); (2662, 2671); (2790, 2799); (2918, 2927); (3046, 3055);
   (3174, 3183); (3302, 3311); (3430, 3439); (3558, 3567); (3664, 3673);
   (3792, 3801); (3872, 3881); (4160, 4169); (4240, 4249); (6112, 6121);
   (6160, 6169); (6470, 6479); (6608, 6617); (6784, 6793); (6800, 6809);
   (6992, 7001); (7088, 7097); (7232, 7241); (7248, 7257); (42528, 42537);
   (43216, 43225); (43264, 43273); (43472, 43481); (43504, 43513);
   (43600, 43609); (44016, 44025); (65296, 65305); (66720, 66729);
   (68912, 68921); (69734, 69743); (69872, 69881); (69942, 69951);
   (70096, 70105); (70384, 70393); (70736, 70745); (70864, 70873);
   (71248, 71257); (71360, 71369); (71472, 71481); (71904, 71913);
   (72016, 72025); (72784, 72793); (73040, 73049); (73120, 73129);
   (92768, 92777); (92864, 92873); (93008, 93017); (120782, 120831);
   (123200, 123209); (123632, 123641); (125264, 125273); (130032, 130041)]%N.

Definition is_decimal (cp : N) : bool :=
  existsb (fun r => (fst r <=? cp) && (cp <=? snd r))%N decimal_digits.

(** [needle in hay] *)
Fixpoint contains (needle hay : string) : bool :=
  String.prefix needle hay ||
  match hay with
  | EmptyString => false
  | String _ hay' => contains needle hay'
  end.

(** [str(n)] for an [int] *)
Definition str (n : Z) : string := NilZero.string_of_int (Z.to_int n).

(** Truth value of [Optional[str]], [Optional[int]] and [list]. *)
Definition truthy_str (o : option string) : bool :=
  match o with
  | Some s => negb (s =? "")%string
  | None => false
  end.

Definition truthy_int (o : option Z) : bool :=
  match o with
  | Some n => negb (n =? 0)
  | None => false
  end.

Definition truthy_list {A} (l : list A) : bool :=
  match l with [] => false | _ :: _ => true end.

(** [o or ""] *)
Definition or_empty (o : option string) : string :=
  match o with
  | Some s => s
  | None => ""
  end.

(** ** datetime and timedelta *)

Definition MICRO : Z := 1000000.
Definition US_PER_MINUTE : Z := 60 * MICRO.
Definition US_PER_DAY : Z := 86400 * MICRO.

(** [wall] counts the microseconds from 0001-01-01T00:00:00 to the
    wall-clock fields; [tzinfo] is the UTC offset in microseconds, or
    [None] for a naive value. *)
Record datetime : Type := mk_datetime {
  wall : Z;
  tzinfo : option Z
}.

Definition naive (t : Z) : datetime := {| wall := t; tzinfo := None |}.
Definition utc (t : Z) : datetime := {| wall := t; tzinfo := Some 0 |}.

(** [d.replace(tzinfo=timezone.utc)] *)
Definition replace_tzinfo_utc (d : datetime) : datetime :=
  {| wall := wall d; tzinfo := Some 0 |}.

(** The UTC instant of an aware value (of the fields of a naive one). *)
Definition instant (d : datetime) : Z :=
  match tzinfo d with
  | Some off => wall d - off
  | None => wall d
  end.

(** [date.max.toordinal() = 3652059]: the last representable microsecond
    is 9999-12-31T23:59:59.999999. *)
Definition MAX_ORDINAL : Z := 3652059.
Definition DATETIME_END : Z := MAX_ORDINAL * US_PER_DAY.
Definition MAX_DELTA_DAYS : Z := 999999999.

(** [timedelta(minutes=m)], in microseconds; [OverflowError] beyond
    999999999 days. *)
Definition timedelta_minutes (m : Z) : result Z :=
  let us := m * US_PER_MINUTE in
  let days := us / US_PER_DAY in
  if (- MAX_DELTA_DAYS <=? days) && (days <=? MAX_DELTA_DAYS)
  then Ok us else Raise OverflowError.

(** [d + delta]; [OverflowError] when the sum leaves years 1..9999. *)
Definition datetime_add (d : datetime) (delta : Z) : result datetime :=
  let w := wall d + delta in
  if (0 <=? w) && (w <? DATETIME_END)
  then Ok {| wall := w; tzinfo := tzinfo d |}
  else Raise OverflowError.

(** [a >= b] and [a - b] on datetimes: naive with naive compares the
    fields, aware with aware the instants, a mix is a [TypeError]. *)
Definition datetime_ge (a b : datetime) : result bool :=
  match tzinfo a, tzinfo b with
  | None, None => Ok (wall b <=? wall a)
  | Some _, Some _ => Ok (instant b <=? instant a)
  | _, _ => Raise TypeError
  end.

Definition datetime_sub (a b : datetime) : result Z :=
  match tzinfo a, tzinfo b with
  | None, None => Ok (wall a - wall b)
  | Some _, Some _ => Ok (instant a - instant b)
  | _, _ => Raise TypeError
  end.

(** ** Dynamically typed operands

    The timeline markers reach the classifier as decoded JSON, so the
    operators applied to them dispatch on the run-time type. *)
Inductive pyval : Type :=
| VNone
| VStr (s : string)
| VDatetime (d : datetime)
| VTimedelta (us : Z).

Definition of_json_str (o : option string) : pyval :=
  match o with
  | Some s => VStr s
  | None => VNone
  end.

Definition py_truthy (v : pyval) : bool :=
  match v with
  | VNone => false
  | VStr s => negb (s =? "")%string
  | VDatetime _ => true
  | VTimedelta us => negb (us =? 0)
  end.

(** [a > b] *)
Definition py_gt (a b : pyval) : result bool :=
  match a, b with
  | VStr x, VStr y => Ok (String.ltb y x)
  | VTimedelta x, VTimedelta y => Ok (y <? x)
  | VDatetime x, VDatetime y =>
      rbind (datetime_ge y x) (fun ge => Ok (negb ge))
  | _, _ => Raise TypeError
  end.

(** [a - b] *)
Definition py_sub (a b : pyval) : result pyval :=
  match a, b with
  | VDatetime x, VDatetime y =>
      rbind (datetime_sub x y) (fun us => Ok (VTimedelta us))
  | VDatetime x, VTimedelta d =>
      rbind (datetime_add x (- d)) (fun r => Ok (VDatetime r))
  | VTimedelta x, VTimedelta y => Ok (VTimedelta (x - y))
  | _, _ => Raise TypeError
  end.

(** [v.total_seconds()], kept in microseconds. *)
Definition total_seconds_us (v : pyval) : result Z :=
  match v with
  | VTimedelta us => Ok us
  | _ => Raise TypeError
  end.

End Py.

Import Py.

Declare Scope block_scope.
Delimit Scope block_scope with block.
Notation "x <- m ;; k" := (Py.bind m (fun x => k))
  (at level 100, m at next level, right associativity) : block_scope.
Notation "m ;;; k" := (Py.bind m (fun _ => k))
  (at level 100, right associativity) : block_scope.

Declare Scope result_scope.
Delimit Scope result_scope with result.
Notation "x <- m ;; k" := (Py.rbind m (fun x => k))
  (at level 100, m at next level, right associativity) : result_scope.

(* ===================================================================== *)
(** * github_client.py: the signal classifier                             *)
(* ===================================================================== *)

Module IssueState.
Inductive t : Type := OPEN | CLOSED | IN_PROGRESS.
Definition eqb (a b : t) : bool :=
  match a, b with
  | OPEN, OPEN | CLOSED, CLOSED | IN_PROGRESS, IN_PROGRESS => true
  | _, _ => false
  end.
End IssueState.

Module PRState.
Inductive t : Type :=
| OPEN | CLOSED | MERGED | DRAFT
| REVIEW_REQUESTED | CHANGES_REQUESTED | APPROVED.
Definition eqb (a b : t) : bool :=
  match a, b with
  | OPEN, OPEN | CLOSED, CLOSED | MERGED, MERGED | DRAFT, DRAFT
  | REVIEW_REQUESTED, REVIEW_REQUESTED
  | CHANGES_REQUESTED, CHANGES_REQUESTED | APPROVED, APPROVED => true
  | _, _ => false
  end.
End PRState.

(** [github.Issue]: the attributes read by [_to_issue_info]. *)
Module Issue.
Record t : Type := {
  number : Z;
  title : string;
  state : string;
  assignee : option string
}.
End Issue.

Module IssueInfo.
Record t : Type := {
  number : Z;
  title : string;
  state : IssueState.t;
  assignee : option string
}.
End IssueInfo.

(** One entry of the issue timeline, a decoded JSON object: [event] is the
    string under ['event'] ([None] when the key is absent or holds no
    string), [created_at] the one under ['created_at']. *)
Module TimelineEvent.
Record t : Type := {
  event : option string;
  created_at : option string
}.
End TimelineEvent.

(** The answer of [requests.get(timeline_url)]; decoding its body with
    [response.json()] can raise. *)
Module TimelineResponse.
Record t : Type := {
  status_code : Z;
  json : result (list TimelineEvent.t)
}.
End TimelineResponse.

Module Review.
Record t : Type := {
  state : string;
  body : option string
}.
End Review.

Module IssueComment.
Record t : Type := {
  body : option string;
  created_at : datetime
}.
End IssueComment.

Module ReviewComment.
Record t : Type := {
  body : option string;
  commit_id : option string
}.
End ReviewComment.

(** A commit, seen through [get_check_runs()]: the conclusions of its check
    runs. *)
Module Commit.
Record t : Type := {
  get_check_runs : result (list (option string))
}.
End Commit.

(** [github.PullRequest]: its attributes, and the listing calls with the
    outcome each of them has when it is made. *)
Module PullRequest.
Record t : Type := {
  number : Z;
  title : string;
  body : option string;
  user_login : string;
  html_url : string;
  mergeable : option bool;
  merged : bool;
  state : string;
  draft : bool;
  head_sha : string;
  get_reviews : result (list Review.t);
  get_issue_comments : result (list IssueComment.t);
  get_review_comments : result (list ReviewComment.t);
  get_review_requests : result (list string);
  get_commits : result (list Commit.t)
}.

Definition with_issue_comments (r : result (list IssueComment.t)) (pr : t) : t :=
  {| number := number pr; title := title pr; body := body pr;
     user_login := user_login pr; html_url := html_url pr;
     mergeable := mergeable pr; merged := merged pr; state := state pr;
     draft := draft pr; head_sha := head_sha pr;
     get_reviews := get_reviews pr;
     get_issue_comments := r;
     get_review_comments := get_review_comments pr;
     get_review_requests := get_review_requests pr;
     get_commits := get_commits pr |}.

Definition with_review_comments (r : result (list ReviewComment.t)) (pr : t) : t :=
  {| number := number pr; title := title pr; body := body pr;
     user_login := user_login pr; html_url := html_url pr;
     mergeable := mergeable pr; merged := merged pr; state := state pr;
     draft := draft pr; head_sha := head_sha pr;
     get_reviews := get_reviews pr;
     get_issue_comments := get_issue_comments pr;
     get_review_comments := r;
     get_review_requests := get_review_requests pr;
     get_commits := get_commits pr |}.

Definition with_commits (r : result (list Commit.t)) (pr : t) : t :=
  {| number := number pr; title := title pr; body := body pr;
     user_login := user_login pr; html_url := html_url pr;
     mergeable := mergeable pr; merged := merged pr; state := state pr;
     draft := draft pr; head_sha := head_sha pr;
     get_reviews := get_reviews pr;
     get_issue_comments := get_issue_comments pr;
     get_review_comments := get_review_comments pr;
     get_review_requests := get_review_requests pr;
     get_commits := r |}.
End PullRequest.

Module PRInfo.
Record t : Type := {
  number : Z;
  title : string;
  state : PRState.t;
  author : string;
  reviewers : list string;
  review_state : option string;
  url : string;
  linked_issue : option string;
  mergeable : bool;
  checks_passed : bool;
  is_draft : bool;
  copilot_has_reviewed : bool;
  copilot_is_working : bool
}.
End PRInfo.

Module GithubClient.

(** ** _to_issue_info *)

Definition _to_issue_info (issue : Issue.t) : IssueInfo.t :=
  let state :=
    if (Issue.state issue =? "closed")%string then IssueState.CLOSED
    else if truthy_str (Issue.assignee issue) then IssueState.IN_PROGRESS
    else IssueState.OPEN in
  {| IssueInfo.number := Issue.number issue;
     IssueInfo.title := Issue.title issue;
     IssueInfo.state := state;
     IssueInfo.assignee := Issue.assignee issue |}.

(** ** _to_pr_info: the local variables shared by its guarded blocks *)

Record Locals : Type := {
  has_pending_suggestions : bool;
  copilot_has_reviewed : bool;
  copilot_is_working : bool;
  copilot_work_just_finished : bool
}.

Definition initial_locals : Locals :=
  {| has_pending_suggestions := false;
     copilot_has_reviewed := false;
     copilot_is_working := false;
     copilot_work_just_finished := false |}.

Definition set_has_pending_suggestions (b : bool) (l : Locals) : Locals :=
  {| has_pending_suggestions := b;
     copilot_has_reviewed := copilot_has_reviewed l;
     copilot_is_working := copilot_is_working l;
     copilot_work_just_finished := copilot_work_just_finished l |}.

Definition set_copilot_has_reviewed (b : bool) (l : Locals) : Locals :=
  {| has_pending_suggestions := has_pending_suggestions l;
     copilot_has_reviewed := b;
     copilot_is_working := copilot_is_working l;
     copilot_work_just_finished := copilot_work_just_finished l |}.

Definition set_copilot_is_working (b : bool) (l : Locals) : Locals :=
  {| has_pending_suggestions := has_pending_suggestions l;
     copilot_has_reviewed := copilot_has_reviewed l;
     copilot_is_working := b;
     copilot_work_just_finished := copilot_work_just_finished l |}.

Definition set_copilot_work_just_finished (b : bool) (l : Locals) : Locals :=
  {| has_pending_suggestions := has_pending_suggestions l;
     copilot_has_reviewed := copilot_has_reviewed l;
     copilot_is_working := copilot_is_working l;
     copilot_work_just_finished := b |}.

(** ** DETECTION 1: timeline markers *)

Record Markers : Type := {
  latest_work_started : pyval;
  latest_work_finished : pyval;
  latest_review_requested : pyval
}.

Definition no_markers : Markers :=
  {| latest_work_started := VNone;
     latest_work_finished := VNone;
     latest_review_requested := VNone |}.

(** Body of [for event in events]. [event.get('event', '')] yields [''] or
    [None] where [event] holds no string; neither equals a marker name. *)
Definition scan_event (m : Markers) (event : TimelineEvent.t) : Markers :=
  let event_type := or_empty (TimelineEvent.event event) in
  let event_time := of_json_str (TimelineEvent.created_at event) in
  if (event_type =? "copilot_work_started")%string && py_truthy event_time then
    {| latest_work_started := event_time;
       latest_work_finished := latest_work_finished m;
       latest_review_requested := latest_review_requested m |}
  else if (event_type =? "copilot_work_finished")%string && py_truthy event_time then
    {| latest_work_started := latest_work_started m;
       latest_work_finished := event_time;
       latest_review_requested := latest_review_requested m |}
  else if (event_type =? "review_requested")%string && py_truthy event_time then
    {| latest_work_started := latest_work_started m;
       latest_work_finished := latest_work_finished m;
       latest_review_requested := event_time |}
  else m.

(** The [try] block of lines 376-428.  [now] is the reading of
    [datetime.now(timezone.utc)]; the markers are the strings of the
    decoded timeline. *)
Definition detection1 (timeline : result TimelineResponse.t) (now : datetime)
  : Block Locals unit :=
  (response <- lift timeline ;;
   if TimelineResponse.status_code response =? 200 then
     events <- lift (TimelineResponse.json response) ;;
     let m := fold_left scan_event events no_markers in
     if py_truthy (latest_work_started m) then
       still_working <-
         (if negb (py_truthy (latest_work_finished m)) then ret true
          else lift (py_gt (latest_work_started m) (latest_work_finished m))) ;;
       if (still_working : bool) then assign (set_copilot_is_working true)
       else
         assign (set_copilot_is_working false) ;;;
         finished_after_request <-
           (if py_truthy (latest_review_requested m)
            then lift (py_gt (latest_work_finished m) (latest_review_requested m))
            else ret false) ;;
         if (finished_after_request : bool) then
           assign (set_copilot_has_reviewed true) ;;;
           let copilot_review_finished_at := latest_work_finished m in
           delta <- lift (py_sub (VDatetime now) copilot_review_finished_at) ;;
           seconds_since_finish <- lift (total_seconds_us delta) ;;
           if seconds_since_finish <? 120 * MICRO
           then assign (set_copilot_work_just_finished true)
           else pass
         else pass
     else pass
   else pass)%block.

(** ** DETECTION 2: "@copilot apply" comments *)

Record ApplyScan : Type := {
  has_apply_changes_request : bool;
  apply_changes_request_time : option Z;
  copilot_finished_work_time : option Z
}.

Definition no_apply : ApplyScan :=
  {| has_apply_changes_request := false;
     apply_changes_request_time := None;
     copilot_finished_work_time := None |}.

(** [comment.created_at], made aware when naive; aware values are
    compared through their UTC instant. *)
Definition comment_time (comment : IssueComment.t) : Z :=
  let t := IssueComment.created_at comment in
  instant (match tzinfo t with
           | None => replace_tzinfo_utc t
           | Some _ => t
           end).

Definition body_lower (comment : IssueComment.t) : string :=
  lower (or_empty (IssueComment.body comment)).

(** ["@copilot" in body_lower and "apply" in body_lower] *)
Definition is_apply_request (comment : IssueComment.t) : bool :=
  contains "@copilot" (body_lower comment) && contains "apply" (body_lower comment).

(** ["copilot finished work on behalf of" in body_lower] *)
Definition is_finished_signal (comment : IssueComment.t) : bool :=
  contains "copilot finished work on behalf of" (body_lower comment).

(** Body of [for comment in comments]. *)
Definition scan_comment (a : ApplyScan) (comment : IssueComment.t) : ApplyScan :=
  let a1 :=
    if is_apply_request comment then
      {| has_apply_changes_request := true;
         apply_changes_request_time := Some (comment_time comment);
         copilot_finished_work_time := copilot_finished_work_time a |}
    else a in
  if is_finished_signal comment then
    {| has_apply_changes_request := has_apply_changes_request a1;
       apply_changes_request_time := apply_changes_request_time a1;
       copilot_finished_work_time := Some (comment_time comment) |}
  else a1.

(** [finished and finished > requested], on instants of aware values. *)
Definition finished_after (finished : option Z) (requested : Z) : bool :=
  match finished with
  | Some f => requested <? f
  | None => false
  end.

(** The [try] block of lines 451-486. *)
Definition detection2 (pr : PullRequest.t) : Block Locals unit :=
  (comments <- lift (PullRequest.get_issue_comments pr) ;;
   let a := fold_left scan_comment comments no_apply in
   match has_apply_changes_request a, apply_changes_request_time a with
   | true, Some requested =>
       if finished_after (copilot_finished_work_time a) requested
       then assign (set_copilot_is_working false)
       else assign (set_copilot_is_working true)
   | _, _ => pass
   end)%block.

(** ** Formal reviews and pending suggestions *)

(** [review.body and ("Copilot finished reviewing" in review.body or
    "Copilot reviewed" in review.body)] *)
Definition has_review_signature (review : Review.t) : bool :=
  match Review.body review with
  | Some body =>
      negb (body =? "")%string &&
      (contains "Copilot finished reviewing" body || contains "Copilot reviewed" body)
  | None => false
  end.

(** [for comment in review_comments], with its [continue] and [break].
    The logged slice [comment.body[:50]] is evaluated after the flag is
    set, and raises when the body is [None]. *)
Fixpoint scan_review_comments (latest_commit_sha : string)
    (review_comments : list ReviewComment.t) : Block Locals unit :=
  match review_comments with
  | [] => pass
  | comment :: rest =>
      let comment_commit := ReviewComment.commit_id comment in
      if truthy_str comment_commit &&
         negb (or_empty comment_commit =? latest_commit_sha)%string
      then scan_review_comments latest_commit_sha rest
      else
        (assign (set_has_pending_suggestions true) ;;;
         lift (match ReviewComment.body comment with
               | Some _ => Ok tt
               | None => Raise TypeError
               end))%block
  end.

(** The [try] block of lines 510-523. *)
Definition pending_check (pr : PullRequest.t) (latest_commit_sha : string)
  : Block Locals unit :=
  (review_comments <- lift (PullRequest.get_review_comments pr) ;;
   scan_review_comments latest_commit_sha review_comments)%block.

(** ** Final priority resolution (lines 530-560) *)

Definition is_verdict (review_state : option string) (s : string) : bool :=
  match review_state with
  | Some r => (r =? s)%string
  | None => false
  end.

Definition resolve_state (pr : PullRequest.t) (review_state : option string)
    (l : Locals) (requested_reviewers : list string) : PRState.t :=
  if PullRequest.merged pr then PRState.MERGED
  else if (PullRequest.state pr =? "closed")%string then PRState.CLOSED
  else if is_verdict review_state "APPROVED" then PRState.APPROVED
  else if is_verdict review_state "CHANGES_REQUESTED" then PRState.CHANGES_REQUESTED
  else if copilot_has_reviewed l && has_pending_suggestions l
    then PRState.CHANGES_REQUESTED
  else if copilot_has_reviewed l && negb (has_pending_suggestions l) then
    if copilot_work_just_finished l
    then PRState.REVIEW_REQUESTED
    else PRState.APPROVED
  else if truthy_list requested_reviewers && negb (copilot_has_reviewed l)
    then PRState.REVIEW_REQUESTED
  else if PullRequest.draft pr then PRState.DRAFT
  else PRState.OPEN.

(** ** Linked issue and CI status *)

Definition is_upper (c : ascii) : bool :=
  let n := nat_of_ascii c in ((65 <=? n) && (n <=? 90))%nat.

(** The class of digits of the pattern, at the head of [s]: one decimal
    digit of any script, and what follows it. *)
Definition take_digit (s : string) : option (string * string) :=
  match take_char s with
  | Some (d, rest) => if is_decimal (code_point d) then Some (d, rest) else None
  | None => None
  end.

(** [TC-[A-Z]-\d{2}] anchored at the head of [s]. *)
Definition match_tc (s : string) : option string :=
  match s with
  | String t (String c (String h1 (String u (String h2 rest)))) =>
      if Ascii.eqb t "T" && Ascii.eqb c "C" && Ascii.eqb h1 "-" && is_upper u &&
         Ascii.eqb h2 "-"
      then
        match take_digit rest with
        | Some (d1, rest1) =>
            match take_digit rest1 with
            | Some (d2, _) =>
                Some (String t (String c (String h1 (String u (String h2 (d1 +:+ d2))))))
            | None => None
            end
        | None => None
        end
      else None
  | _ => None
  end.

(** [re.search(r'TC-[A-Z]-\d{2}', s)]: the leftmost match. *)
Fixpoint re_search_tc (s : string) : option string :=
  match match_tc s with
  | Some m => Some m
  | None =>
      match s with
      | EmptyString => None
      | String _ s' => re_search_tc s'
      end
  end.

(** [conclusion not in ["success", "skipped", None]] *)
Definition failed_conclusion (conclusion : option string) : bool :=
  match conclusion with
  | None => false
  | Some c => negb ((c =? "success")%string || (c =? "skipped")%string)
  end.

(** The [try] block of lines 572-582, over [checks_passed]. *)
Definition ci_checks (pr : PullRequest.t) : Block bool unit :=
  (commits <- lift (PullRequest.get_commits pr) ;;
   match last commits with
   | Some last_commit =>
       check_runs <- lift (Commit.get_check_runs last_commit) ;;
       if existsb failed_conclusion check_runs
       then assign (fun _ => false)
       else pass
   | None => pass
   end)%block.

(** ** _to_pr_info

    [timeline] is the outcome of the timeline request, [now] the reading
    of [datetime.now(timezone.utc)].  The review listing (line 367) and
    the review-request listing (line 526) are made outside every [try]. *)
Definition _to_pr_info (timeline : result TimelineResponse.t) (now : datetime)
    (pr : PullRequest.t) : result PRInfo.t :=
  rbind (PullRequest.get_reviews pr) (fun reviews =>
  let l := initial_locals in
  let l := try_except (detection1 timeline now) l in
  let l := try_except (detection2 pr) l in
  let latest_commit_sha := PullRequest.head_sha pr in
  let review_state := option_map Review.state (last reviews) in
  let l :=
    if existsb has_review_signature reviews
    then set_copilot_has_reviewed true l else l in
  let l :=
    if copilot_has_reviewed l
    then try_except (pending_check pr latest_commit_sha) l else l in
  rbind (PullRequest.get_review_requests pr) (fun requested_reviewers =>
  let state := resolve_state pr review_state l requested_reviewers in
  let linked_issue :=
    if truthy_str (PullRequest.body pr)
    then re_search_tc (or_empty (PullRequest.body pr)) else None in
  let checks_passed := try_except (ci_checks pr) true in
  Ok {| PRInfo.number := PullRequest.number pr;
        PRInfo.title := PullRequest.title pr;
        PRInfo.state := state;
        PRInfo.author := PullRequest.user_login pr;
        PRInfo.reviewers := requested_reviewers;
        PRInfo.review_state := review_state;
        PRInfo.url := PullRequest.html_url pr;
        PRInfo.linked_issue := linked_issue;
        PRInfo.mergeable :=
          match PullRequest.mergeable pr with Some b => b | None => false end;
        PRInfo.checks_passed := checks_passed;
        PRInfo.is_draft := PullRequest.draft pr;
        PRInfo.copilot_has_reviewed := copilot_has_reviewed l;
        PRInfo.copilot_is_working := copilot_is_working l |})).

(** [get_pr_by_number]: the whole lookup sits in [try ... except
    Exception: return None]; [fetched] is the outcome of
    [self.repo.get_pull(pr_number)]. *)
Definition get_pr_by_number (timeline : result TimelineResponse.t) (now : datetime)
    (fetched : result PullRequest.t) : option PRInfo.t :=
  match rbind fetched (_to_pr_info timeline now) with
  | Ok info => Some info
  | Raise _ => None
  end.

(** ** Other lookups *)

(** The property [IssueInfo.issue_id]: the first TC-X-NN of the title. *)
Definition issue_id (info : IssueInfo.t) : option string :=
  re_search_tc (IssueInfo.title info).

(** A listing of PyGithub is fetched page by page while it is iterated:
    it yields the entries got so far and then ends, or raises. *)
Inductive PaginatedList (A : Type) : Type :=
| page_end
| page_item (a : A) (rest : PaginatedList A)
| page_error (e : exn).
Arguments page_end {A}.
Arguments page_item {A} a rest.
Arguments page_error {A} e.

(** [issue_id in pr.title or issue_id in (pr.body or "")] *)
Definition mentions (issue_id : string) (pr : PullRequest.t) : bool :=
  contains issue_id (PullRequest.title pr) ||
  contains issue_id (or_empty (PullRequest.body pr)).

(** [get_pr_by_issue]: [prs] is the listing of the open PRs as the loop
    meets it, [timeline n] the outcome of the timeline request for PR
    [n].  Nothing here is guarded. *)
Fixpoint get_pr_by_issue (timeline : Z -> result TimelineResponse.t) (now : datetime)
    (issue_id : string) (prs : PaginatedList PullRequest.t) : result (option PRInfo.t) :=
  match prs with
  | page_end => Ok None
  | page_error e => Raise e
  | page_item pr rest =>
      if mentions issue_id pr then
        (info <- _to_pr_info (timeline (PullRequest.number pr)) now pr ;;
         Ok (Some info))%result
      else get_pr_by_issue timeline now issue_id rest
  end.

End GithubClient.

(* ===================================================================== *)
(** * automation_engine.py: queue and status refresh                      *)
(* ===================================================================== *)

Module WorkflowState.
Inductive t : Type :=
| QUEUED | ASSIGNED | PR_OPEN | REVIEW_REQUESTED | REVIEWING
| CHANGES_REQUESTED | APPLYING_CHANGES | APPROVED | MERGED | COMPLETED.

Definition value (s : t) : string :=
  match s with
  | QUEUED => "queued"
  | ASSIGNED => "assigned"
  | PR_OPEN => "pr_open"
  | REVIEW_REQUESTED => "review_requested"
  | REVIEWING => "reviewing"
  | CHANGES_REQUESTED => "changes_requested"
  | APPLYING_CHANGES => "applying_changes"
  | APPROVED => "approved"
  | MERGED => "merged"
  | COMPLETED => "completed"
  end.

Definition eqb (a b : t) : bool :=
  match a, b with
  | QUEUED, QUEUED | ASSIGNED, ASSIGNED | PR_OPEN, PR_OPEN
  | REVIEW_REQUESTED, REVIEW_REQUESTED | REVIEWING, REVIEWING
  | CHANGES_REQUESTED, CHANGES_REQUESTED
  | APPLYING_CHANGES, APPLYING_CHANGES | APPROVED, APPROVED
  | MERGED, MERGED | COMPLETED, COMPLETED => true
  | _, _ => false
  end.

(** [s in states] *)
Definition among (s : t) (states : list t) : bool := existsb (eqb s) states.
End WorkflowState.

Module QueueItem.
Record t : Type := {
  issue_id : string;
  state : WorkflowState.t;
  issue_number : option Z;
  issue_title : option string;
  pr_number : option Z;
  last_action : option string;
  last_action_time : option datetime
}.

(** [QueueItem(issue_id=issue_id)] *)
Definition new (issue_id : string) : t :=
  {| issue_id := issue_id; state := WorkflowState.QUEUED;
     issue_number := None; issue_title := None; pr_number := None;
     last_action := None; last_action_time := None |}.

Definition set_state (s : WorkflowState.t) (item : t) : t :=
  {| issue_id := issue_id item; state := s;
     issue_number := issue_number item; issue_title := issue_title item;
     pr_number := pr_number item;
     last_action := last_action item; last_action_time := last_action_time item |}.

Definition set_issue_number (n : option Z) (item : t) : t :=
  {| issue_id := issue_id item; state := state item;
     issue_number := n; issue_title := issue_title item;
     pr_number := pr_number item;
     last_action := last_action item; last_action_time := last_action_time item |}.

Definition set_issue_title (s : option string) (item : t) : t :=
  {| issue_id := issue_id item; state := state item;
     issue_number := issue_number item; issue_title := s;
     pr_number := pr_number item;
     last_action := last_action item; last_action_time := last_action_time item |}.

Definition set_pr_number (n : option Z) (item : t) : t :=
  {| issue_id := issue_id item; state := state item;
     issue_number := issue_number item; issue_title := issue_title item;
     pr_number := n;
     last_action := last_action item; last_action_time := last_action_time item |}.

(** [item.last_action = text; item.last_action_time = datetime.now()] *)
Definition set_last_action (text : string) (now : Z) (item : t) : t :=
  {| issue_id := issue_id item; state := state item;
     issue_number := issue_number item; issue_title := issue_title item;
     pr_number := pr_number item;
     last_action := Some text; last_action_time := Some (naive now) |}.

(** The [__eq__] that [@dataclass] generates: field by field. *)
Definition opt_eqb {A} (eq : A -> A -> bool) (a b : option A) : bool :=
  match a, b with
  | Some x, Some y => eq x y
  | None, None => true
  | _, _ => false
  end.

Definition datetime_eqb (a b : datetime) : bool :=
  match tzinfo a, tzinfo b with
  | None, None => wall a =? wall b
  | Some _, Some _ => instant a =? instant b
  | _, _ => false
  end.

Definition eqb (a b : t) : bool :=
  (issue_id a =? issue_id b)%string &&
  WorkflowState.eqb (state a) (state b) &&
  opt_eqb Z.eqb (issue_number a) (issue_number b) &&
  opt_eqb String.eqb (issue_title a) (issue_title b) &&
  opt_eqb Z.eqb (pr_number a) (pr_number b) &&
  opt_eqb String.eqb (last_action a) (last_action b) &&
  opt_eqb datetime_eqb (last_action_time a) (last_action_time b).
End QueueItem.

(** The keys of [config.yaml] that the engine and the daemon read; [None]
    is an absent key, replaced by the default given at the point of use. *)
Module Config.
Record t : Type := {
  issue_queue : list string;
  auto_merge : option bool;
  skip_final_review : option bool;
  auto_assign_next : option bool;
  agent_instructions : option string;
  target_branch : option string
}.

Definition set_issue_queue (ids : list string) (c : t) : t :=
  {| issue_queue := ids;
     auto_merge := auto_merge c;
     skip_final_review := skip_final_review c;
     auto_assign_next := auto_assign_next c;
     agent_instructions := agent_instructions c;
     target_branch := target_branch c |}.

(** [d.get(key, default)] *)
Definition get {A} (value : option A) (default : A) : A :=
  match value with
  | Some v => v
  | None => default
  end.
End Config.

(** What the GitHub client answers while one queue item is visited.  Each
    method is called at most once per visit.  The answer of a method that
    acts on the service is the value that it returns.
    [comment_apply_changes] and [merge_pr] catch [GithubException] only: a
    call of theirs that raises anything else ends the visit with that
    exception, at the call and before the item is changed; visits that end
    so are not among the ones described here. *)
Module Answers.
Record t : Type := {
  get_issue_by_number : option IssueInfo.t;
  get_issue_by_title_pattern : option IssueInfo.t;
  get_pr_by_number : option PRInfo.t;
  get_pr_by_issue : result (option PRInfo.t);
  assign_issue_to_copilot : bool;
  request_review_from_copilot : bool;
  comment_apply_changes : bool;
  mark_pr_ready_for_review : bool;
  merge_pr : bool
}.
End Answers.

Module AutomationEngine.

(** [client] tells whether [self.client] is set; [queue] is
    [self.state.queue]. *)
Record t : Type := {
  config : Config.t;
  client : bool;
  _issue_numbers : gmap string Z;
  queue : list QueueItem.t
}.

Definition set_queue (q : list QueueItem.t) (self : t) : t :=
  {| config := config self; client := client self;
     _issue_numbers := _issue_numbers self; queue := q |}.

(** [_sync_queue_to_config] *)
Definition _sync_queue_to_config (self : t) : t :=
  {| config := Config.set_issue_queue (QueueItem.issue_id <$> queue self) (config self);
     client := client self;
     _issue_numbers := _issue_numbers self;
     queue := queue self |}.

(** ** Queue management *)

(** Index of the first entry that [p] accepts, as the
    [for i, item in enumerate(...)] loops find it. *)
Fixpoint find_index (p : nat -> QueueItem.t -> bool) (i : nat)
    (items : list QueueItem.t) : option nat :=
  match items with
  | [] => None
  | item :: rest => if p i item then Some i else find_index p (S i) rest
  end.

(** [q[i], q[j] = q[j], q[i]] *)
Definition swap (i j : nat) (q : list QueueItem.t) : list QueueItem.t :=
  match q !! i, q !! j with
  | Some a, Some b => <[i := b]> (<[j := a]> q)
  | _, _ => q
  end.

Definition has_id (issue_id : string) (item : QueueItem.t) : bool :=
  (QueueItem.issue_id item =? issue_id)%string.

Definition move_item_up (issue_id : string) (self : t) : bool * t :=
  match find_index (fun i item => has_id issue_id item && (0 <? i)%nat) 0 (queue self) with
  | Some i => (true, _sync_queue_to_config (set_queue (swap i (i - 1) (queue self)) self))
  | None => (false, self)
  end.

Definition move_item_down (issue_id : string) (self : t) : bool * t :=
  let n := List.length (queue self) in
  match find_index (fun i item => has_id issue_id item && (i + 1 <? n)%nat) 0 (queue self) with
  | Some i => (true, _sync_queue_to_config (set_queue (swap i (i + 1) (queue self)) self))
  | None => (false, self)
  end.

Definition remove_item (issue_id : string) (self : t) : bool * t :=
  match find_index (fun _ item => has_id issue_id item) 0 (queue self) with
  | Some i => (true, _sync_queue_to_config (set_queue (delete i (queue self)) self))
  | None => (false, self)
  end.

(** [position] defaults to [-1]; [list.insert] at an index within range
    shifts the tail. *)
Definition add_item (issue_id : string) (position : Z) (self : t) : bool * t :=
  if existsb (has_id issue_id) (queue self) then (false, self)
  else
    let new_item := QueueItem.new issue_id in
    let new_item :=
      match _issue_numbers self !! issue_id with
      | Some n => QueueItem.set_issue_number (Some n) new_item
      | None => new_item
      end in
    let q := queue self in
    let q' :=
      if (position <? 0) || (Z.of_nat (List.length q) <=? position)
      then (q ++ [new_item])%list
      else (take (Z.to_nat position) q ++ new_item :: drop (Z.to_nat position) q)%list in
    (true, _sync_queue_to_config (set_queue q' self)).

(** ** Status refresh *)

(** Lines 240-273: the item state that a classified PR leads to. *)
Definition apply_pr_status (pr : PRInfo.t) (item : QueueItem.t) : QueueItem.t :=
  let st := QueueItem.state item in
  if PRState.eqb (PRInfo.state pr) PRState.MERGED then
    QueueItem.set_state WorkflowState.MERGED item
  else if PRState.eqb (PRInfo.state pr) PRState.CLOSED then
    QueueItem.set_pr_number None (QueueItem.set_state WorkflowState.QUEUED item)
  else if PRState.eqb (PRInfo.state pr) PRState.APPROVED then
    QueueItem.set_state WorkflowState.APPROVED item
  else if PRState.eqb (PRInfo.state pr) PRState.CHANGES_REQUESTED then
    if negb (WorkflowState.among st [WorkflowState.APPLYING_CHANGES])
    then QueueItem.set_state WorkflowState.CHANGES_REQUESTED item
    else item
  else if PRState.eqb (PRInfo.state pr) PRState.REVIEW_REQUESTED then
    if negb (WorkflowState.among st
               [WorkflowState.REVIEWING; WorkflowState.APPLYING_CHANGES])
    then QueueItem.set_state WorkflowState.REVIEW_REQUESTED item
    else item
  else if PRState.eqb (PRInfo.state pr) PRState.DRAFT then
    QueueItem.set_state WorkflowState.PR_OPEN item
  else if truthy_list (PRInfo.reviewers pr) then
    if negb (WorkflowState.among st
               [WorkflowState.REVIEWING; WorkflowState.APPLYING_CHANGES])
    then QueueItem.set_state WorkflowState.REVIEW_REQUESTED item
    else item
  else
    if negb (WorkflowState.among st
               [WorkflowState.REVIEW_REQUESTED; WorkflowState.REVIEWING;
                WorkflowState.CHANGES_REQUESTED; WorkflowState.APPLYING_CHANGES])
    then QueueItem.set_state WorkflowState.PR_OPEN item
    else item.

(** [_update_item_status], a block over the item it mutates.  Lines
    208-214 also store the title under ['issue_titles'] of the
    configuration and save the file: that key is none of [Config.t], and
    the write of the file is not part of this block. *)
Definition _update_item_status (self : t) (w : Answers.t) : Block QueueItem.t unit :=
  if negb (client self) then pass
  else
    (item <- get ;;
     issue <-
       (if truthy_int (QueueItem.issue_number item) then
          ret (Answers.get_issue_by_number w)
        else
          match _issue_numbers self !! QueueItem.issue_id item with
          | Some n =>
              assign (QueueItem.set_issue_number (Some n)) ;;;
              ret (Answers.get_issue_by_number w)
          | None =>
              let issue := Answers.get_issue_by_title_pattern w in
              match issue with
              | Some found => assign (QueueItem.set_issue_number (Some (IssueInfo.number found)))
              | None => pass
              end ;;;
              ret issue
          end) ;;
     match issue with
     | None => pass
     | Some issue =>
         (if negb (IssueInfo.title issue =? "")%string &&
             negb (truthy_str (QueueItem.issue_title item))
          then assign (QueueItem.set_issue_title (Some (IssueInfo.title issue)))
          else pass) ;;;
         if IssueState.eqb (IssueInfo.state issue) IssueState.CLOSED then
           assign (QueueItem.set_state WorkflowState.COMPLETED)
         else if WorkflowState.eqb (QueueItem.state item) WorkflowState.QUEUED &&
                 negb (IssueState.eqb (IssueInfo.state issue) IssueState.IN_PROGRESS)
         then pass
         else
           pr <-
             (if truthy_int (QueueItem.pr_number item) then
                ret (Answers.get_pr_by_number w)
              else if IssueState.eqb (IssueInfo.state issue) IssueState.IN_PROGRESS ||
                      negb (WorkflowState.eqb (QueueItem.state item) WorkflowState.QUEUED)
              then lift (Answers.get_pr_by_issue w)
              else ret None) ;;
           match pr with
           | Some pr =>
               assign (QueueItem.set_pr_number (Some (PRInfo.number pr))) ;;;
               assign (apply_pr_status pr)
           | None =>
               if IssueState.eqb (IssueInfo.state issue) IssueState.IN_PROGRESS
               then assign (QueueItem.set_state WorkflowState.ASSIGNED)
               else if IssueState.eqb (IssueInfo.state issue) IssueState.CLOSED
               then assign (QueueItem.set_state WorkflowState.COMPLETED)
               else pass
           end
     end)%block.

(** [for item in self.state.queue: self._update_item_status(item)];
    [answers i] is what the client answers for the [i]-th item.  An
    exception leaves the later items unvisited. *)
Fixpoint refresh_items (self : t) (answers : nat -> Answers.t) (i : nat)
    (items : list QueueItem.t) : list QueueItem.t * result unit :=
  match items with
  | [] => ([], Ok tt)
  | item :: rest =>
      match _update_item_status self (answers i) item with
      | (item', Ok _) =>
          let '(rest', r) := refresh_items self answers (S i) rest in
          (item' :: rest', r)
      | (item', Raise e) => (item' :: rest, Raise e)
      end
  end.

Definition refresh_status (answers : nat -> Answers.t) : Block t unit :=
  fun self =>
    if negb (client self) then (self, Ok tt)
    else
      let '(q, r) := refresh_items self answers 0 (queue self) in
      (set_queue q self, r).

(** ** Start-up *)

(** [_initialize_queue]: one fresh item per entry of ['issue_queue'], with
    the issue number and title that the configuration maps the entry to.
    [_issue_titles] is the mapping under ['issue_titles']. *)
Definition _initialize_queue (_issue_titles : gmap string string) (self : t) : t :=
  set_queue
    ((fun iid =>
        let item := QueueItem.new iid in
        let item :=
          match _issue_numbers self !! iid with
          | Some n => QueueItem.set_issue_number (Some n) item
          | None => item
          end in
        match _issue_titles !! iid with
        | Some title => QueueItem.set_issue_title (Some title) item
        | None => item
        end) <$> Config.issue_queue (config self))
    self.

(** ** Status summary *)

(** The dictionary that [get_current_status] returns. *)
Module Status.
Record t : Type := {
  is_running : bool;
  last_check : option datetime;
  in_progress : list QueueItem.t;
  queued : list QueueItem.t;
  completed : list QueueItem.t;
  total : nat;
  errors : list string
}.
End Status.

(** [get_current_status]; [is_running], [last_check] and [errors] are the
    fields of [self.state] of these names. *)
Definition get_current_status (is_running : bool) (last_check : option datetime)
    (errors : list string) (self : t) : Status.t :=
  {| Status.is_running := is_running;
     Status.last_check := last_check;
     Status.in_progress :=
       List.filter
         (fun i => negb (WorkflowState.among (QueueItem.state i)
                           [WorkflowState.QUEUED; WorkflowState.MERGED;
                            WorkflowState.COMPLETED])) (queue self);
     Status.queued :=
       List.filter (fun i => WorkflowState.eqb (QueueItem.state i) WorkflowState.QUEUED)
         (queue self);
     Status.completed :=
       List.filter
         (fun i => WorkflowState.among (QueueItem.state i)
                     [WorkflowState.MERGED; WorkflowState.COMPLETED]) (queue self);
     Status.total := List.length (queue self);
     Status.errors :=
       if truthy_list errors then drop (List.length errors - 5) errors else [] |}.

End AutomationEngine.

(* ===================================================================== *)
(** * daemon.py: cooldown, loop-breaker, history, cycle                   *)
(* ===================================================================== *)

(** [last_assignment.json] as its reader meets it: each layer is the
    outcome of one step of [can_assign]. *)
Module CooldownFile.
(** The value under ['timestamp'], seen through
    [datetime.fromisoformat]. *)
Record Timestamp : Type := {
  fromisoformat : result datetime
}.

(** The decoded document, seen through [data['timestamp']], which raises
    when the key is missing or the document is no object. *)
Record Data : Type := {
  issue_id : option string;
  timestamp : result Timestamp
}.

(** The file, seen through [open] and [json.load]. *)
Record t : Type := {
  load : result Data
}.

(** The document that [record_completion] dumps: ['timestamp'] holds
    [datetime.now().isoformat()], which [fromisoformat] reads back as the
    same naive value. *)
Definition written (issue_id : string) (now : Z) : t :=
  {| load := Ok {| issue_id := Some issue_id;
                   timestamp := Ok {| fromisoformat := Ok (naive now) |} |} |}.
End CooldownFile.

Module CooldownManager.

(** [last_completion_file] is [None] while the file does not exist. *)
Record t : Type := {
  cooldown_minutes : Z;
  last_completion_file : option CooldownFile.t
}.

(** [can_assign]; [now] and [now'] are the two readings of
    [datetime.now()].  The minutes left are the truncation of
    [total_seconds() / 60], taken here on the exact quotient. *)
Definition can_assign (self : t) (now now' : Z) : bool * option Z :=
  match last_completion_file self with
  | None => (true, None)
  | Some file =>
      match
        (data <- CooldownFile.load file ;;
         text <- CooldownFile.timestamp data ;;
         last_time <- CooldownFile.fromisoformat text ;;
         delta <- timedelta_minutes (cooldown_minutes self) ;;
         cooldown_end <- datetime_add last_time delta ;;
         expired <- datetime_ge (naive now) cooldown_end ;;
         if (expired : bool) then Ok (true, None)
         else
           remaining <- datetime_sub cooldown_end (naive now') ;;
           Ok (false, Some (Z.quot remaining US_PER_MINUTE)))%result
      with
      | Ok answer => answer
      | Raise _ => (true, None)
      end
  end.

Definition record_completion (issue_id : string) (now : Z) (self : t) : t :=
  {| cooldown_minutes := cooldown_minutes self;
     last_completion_file := Some (CooldownFile.written issue_id now) |}.

End CooldownManager.

Module ReviewTracker.

Record Entry : Type := {
  issue_id : string;
  marked_at : datetime
}.

(** [self._data["review_completed_prs"]], keyed by [str(pr_number)]. *)
Record t : Type := {
  review_completed_prs : gmap string Entry
}.

Definition mark_review_done (pr_number : Z) (issue_id : string) (now : Z)
    (self : t) : t :=
  {| review_completed_prs :=
       <[str pr_number := {| issue_id := issue_id; marked_at := naive now |}]>
         (review_completed_prs self) |}.

Definition is_review_done (self : t) (pr_number : Z) : bool :=
  match review_completed_prs self !! str pr_number with
  | Some _ => true
  | None => false
  end.

Definition clear_pr (pr_number : Z) (self : t) : t :=
  if is_review_done self pr_number
  then {| review_completed_prs := delete (str pr_number) (review_completed_prs self) |}
  else self.

End ReviewTracker.

Module WorkflowHistory.

Record Event : Type := {
  timestamp : datetime;
  event : string;
  state : option string;
  pr_number : option Z
}.

Record t : Type := {
  issues : gmap string (list Event)
}.

Definition MAX_EVENTS_PER_ISSUE : nat := 50.

Definition add_event (issue_id : string) (event : string) (state : option string)
    (pr_number : option Z) (now : Z) (self : t) : t :=
  let entry := {| timestamp := naive now; event := event;
                  state := state; pr_number := pr_number |} in
  let events := (default [] (issues self !! issue_id) ++ [entry])%list in
  let events :=
    if (MAX_EVENTS_PER_ISSUE <? List.length events)%nat
    then drop (List.length events - MAX_EVENTS_PER_ISSUE) events
    else events in
  {| issues := <[issue_id := events]> (issues self) |}.

Definition get_history (self : t) (issue_id : string) : list Event :=
  default [] (issues self !! issue_id).

Definition get_all_histories (self : t) : gmap string (list Event) := issues self.

Definition clear_issue (issue_id : string) (self : t) : t :=
  match issues self !! issue_id with
  | Some _ => {| issues := delete issue_id (issues self) |}
  | None => self
  end.

End WorkflowHistory.

(** A request sent to the agent control service. *)
Inductive Request : Type :=
| AssignIssue (issue_number : Z) (instructions target_branch : string)
| RequestReview (pr_number : Z)
| CommentApplyChanges (pr_number : Z)
| MarkReady (pr_number : Z)
| MergePR (pr_number : Z).

Module AutomationDaemon.

(** [sent] lists the requests issued so far, oldest first. *)
Record t : Type := {
  engine : AutomationEngine.t;
  cooldown : CooldownManager.t;
  review_tracker : ReviewTracker.t;
  workflow_history : WorkflowHistory.t;
  sent : list Request
}.

Definition queue (self : t) : list QueueItem.t :=
  AutomationEngine.queue (engine self).

Definition set_engine (e : AutomationEngine.t) (self : t) : t :=
  {| engine := e; cooldown := cooldown self;
     review_tracker := review_tracker self;
     workflow_history := workflow_history self; sent := sent self |}.

Definition set_cooldown (c : CooldownManager.t) (self : t) : t :=
  {| engine := engine self; cooldown := c;
     review_tracker := review_tracker self;
     workflow_history := workflow_history self; sent := sent self |}.

Definition set_review_tracker (r : ReviewTracker.t) (self : t) : t :=
  {| engine := engine self; cooldown := cooldown self;
     review_tracker := r;
     workflow_history := workflow_history self; sent := sent self |}.

Definition set_workflow_history (h : WorkflowHistory.t) (self : t) : t :=
  {| engine := engine self; cooldown := cooldown self;
     review_tracker := review_tracker self;
     workflow_history := h; sent := sent self |}.

(** A call of a client method that acts on the service. *)
Definition send (r : Request) (self : t) : t :=
  {| engine := engine self; cooldown := cooldown self;
     review_tracker := review_tracker self;
     workflow_history := workflow_history self;
     sent := (sent self ++ [r])%list |}.

(** The item under visit is the [i]-th object of the queue; assigning to
    its fields changes the queue. *)
Definition update_item (i : nat) (f : QueueItem.t -> QueueItem.t) (self : t) : t :=
  match queue self !! i with
  | Some item =>
      set_engine (AutomationEngine.set_queue (<[i := f item]> (queue self)) (engine self)) self
  | None => self
  end.

(** [self.workflow_history.add_event(item.issue_id, text,
    item.state.value, item.pr_number)] for the item as it is now. *)
Definition log_event (i : nat) (text : string) (now : Z) (self : t) : t :=
  match queue self !! i with
  | Some item =>
      set_workflow_history
        (WorkflowHistory.add_event (QueueItem.issue_id item) text
           (Some (WorkflowState.value (QueueItem.state item)))
           (QueueItem.pr_number item) now (workflow_history self)) self
  | None => self
  end.

(** [item.last_action = text; item.last_action_time = datetime.now()],
    then the history entry. *)
Definition record_action (i : nat) (text : string) (now : Z) (self : t) : t :=
  log_event i text now (update_item i (QueueItem.set_last_action text now) self).

Definition auto_merge (c : Config.t) : bool := Config.get (Config.auto_merge c) true.
Definition skip_final_review (c : Config.t) : bool :=
  Config.get (Config.skip_final_review c) false.
Definition auto_assign_next (c : Config.t) : bool :=
  Config.get (Config.auto_assign_next c) true.
Definition agent_instructions (c : Config.t) : string :=
  Config.get (Config.agent_instructions c) "".
Definition target_branch (c : Config.t) : string :=
  Config.get (Config.target_branch c) "main_dev".

(** [item.pr_number and ...]: the number when it is truthy. *)
Definition truthy_number (o : option Z) : option Z :=
  if truthy_int o then o else None.

Definition state_is (item : QueueItem.t) (s : WorkflowState.t) : bool :=
  WorkflowState.eqb (QueueItem.state item) s.

(** ** Stretches of a method body

    A stretch either executes a [return] (the value is [Some]) or falls
    through to the statement after it ([None]). *)
Definition Stretch : Type := t -> t * option (option string).

Definition returns (value : option string) : Stretch := fun self => (self, Some value).
Definition falls_through : Stretch := fun self => (self, None).
Definition perform (f : t -> t) : Stretch := fun self => (f self, None).

Definition then_ (a b : Stretch) : Stretch :=
  fun self =>
    match a self with
    | (self', Some value) => (self', Some value)
    | (self', None) => b self'
    end.

(** Reads the item as it is at this point of the body. *)
Definition with_item (i : nat) (k : QueueItem.t -> Stretch) : Stretch :=
  fun self =>
    match queue self !! i with
    | Some item => k item self
    | None => (self, Some None)
    end.

Declare Scope stretch_scope.
Delimit Scope stretch_scope with stretch.
Notation "a ;; b" := (then_ a b)
  (at level 100, right associativity) : stretch_scope.

(** Lines 478-544: the PR [n] of the item already had its review cycle
    completed. *)
Definition review_done_steps (c : Config.t) (w : Answers.t) (now : Z) (i : nat)
    (n : Z) : Stretch :=
  with_item i (fun item =>
  match Answers.get_pr_by_number w with
  | None => returns None
  | Some pr =>
      if PRInfo.is_draft pr then
        (perform (send (MarkReady n)) ;;
         if Answers.mark_pr_ready_for_review w then
           perform (record_action i "Marked PR as ready for review" now) ;;
           returns (Some ("Marked PR #" +:+ str n +:+
                          " as ready for review (review cycle complete)"))
         else returns None)%stretch
      else if PRState.eqb (PRInfo.state pr) PRState.APPROVED ||
              state_is item WorkflowState.APPROVED ||
              skip_final_review c
      then
        let merge_reason :=
          if PRState.eqb (PRInfo.state pr) PRState.APPROVED then "after approval"
          else "review cycle complete (skip_final_review enabled)" in
        (perform (update_item i (QueueItem.set_state WorkflowState.APPROVED)) ;;
         if auto_merge c then
           perform (send (MergePR n)) ;;
           if Answers.merge_pr w then
             perform (update_item i (QueueItem.set_state WorkflowState.MERGED)) ;;
             perform (update_item i
                        (QueueItem.set_last_action ("Merged PR (" +:+ merge_reason +:+ ")") now)) ;;
             perform (fun self =>
                        set_review_tracker
                          (ReviewTracker.clear_pr n (review_tracker self)) self) ;;
             perform (log_event i ("Merged PR (" +:+ merge_reason +:+ ")") now) ;;
             perform (fun self =>
                        set_cooldown
                          (CooldownManager.record_completion
                             (QueueItem.issue_id item) now (cooldown self)) self) ;;
             returns (Some ("Merged PR #" +:+ str n +:+ " - " +:+ merge_reason +:+
                            " - cooldown started"))
           else returns None
         else returns None)%stretch
      else
        if state_is item WorkflowState.REVIEWING then returns None
        else
          (perform (send (RequestReview n)) ;;
           if Answers.request_review_from_copilot w then
             perform (update_item i (QueueItem.set_state WorkflowState.REVIEWING)) ;;
             perform (record_action i "Requested final Copilot review for approval" now) ;;
             returns (Some ("Requested final review on PR #" +:+ str n +:+
                            " to get approval"))
           else returns None)%stretch
  end).

(** Lines 547-557 *)
Definition pr_open_steps (w : Answers.t) (now : Z) (i : nat) : Stretch :=
  with_item i (fun item =>
  match state_is item WorkflowState.PR_OPEN, truthy_number (QueueItem.pr_number item) with
  | true, Some n =>
      match Answers.get_pr_by_number w with
      | Some pr =>
          if negb (PRState.eqb (PRInfo.state pr) PRState.DRAFT) &&
             negb (truthy_list (PRInfo.reviewers pr))
          then
            (perform (send (RequestReview n)) ;;
             if Answers.request_review_from_copilot w then
               perform (update_item i (QueueItem.set_state WorkflowState.REVIEW_REQUESTED)) ;;
               perform (record_action i "Requested Copilot review" now) ;;
               returns (Some ("Requested Copilot review for PR #" +:+ str n))
             else falls_through)%stretch
          else falls_through
      | None => falls_through
      end
  | _, _ => falls_through
  end).

(** Lines 560-569 *)
Definition review_requested_steps (w : Answers.t) (now : Z) (i : nat) : Stretch :=
  with_item i (fun item =>
  match state_is item WorkflowState.REVIEW_REQUESTED,
        truthy_number (QueueItem.pr_number item) with
  | true, Some n =>
      (perform (send (RequestReview n)) ;;
       if Answers.request_review_from_copilot w then
         perform (update_item i (QueueItem.set_state WorkflowState.REVIEWING)) ;;
         perform (record_action i "Reassigned review to Copilot" now) ;;
         returns (Some ("Reassigned review of PR #" +:+ str n +:+ " to Copilot"))
       else falls_through)%stretch
  | _, _ => falls_through
  end).

(** Lines 573-586 *)
Definition changes_requested_steps (w : Answers.t) (now : Z) (i : nat) : Stretch :=
  with_item i (fun item =>
  match state_is item WorkflowState.CHANGES_REQUESTED,
        truthy_number (QueueItem.pr_number item) with
  | true, Some n =>
      (perform (send (CommentApplyChanges n)) ;;
       if Answers.comment_apply_changes w then
         perform (fun self =>
                    set_review_tracker
                      (ReviewTracker.mark_review_done n (QueueItem.issue_id item) now
                         (review_tracker self)) self) ;;
         perform (update_item i (QueueItem.set_state WorkflowState.APPLYING_CHANGES)) ;;
         perform (record_action i "Commented @copilot apply changes" now) ;;
         returns (Some ("Told Copilot to apply changes on PR #" +:+ str n))
       else falls_through)%stretch
  | _, _ => falls_through
  end).

(** Lines 589-631 *)
Definition approved_steps (c : Config.t) (w : Answers.t) (now : Z) (i : nat) : Stretch :=
  with_item i (fun item =>
  match state_is item WorkflowState.APPROVED,
        truthy_number (QueueItem.pr_number item), auto_merge c with
  | true, Some n, true =>
      match Answers.get_pr_by_number w with
      | None => returns None
      | Some pr =>
          if PRInfo.is_draft pr then
            (perform (send (MarkReady n)) ;;
             if Answers.mark_pr_ready_for_review w then
               perform (record_action i "Marked PR ready for review" now) ;;
               returns (Some ("Marked PR #" +:+ str n +:+ " as ready for review"))
             else returns None)%stretch
          else
            (perform (send (MergePR n)) ;;
             if Answers.merge_pr w then
               perform (update_item i (QueueItem.set_state WorkflowState.MERGED)) ;;
               perform (record_action i "Merged PR" now) ;;
               perform (fun self =>
                          set_cooldown
                            (CooldownManager.record_completion
                               (QueueItem.issue_id item) now (cooldown self)) self) ;;
               returns (Some ("Merged PR #" +:+ str n +:+ " - cooldown started"))
             else falls_through)%stretch
      end
  | _, _, _ => falls_through
  end).

(** [next((i for i in queue if i.state == QUEUED), None)] *)
Definition first_queued (q : list QueueItem.t) : option QueueItem.t :=
  find (fun item => state_is item WorkflowState.QUEUED) q.

(** [[i for i in queue if i.state not in [QUEUED, MERGED, COMPLETED]]] *)
Definition active_items (q : list QueueItem.t) : list QueueItem.t :=
  List.filter
    (fun item => negb (WorkflowState.among (QueueItem.state item)
                         [WorkflowState.QUEUED; WorkflowState.MERGED;
                          WorkflowState.COMPLETED])) q.

(** [first_queued == item] *)
Definition is_item (candidate : option QueueItem.t) (item : QueueItem.t) : bool :=
  match candidate with
  | Some found => QueueItem.eqb found item
  | None => false
  end.

Definition fmt_number (o : option Z) : string :=
  match o with
  | Some n => str n
  | None => "None"
  end.

(** Lines 634-662 *)
Definition queued_steps (c : Config.t) (w : Answers.t) (now : Z) (i : nat)
    (can_assign : bool) : Stretch :=
  with_item i (fun item =>
  if state_is item WorkflowState.QUEUED && auto_assign_next c then
    if negb can_assign then returns None
    else fun self =>
      if is_item (first_queued (queue self)) item &&
         negb (truthy_list (active_items (queue self))) &&
         truthy_int (QueueItem.issue_number item)
      then
        (perform (send (AssignIssue (default 0 (QueueItem.issue_number item))
                          (agent_instructions c) (target_branch c))) ;;
         if Answers.assign_issue_to_copilot w then
           perform (update_item i (QueueItem.set_state WorkflowState.ASSIGNED)) ;;
           perform (record_action i "Assigned to Copilot" now) ;;
           returns (Some ("Assigned issue #" +:+ fmt_number (QueueItem.issue_number item) +:+
                          " (" +:+ QueueItem.issue_id item +:+ ") to Copilot"))
         else falls_through)%stretch self
      else falls_through self
  else falls_through).

(** The review-done test of line 478. *)
Definition review_done_pr (self : t) (item : QueueItem.t) : option Z :=
  match truthy_number (QueueItem.pr_number item) with
  | Some n => if ReviewTracker.is_review_done (review_tracker self) n then Some n else None
  | None => None
  end.

(** [_process_item_with_cooldown(item, can_assign)] for the [i]-th item
    of the queue; [w] holds the answers of the client during the call and
    [now] is the clock reading. *)
Definition _process_item_with_cooldown (w : Answers.t) (now : Z) (i : nat)
    (can_assign : bool) (self : t) : t * option string :=
  let c := AutomationEngine.config (engine self) in
  let body : Stretch :=
    if negb (AutomationEngine.client (engine self)) then returns None
    else
      with_item i (fun item =>
      match review_done_pr self item with
      | Some n => review_done_steps c w now i n
      | None =>
          (pr_open_steps w now i ;;
           review_requested_steps w now i ;;
           changes_requested_steps w now i ;;
           approved_steps c w now i ;;
           queued_steps c w now i can_assign ;;
           returns None)%stretch
      end) in
  match body self with
  | (self', Some value) => (self', value)
  | (self', None) => (self', None)
  end.

(** ** _process_cycle *)

(** The variables of the [for item in queue] loop of lines 396-422. *)
Record Loop : Type := {
  daemon : t;
  can_assign : bool;
  minutes_remaining : option Z;
  actions_taken : list string
}.

(** One iteration, on the [i]-th item. *)
Definition loop_body (answers : nat -> Answers.t) (now : Z) (l : Loop) (i : nat) : Loop :=
  let '(self, action) :=
    _process_item_with_cooldown (answers i) now i (can_assign l) (daemon l) in
  if truthy_str action then
    let a := or_empty action in
    let '(can, minutes) :=
      if contains "Assigned" a
      then (false, snd (CooldownManager.can_assign (cooldown self) now now))
      else (can_assign l, minutes_remaining l) in
    let can := if contains "cooldown started" a then false else can in
    {| daemon := self; can_assign := can; minutes_remaining := minutes;
       actions_taken := (actions_taken l ++ [a])%list |}
  else
    {| daemon := self; can_assign := can_assign l;
       minutes_remaining := minutes_remaining l;
       actions_taken := actions_taken l |}.

(** The loop over the first [n] items. *)
Definition process_items (answers : nat -> Answers.t) (now : Z) (n : nat) (l : Loop) : Loop :=
  fold_left (loop_body answers now) (seq 0 n) l.

(** Lines 384-388: the figures handed to [slog.log_queue_status], in the
    order total, in progress, queued, completed. *)
Definition logged_queue_status (q : list QueueItem.t) : nat * nat * nat * nat :=
  let total := List.length q in
  let in_progress :=
    List.length
      (List.filter
         (fun i => WorkflowState.among (QueueItem.state i)
                     [WorkflowState.ASSIGNED; WorkflowState.PR_OPEN;
                      WorkflowState.REVIEW_REQUESTED; WorkflowState.REVIEWING;
                      WorkflowState.CHANGES_REQUESTED; WorkflowState.APPLYING_CHANGES;
                      WorkflowState.APPROVED]) q) in
  let queued :=
    List.length
      (List.filter (fun i => WorkflowState.eqb (QueueItem.state i) WorkflowState.QUEUED) q) in
  let completed :=
    List.length
      (List.filter
         (fun i => WorkflowState.among (QueueItem.state i)
                     [WorkflowState.MERGED; WorkflowState.COMPLETED]) q) in
  (total, in_progress, queued, completed).

(** [_process_cycle]: status refresh, cooldown check, item loop.  The
    value is [actions_taken]; the status snapshot written at the end is a
    copy of the resulting state. *)
Definition _process_cycle (refresh_answers process_answers : nat -> Answers.t)
    (now : Z) : Block t (list string) :=
  fun self =>
    match AutomationEngine.refresh_status refresh_answers (engine self) with
    | (e, Raise ex) => (set_engine e self, Raise ex)
    | (e, Ok _) =>
        let self := set_engine e self in
        let '(can, minutes) := CooldownManager.can_assign (cooldown self) now now in
        let l := process_items process_answers now (List.length (queue self))
                   {| daemon := self; can_assign := can;
                      minutes_remaining := minutes; actions_taken := [] |} in
        (daemon l, Ok (actions_taken l))
    end.

End AutomationDaemon.

(* ===================================================================== *)
(** * automation_engine.py: the engine's own action loop                  *)
(* ===================================================================== *)

(** [_get_next_action] and [process_next_action] (lines 297-450), the
    path of [run_once].  The engine runs here without a daemon: no
    cooldown, no loop-breaker, no history. *)
Module NextAction.

(** The engine, and the requests its client has sent, oldest first. *)
Record t : Type := {
  engine : AutomationEngine.t;
  sent : list Request
}.

Definition queue (self : t) : list QueueItem.t :=
  AutomationEngine.queue (engine self).

Definition send (r : Request) (self : t) : t :=
  {| engine := engine self; sent := (sent self ++ [r])%list |}.

Definition update_item (i : nat) (f : QueueItem.t -> QueueItem.t) (self : t) : t :=
  match queue self !! i with
  | Some item =>
      {| engine := AutomationEngine.set_queue (<[i := f item]> (queue self)) (engine self);
         sent := sent self |}
  | None => self
  end.

(** [item.state = s; item.last_action = text;
    item.last_action_time = datetime.now()] *)
Definition transition (i : nat) (s : WorkflowState.t) (text : string) (now : Z) : t -> t :=
  update_item i (fun item => QueueItem.set_last_action text now (QueueItem.set_state s item)).

(** A stretch of the method body: it returns, or falls through. *)
Definition Stretch : Type := t -> t * option (option string).

Definition returns (value : option string) : Stretch := fun self => (self, Some value).
Definition falls_through : Stretch := fun self => (self, None).
Definition perform (f : t -> t) : Stretch := fun self => (f self, None).

Definition then_ (a b : Stretch) : Stretch :=
  fun self =>
    match a self with
    | (self', Some value) => (self', Some value)
    | (self', None) => b self'
    end.

Definition with_item (i : nat) (k : QueueItem.t -> Stretch) : Stretch :=
  fun self =>
    match queue self !! i with
    | Some item => k item self
    | None => (self, Some None)
    end.

Declare Scope engine_scope.
Delimit Scope engine_scope with engine.
Notation "a ;; b" := (then_ a b)
  (at level 100, right associativity) : engine_scope.

Import AutomationDaemon (truthy_number, state_is, first_queued, active_items, is_item,
                         fmt_number, auto_merge, skip_final_review, auto_assign_next).

(** Lines 323-329 *)
Definition review_requested_steps (w : Answers.t) (now : Z) (i : nat) : Stretch :=
  with_item i (fun item =>
  match state_is item WorkflowState.REVIEW_REQUESTED,
        truthy_number (QueueItem.pr_number item) with
  | true, Some n =>
      (perform (send (RequestReview n)) ;;
       if Answers.request_review_from_copilot w then
         perform (transition i WorkflowState.REVIEWING "Reassigned review to Copilot" now) ;;
         returns (Some ("Reassigned review of PR #" +:+ str n +:+ " to Copilot"))
       else falls_through)%engine
  | _, _ => falls_through
  end).

(** Lines 333-363 *)
Definition reviewing_steps (w : Answers.t) (now : Z) (i : nat) : Stretch :=
  with_item i (fun item =>
  match state_is item WorkflowState.REVIEWING,
        truthy_number (QueueItem.pr_number item) with
  | true, Some n =>
      match Answers.get_pr_by_number w with
      | Some pr =>
          if PRInfo.copilot_is_working pr then returns None
          else if PRState.eqb (PRInfo.state pr) PRState.CHANGES_REQUESTED then
            (perform (transition i WorkflowState.CHANGES_REQUESTED
                        "Review completed with changes requested" now) ;;
             returns (Some ("PR #" +:+ str n +:+
                            " review completed - changes requested")))%engine
          else if PRState.eqb (PRInfo.state pr) PRState.APPROVED then
            (perform (transition i WorkflowState.APPROVED
                        "Review completed and approved" now) ;;
             returns (Some ("PR #" +:+ str n +:+ " review completed - approved")))%engine
          else
            ((if PRInfo.is_draft pr then perform (send (MarkReady n)) else falls_through) ;;
             perform (transition i WorkflowState.APPROVED
                        "Review completed, no changes needed" now) ;;
             returns (Some ("PR #" +:+ str n +:+
                            " review completed - no changes needed, ready for merge")))%engine
      | None => falls_through
      end
  | _, _ => falls_through
  end).

(** Lines 367-373 *)
Definition changes_requested_steps (w : Answers.t) (now : Z) (i : nat) : Stretch :=
  with_item i (fun item =>
  match state_is item WorkflowState.CHANGES_REQUESTED,
        truthy_number (QueueItem.pr_number item) with
  | true, Some n =>
      (perform (send (CommentApplyChanges n)) ;;
       if Answers.comment_apply_changes w then
         perform (transition i WorkflowState.APPLYING_CHANGES
                    "Commented @copilot apply changes" now) ;;
         returns (Some ("Told Copilot to apply changes on PR #" +:+ str n))
       else falls_through)%engine
  | _, _ => falls_through
  end).

(** Lines 377-411 *)
Definition applying_changes_steps (c : Config.t) (w : Answers.t) (now : Z) (i : nat)
  : Stretch :=
  with_item i (fun item =>
  match state_is item WorkflowState.APPLYING_CHANGES,
        truthy_number (QueueItem.pr_number item) with
  | true, Some n =>
      match Answers.get_pr_by_number w with
      | Some pr =>
          if PRInfo.copilot_is_working pr then returns None
          else if PRState.eqb (PRInfo.state pr) PRState.APPROVED then
            (perform (transition i WorkflowState.APPROVED
                        "Changes applied and approved" now) ;;
             returns (Some ("PR #" +:+ str n +:+ " changes applied and approved")))%engine
          else if negb (PRState.eqb (PRInfo.state pr) PRState.CHANGES_REQUESTED) then
            if skip_final_review c then
              ((if PRInfo.is_draft pr then perform (send (MarkReady n))
                else falls_through) ;;
               perform (transition i WorkflowState.APPROVED
                          "Changes applied, marked ready for merge" now) ;;
               returns (Some ("PR #" +:+ str n +:+
                              " changes applied by Copilot, ready for merge")))%engine
            else
              (perform (send (RequestReview n)) ;;
               if Answers.request_review_from_copilot w then
                 perform (transition i WorkflowState.REVIEWING
                            "Requested follow-up review after changes applied" now) ;;
                 returns (Some ("Requested follow-up review on PR #" +:+ str n +:+
                                " after changes applied"))
               else falls_through)%engine
          else falls_through
      | None => falls_through
      end
  | _, _ => falls_through
  end).

(** Lines 415-433.  The outcome of marking the PR ready is not looked at. *)
Definition approved_steps (c : Config.t) (w : Answers.t) (now : Z) (i : nat) : Stretch :=
  with_item i (fun item =>
  match state_is item WorkflowState.APPROVED,
        truthy_number (QueueItem.pr_number item), auto_merge c with
  | true, Some n, true =>
      match Answers.get_pr_by_number w with
      | Some pr =>
          if PRInfo.is_draft pr then
            (perform (send (MarkReady n)) ;;
             perform (update_item i
                        (QueueItem.set_last_action "Marked PR ready for review" now)) ;;
             returns (Some ("Marked PR #" +:+ str n +:+ " as ready for review")))%engine
          else
            (perform (send (MergePR n)) ;;
             if Answers.merge_pr w then
               perform (transition i WorkflowState.MERGED "Merged PR" now) ;;
               returns (Some ("Merged PR #" +:+ str n))
             else falls_through)%engine
      | None => falls_through
      end
  | _, _, _ => falls_through
  end).

(** Lines 437-448.  The issue is assigned without instructions, to the
    default target branch. *)
Definition queued_steps (c : Config.t) (w : Answers.t) (now : Z) (i : nat) : Stretch :=
  with_item i (fun item =>
  if state_is item WorkflowState.QUEUED && auto_assign_next c then
    fun self =>
      if is_item (first_queued (queue self)) item &&
         negb (truthy_list (active_items (queue self))) &&
         truthy_int (QueueItem.issue_number item)
      then
        (perform (send (AssignIssue (default 0 (QueueItem.issue_number item))
                          "" "main_dev")) ;;
         if Answers.assign_issue_to_copilot w then
           perform (transition i WorkflowState.ASSIGNED "Assigned to Copilot" now) ;;
           returns (Some ("Assigned issue #" +:+ fmt_number (QueueItem.issue_number item) +:+
                          " (" +:+ QueueItem.issue_id item +:+ ") to Copilot"))
         else falls_through)%engine self
      else falls_through self
  else falls_through).

(** [_get_next_action(item)] for the [i]-th item of the queue. *)
Definition _get_next_action (w : Answers.t) (now : Z) (i : nat) (self : t)
  : t * option string :=
  let c := AutomationEngine.config (engine self) in
  let body : Stretch :=
    if negb (AutomationEngine.client (engine self)) then returns None
    else
      (review_requested_steps w now i ;;
       reviewing_steps w now i ;;
       changes_requested_steps w now i ;;
       applying_changes_steps c w now i ;;
       approved_steps c w now i ;;
       queued_steps c w now i ;;
       returns None)%engine in
  match body self with
  | (self', Some value) => (self', value)
  | (self', None) => (self', None)
  end.

(** [for item in self.state.queue], left at the first action. *)
Fixpoint first_action (answers : nat -> Answers.t) (now : Z) (items : list nat) (self : t)
  : t * option string :=
  match items with
  | [] => (self, None)
  | i :: rest =>
      let '(self', action) := _get_next_action (answers i) now i self in
      if truthy_str action then (self', action)
      else first_action answers now rest self'
  end.

(** [process_next_action]: a status refresh, then the first action that
    an item of the queue gives rise to. *)
Definition process_next_action (refresh_answers answers : nat -> Answers.t) (now : Z)
  : Block t (option string) :=
  fun self =>
    if negb (AutomationEngine.client (engine self)) then (self, Ok None)
    else
      match AutomationEngine.refresh_status refresh_answers (engine self) with
      | (e, Raise ex) => ({| engine := e; sent := sent self |}, Raise ex)
      | (e, Ok _) =>
          let self := {| engine := e; sent := sent self |} in
          let '(self', action) :=
            first_action answers now (seq 0 (List.length (queue self))) self in
          (self', Ok action)
      end.

(** ** run_once *)

(** What [connect] did: it set the client and reached GitHub, or it
    failed, before or after it had set the client.  The error text that
    it appends to [state.errors] is not part of the engine here. *)
Inductive Connect : Type :=
| connected
| failed (client_set : bool).

Definition connect (outcome : Connect) (self : t) : t :=
  match outcome with
  | connected | failed true =>
      {| engine :=
           {| AutomationEngine.config := AutomationEngine.config (engine self);
              AutomationEngine.client := true;
              AutomationEngine._issue_numbers :=
                AutomationEngine._issue_numbers (engine self);
              AutomationEngine.queue := AutomationEngine.queue (engine self) |};
         sent := sent self |}
  | failed false => self
  end.

(** The answers of the client and the clock during one round of the
    loop. *)
Record Round : Type := {
  refresh_answers : nat -> Answers.t;
  answers : nat -> Answers.t;
  now : Z
}.

(** [while True: action = self.process_next_action(); ...], cut after
    [fuel] rounds: [None] when the loop is still running then.  [k] is
    the number of the round, [actions] the list built so far. *)
Fixpoint run_once_loop (fuel : nat) (rounds : nat -> Round) (k : nat)
    (actions : list string) (self : t) : option (t * result (list string)) :=
  match fuel with
  | O => None
  | S fuel' =>
      let round := rounds k in
      match process_next_action (refresh_answers round) (answers round) (now round) self with
      | (self', Raise ex) => Some (self', Raise ex)
      | (self', Ok action) =>
          if truthy_str action then
            run_once_loop fuel' rounds (S k) (actions ++ [or_empty action])%list self'
          else
            Some (self', Ok (if truthy_list actions then actions
                             else ["No actions needed"]))
      end
  end.

(** [run_once]; [first_refresh] are the answers during the refresh that
    precedes the loop. *)
Definition run_once (fuel : nat) (outcome : Connect) (first_refresh : nat -> Answers.t)
    (rounds : nat -> Round) (self : t) : option (t * result (list string)) :=
  let self := connect outcome self in
  match outcome with
  | failed _ => Some (self, Ok ["Failed to connect to GitHub"])
  | connected =>
      match AutomationEngine.refresh_status first_refresh (engine self) with
      | (e, Raise ex) => Some ({| engine := e; sent := sent self |}, Raise ex)
      | (e, Ok _) => run_once_loop fuel rounds 0 [] {| engine := e; sent := sent self |}
      end
  end.

End NextAction.

(* ===================================================================== *)
(** * daemon.py and app.py: the item states of the status file            *)
(* ===================================================================== *)

(** The values of ['item_states'], the object that
    [daemon_status.get('item_states', {})] gives, as
    [sync_item_states_from_daemon] meets them. *)
Module ItemState.

(** A value that is an object, seen through its keys.  [state] is [None]
    when the key is missing; the other keys are read with [.get], so a
    missing key and a null are the same there, and their values are of the
    types that the daemon writes.  [last_action_time] is the outcome of
    [datetime.fromisoformat] on a truthy value, and [None] for a falsy
    one.  A ['state'] that is no string behaves as a string that names no
    state: [WorkflowState(...)] raises [ValueError] on both. *)
Record t : Type := {
  state : option string;
  issue_number : option Z;
  pr_number : option Z;
  last_action : option string;
  last_action_time : option (result datetime);
  review_done : bool;
  workflow_history : list WorkflowHistory.Event
}.

(** A value: an object, or a JSON value of another kind (null, a number,
    a string, a list), on which [state_info['state']] raises
    [TypeError]. *)
Inductive entry : Type :=
| object (info : t)
| not_an_object.

End ItemState.

Module DaemonStatus.
Import AutomationDaemon (truthy_number).

(** The entry that [_process_cycle] writes for [item], read back from the
    file: [isoformat] gives a non-empty string that [fromisoformat] reads
    back as the same value. *)
Definition item_state (self : AutomationDaemon.t) (item : QueueItem.t) : ItemState.t :=
  {| ItemState.state := Some (WorkflowState.value (QueueItem.state item));
     ItemState.issue_number := QueueItem.issue_number item;
     ItemState.pr_number := QueueItem.pr_number item;
     ItemState.last_action := QueueItem.last_action item;
     ItemState.last_action_time :=
       match QueueItem.last_action_time item with
       | Some t => Some (Ok t)
       | None => None
       end;
     ItemState.review_done :=
       match truthy_number (QueueItem.pr_number item) with
       | Some n =>
           ReviewTracker.is_review_done (AutomationDaemon.review_tracker self) n
       | None => false
       end;
     ItemState.workflow_history :=
       WorkflowHistory.get_history (AutomationDaemon.workflow_history self)
         (QueueItem.issue_id item) |}.

(** [item_states = {}; for item in queue: item_states[item.issue_id] = {...}] *)
Definition item_states (self : AutomationDaemon.t) : gmap string ItemState.entry :=
  foldl (fun m item =>
           <[QueueItem.issue_id item := ItemState.object (item_state self item)]> m)
    ∅ (AutomationDaemon.queue self).

End DaemonStatus.

Module App.

Definition members : list WorkflowState.t :=
  [WorkflowState.QUEUED; WorkflowState.ASSIGNED; WorkflowState.PR_OPEN;
   WorkflowState.REVIEW_REQUESTED; WorkflowState.REVIEWING;
   WorkflowState.CHANGES_REQUESTED; WorkflowState.APPLYING_CHANGES;
   WorkflowState.APPROVED; WorkflowState.MERGED; WorkflowState.COMPLETED].

(** [WorkflowState(value)]: the member with that value, or [ValueError]. *)
Definition WorkflowState_call (value : string) : result WorkflowState.t :=
  match List.find (fun s => (WorkflowState.value s =? value)%string) members with
  | Some s => Ok s
  | None => Raise ValueError
  end.

Definition assign_last_action (text : option string) (item : QueueItem.t) : QueueItem.t :=
  {| QueueItem.issue_id := QueueItem.issue_id item;
     QueueItem.state := QueueItem.state item;
     QueueItem.issue_number := QueueItem.issue_number item;
     QueueItem.issue_title := QueueItem.issue_title item;
     QueueItem.pr_number := QueueItem.pr_number item;
     QueueItem.last_action := text;
     QueueItem.last_action_time := QueueItem.last_action_time item |}.

Definition assign_last_action_time (t : datetime) (item : QueueItem.t) : QueueItem.t :=
  {| QueueItem.issue_id := QueueItem.issue_id item;
     QueueItem.state := QueueItem.state item;
     QueueItem.issue_number := QueueItem.issue_number item;
     QueueItem.issue_title := QueueItem.issue_title item;
     QueueItem.pr_number := QueueItem.pr_number item;
     QueueItem.last_action := QueueItem.last_action item;
     QueueItem.last_action_time := Some t |}.

(** The body of [if item.issue_id in item_states:] for a [state_info]
    that is an object, a block over the item it mutates.
    [state_info['state']] raises [KeyError] when the key is missing; only
    [ValueError] is caught there. *)
Definition sync_item (state_info : ItemState.t) : Block QueueItem.t unit :=
  (match ItemState.state state_info with
   | None => lift (Raise KeyError)
   | Some value =>
       match WorkflowState_call value with
       | Ok s => assign (QueueItem.set_state s)
       | Raise ValueError => pass
       | Raise e => lift (Raise e)
       end
   end ;;;
   (if truthy_int (ItemState.issue_number state_info)
    then assign (QueueItem.set_issue_number (ItemState.issue_number state_info))
    else pass) ;;;
   (if truthy_int (ItemState.pr_number state_info)
    then assign (QueueItem.set_pr_number (ItemState.pr_number state_info))
    else pass) ;;;
   (if truthy_str (ItemState.last_action state_info)
    then assign (assign_last_action (ItemState.last_action state_info))
    else pass) ;;;
   match ItemState.last_action_time state_info with
   | Some (Ok t) => assign (assign_last_action_time t)
   | Some (Raise _) => pass
   | None => pass
   end)%block.

(** [for item in engine.state.queue: if item.issue_id in item_states: ...];
    an exception leaves the later items unvisited.  On a [state_info] that
    is no object the first statement of the body raises. *)
Fixpoint sync_items (item_states : gmap string ItemState.entry) (items : list QueueItem.t)
  : list QueueItem.t * result unit :=
  match items with
  | [] => ([], Ok tt)
  | item :: rest =>
      match item_states !! QueueItem.issue_id item with
      | None =>
          let '(rest', r) := sync_items item_states rest in
          (item :: rest', r)
      | Some ItemState.not_an_object => (item :: rest, Raise TypeError)
      | Some (ItemState.object state_info) =>
          match sync_item state_info item with
          | (item', Ok _) =>
              let '(rest', r) := sync_items item_states rest in
              (item' :: rest', r)
          | (item', Raise e) => (item' :: rest, Raise e)
          end
      end
  end.

(** [sync_item_states_from_daemon], a block over the engine of the app;
    [item_states] is [daemon_status.get('item_states', {})]. *)
Definition sync_item_states_from_daemon (item_states : gmap string ItemState.entry)
  : Block AutomationEngine.t unit :=
  fun engine =>
    if (size item_states =? 0)%nat then (engine, Ok tt)
    else
      let '(q, r) := sync_items item_states (AutomationEngine.queue engine) in
      (AutomationEngine.set_queue q engine, r).

End App.

(* ===================================================================== *)
(** * Vocabulary of the stated properties                                 *)
(* ===================================================================== *)

Import GithubClient AutomationDaemon.

(** ** Classifier *)

Definition classified_state (r : result PRInfo.t) : option PRState.t :=
  match r with
  | Ok info => Some (PRInfo.state info)
  | Raise _ => None
  end.

Definition earlier_or_same (a b : IssueComment.t) : Prop :=
  comment_time a <= comment_time b.

(** Issue comments listed in the order of their timestamps. *)
Definition chronological (comments : list IssueComment.t) : Prop :=
  Sorted earlier_or_same comments.

(** [t] is the timestamp of the most recent "@copilot apply" request. *)
Definition most_recent_apply (comments : list IssueComment.t) (t : Z) : Prop :=
  (exists c, c ∈ comments /\ is_apply_request c = true /\ comment_time c = t) /\
  (forall c, c ∈ comments -> is_apply_request c = true -> comment_time c <= t).

(** Some "finished work" announcement is strictly later than [t]. *)
Definition finished_later_than (comments : list IssueComment.t) (t : Z) : Prop :=
  exists c, c ∈ comments /\ is_finished_signal c = true /\ t < comment_time c.

(** Timestamp of the last comment of the list that [p] accepts. *)
Fixpoint last_time (p : IssueComment.t -> bool) (comments : list IssueComment.t)
  : option Z :=
  match comments with
  | [] => None
  | c :: rest =>
      match last_time p rest with
      | Some t => Some t
      | None => if p c then Some (comment_time c) else None
      end
  end.

(** Two valuations of the locals that differ at most in
    [copilot_is_working]. *)
Definition same_but_working (l1 l2 : Locals) : Prop :=
  has_pending_suggestions l1 = has_pending_suggestions l2 /\
  copilot_has_reviewed l1 = copilot_has_reviewed l2 /\
  copilot_work_just_finished l1 = copilot_work_just_finished l2.

(** What a decoded timeline can put in a marker: a string or nothing. *)
Definition json_marker (v : pyval) : Prop :=
  match v with
  | VNone | VStr _ => True
  | _ => False
  end.

(** ** Cooldown *)

Definition manager (cooldown_minutes : Z) (file : option CooldownFile.t)
  : CooldownManager.t :=
  {| CooldownManager.cooldown_minutes := cooldown_minutes;
     CooldownManager.last_completion_file := file |}.

(** The instant at which the cooldown started at [completed_at] ends. *)
Definition cooldown_expiry (cooldown_minutes completed_at : Z) : Z :=
  completed_at + cooldown_minutes * US_PER_MINUTE.

(** The expiry can be computed: the duration is a [timedelta] and the
    expiry a [datetime]. *)
Definition expiry_representable (cooldown_minutes completed_at : Z) : bool :=
  is_ok (timedelta_minutes cooldown_minutes) &&
  (0 <=? cooldown_expiry cooldown_minutes completed_at) &&
  (cooldown_expiry cooldown_minutes completed_at <? DATETIME_END).

(** A record that cannot be read back: the file does not decode, holds no
    ['timestamp'], or holds one that does not parse. *)
Inductive corrupt : CooldownFile.t -> Prop :=
| corrupt_unreadable file e :
    CooldownFile.load file = Raise e -> corrupt file
| corrupt_no_timestamp file data e :
    CooldownFile.load file = Ok data ->
    CooldownFile.timestamp data = Raise e -> corrupt file
| corrupt_bad_timestamp file data text e :
    CooldownFile.load file = Ok data ->
    CooldownFile.timestamp data = Ok text ->
    CooldownFile.fromisoformat text = Raise e -> corrupt file.

(** ** Queue edits *)

Inductive QueueEdit : Type :=
| AddItem (issue_id : string) (position : Z)
| RemoveItem (issue_id : string)
| MoveItemUp (issue_id : string)
| MoveItemDown (issue_id : string).

Definition apply_edit (self : AutomationEngine.t) (e : QueueEdit) : AutomationEngine.t :=
  snd (match e with
       | AddItem issue_id position => AutomationEngine.add_item issue_id position self
       | RemoveItem issue_id => AutomationEngine.remove_item issue_id self
       | MoveItemUp issue_id => AutomationEngine.move_item_up issue_id self
       | MoveItemDown issue_id => AutomationEngine.move_item_down issue_id self
       end).

Definition queue_ids (self : AutomationEngine.t) : list string :=
  QueueItem.issue_id <$> AutomationEngine.queue self.

(** ** Daemon *)

(** The [i]-th queue item of a daemon. *)
Definition item_at (i : nat) (self : AutomationDaemon.t) : option QueueItem.t :=
  queue self !! i.

(** The requests issued between two states of the daemon. *)
Definition issued (before after : AutomationDaemon.t) : list Request :=
  drop (List.length (sent before)) (sent after).

(** The [i]-th iteration of the item loop moves its item from QUEUED to
    ASSIGNED. *)
Definition assigned_in_iteration (answers : nat -> Answers.t) (now : Z)
    (l : Loop) (i : nat) : Prop :=
  exists item item',
    item_at i (daemon (process_items answers now i l)) = Some item /\
    item_at i (daemon (process_items answers now (S i) l)) = Some item' /\
    QueueItem.state item = WorkflowState.QUEUED /\
    QueueItem.state item' = WorkflowState.ASSIGNED.

(** Item [i] is QUEUED before the loop over the first [n] items and
    ASSIGNED after it. *)
Definition moved_to_assigned (answers : nat -> Answers.t) (now : Z)
    (l : Loop) (n i : nat) : Prop :=
  exists item item',
    item_at i (daemon l) = Some item /\
    item_at i (daemon (process_items answers now n l)) = Some item' /\
    QueueItem.state item = WorkflowState.QUEUED /\
    QueueItem.state item' = WorkflowState.ASSIGNED.

(** A stretch, and a state change, that change no item but the [i]-th. *)
Definition leaves_others (i : nat) (S : Stretch) : Prop :=
  forall self0 j, j <> i -> item_at j (fst (S self0)) = item_at j self0.

Definition keeps_others (i : nat) (f : AutomationDaemon.t -> AutomationDaemon.t) : Prop :=
  forall self0 j, j <> i -> item_at j (f self0) = item_at j self0.

(** A stretch that, run on a daemon whose [i]-th item is [item0], only
    appends requests, keeps the PR number of the item, and asks for a
    review of no other PR than the item's. *)
Definition asks_review_of_own_pr (i : nat) (S : Stretch) : Prop :=
  forall self0 item0,
    item_at i self0 = Some item0 ->
    exists l item1,
      sent (fst (S self0)) = (sent self0 ++ l)%list /\
      item_at i (fst (S self0)) = Some item1 /\
      QueueItem.pr_number item1 = QueueItem.pr_number item0 /\
      (forall k, RequestReview k ∈ l -> truthy_number (QueueItem.pr_number item0) = Some k).

(** ** Sample data *)

Definition sample_pr (reviews : result (list Review.t))
    (comments : result (list IssueComment.t))
    (review_comments : result (list ReviewComment.t))
    (requested : result (list string)) : PullRequest.t :=
  {| PullRequest.number := 42;
     PullRequest.title := "Add lap timer";
     PullRequest.body := Some "Implements TC-A-01";
     PullRequest.user_login := "copilot";
     PullRequest.html_url := "https://github.com/WoDeep/TimeAttack/pull/42";
     PullRequest.mergeable := Some true;
     PullRequest.merged := false;
     PullRequest.state := "open";
     PullRequest.draft := false;
     PullRequest.head_sha := "sha1";
     PullRequest.get_reviews := reviews;
     PullRequest.get_issue_comments := comments;
     PullRequest.get_review_comments := review_comments;
     PullRequest.get_review_requests := requested;
     PullRequest.get_commits := Ok [] |}.

Definition comment (body : string) (t : Z) : IssueComment.t :=
  {| IssueComment.body := Some body; IssueComment.created_at := utc t |}.

Definition timeline_of (events : list TimelineEvent.t) : result TimelineResponse.t :=
  Ok {| TimelineResponse.status_code := 200; TimelineResponse.json := Ok events |}.

Definition marker (event created_at : string) : TimelineEvent.t :=
  {| TimelineEvent.event := Some event; TimelineEvent.created_at := Some created_at |}.

Definition approving_review : Review.t :=
  {| Review.state := "APPROVED"; Review.body := Some "Looks good" |}.

(** 2024-01-01T00:00:00 and 2026-11-03T12:00:00, in microseconds. *)
Definition new_year : Z := 63839664000000000.
Definition noon : Z := 63929304000000000.

(** A review requested at 00:00, started at 00:01 and finished at 00:05,
    looked at one minute later. *)
Definition review_just_finished : result TimelineResponse.t :=
  timeline_of [marker "review_requested" "2024-01-01T00:00:00Z";
               marker "copilot_work_started" "2024-01-01T00:01:00Z";
               marker "copilot_work_finished" "2024-01-01T00:05:00Z"].

Definition one_minute_after_finish : datetime := utc (new_year + 6 * US_PER_MINUTE).

(** The comment thread of the stale-signal scenario, from [T0] on. *)
Definition second_apply_round (T0 : Z) : list IssueComment.t :=
  [comment "@copilot apply changes" T0;
   comment "Copilot finished work on behalf of user" (T0 + 1 * US_PER_MINUTE);
   comment "@copilot apply changes" (T0 + 5 * US_PER_MINUTE);
   comment "Copilot started work on behalf of user" (T0 + 6 * US_PER_MINUTE)].

(** A thread that is not in the order of its timestamps. *)
Definition shuffled_thread : list IssueComment.t :=
  [comment "@copilot apply changes" (new_year + 5 * US_PER_MINUTE);
   comment "Copilot finished work on behalf of user" (new_year + 10 * US_PER_MINUTE);
   comment "Copilot finished work on behalf of user" (new_year + 1 * US_PER_MINUTE)].

Definition sample_info (state : PRState.t) (is_draft : bool) (reviewers : list string)
  : PRInfo.t :=
  {| PRInfo.number := 42;
     PRInfo.title := "Add lap timer";
     PRInfo.state := state;
     PRInfo.author := "copilot";
     PRInfo.reviewers := reviewers;
     PRInfo.review_state := None;
     PRInfo.url := "https://github.com/WoDeep/TimeAttack/pull/42";
     PRInfo.linked_issue := Some "TC-A-01";
     PRInfo.mergeable := true;
     PRInfo.checks_passed := true;
     PRInfo.is_draft := is_draft;
     PRInfo.copilot_has_reviewed := false;
     PRInfo.copilot_is_working := false |}.

Definition sample_issue (number : Z) (state : IssueState.t) : IssueInfo.t :=
  {| IssueInfo.number := number;
     IssueInfo.title := "Lap timer";
     IssueInfo.state := state;
     IssueInfo.assignee :=
       match state with
       | IssueState.IN_PROGRESS => Some "copilot"
       | _ => None
       end |}.

Definition sample_item (issue_id : string) (state : WorkflowState.t)
    (issue_number pr_number : option Z) : QueueItem.t :=
  {| QueueItem.issue_id := issue_id;
     QueueItem.state := state;
     QueueItem.issue_number := issue_number;
     QueueItem.issue_title := Some "Lap timer";
     QueueItem.pr_number := pr_number;
     QueueItem.last_action := None;
     QueueItem.last_action_time := None |}.

(** The client answers with the issue and the PR given, and every action
    succeeds or fails as [ok] says. *)
Definition sample_answers (issue : option IssueInfo.t) (pr : option PRInfo.t) (ok : bool)
  : Answers.t :=
  {| Answers.get_issue_by_number := issue;
     Answers.get_issue_by_title_pattern := issue;
     Answers.get_pr_by_number := pr;
     Answers.get_pr_by_issue := Ok pr;
     Answers.assign_issue_to_copilot := ok;
     Answers.request_review_from_copilot := ok;
     Answers.comment_apply_changes := ok;
     Answers.mark_pr_ready_for_review := ok;
     Answers.merge_pr := ok |}.

Definition default_config : Config.t :=
  {| Config.issue_queue := [];
     Config.auto_merge := None;
     Config.skip_final_review := None;
     Config.auto_assign_next := None;
     Config.agent_instructions := None;
     Config.target_branch := None |}.

Definition sample_engine (queue : list QueueItem.t) : AutomationEngine.t :=
  {| AutomationEngine.config := default_config;
     AutomationEngine.client := true;
     AutomationEngine._issue_numbers := ∅;
     AutomationEngine.queue := queue |}.

Definition no_reviews_done : ReviewTracker.t :=
  {| ReviewTracker.review_completed_prs := ∅ |}.

Definition review_done_42 : ReviewTracker.t :=
  ReviewTracker.mark_review_done 42 "TC-A-01" noon no_reviews_done.

Definition sample_daemon (queue : list QueueItem.t) (tracker : ReviewTracker.t)
  : AutomationDaemon.t :=
  {| engine := sample_engine queue;
     cooldown := manager 60 None;
     review_tracker := tracker;
     workflow_history := {| WorkflowHistory.issues := ∅ |};
     sent := [] |}.

(** PR 42 is under "apply changes" and has its loop-breaker entry. *)
Definition applying_changes_42 : AutomationDaemon.t :=
  sample_daemon [sample_item "TC-A-01" WorkflowState.APPLYING_CHANGES (Some 11) (Some 42)]
    review_done_42.

Definition two_queued : AutomationDaemon.t :=
  sample_daemon [sample_item "TC-A-01" WorkflowState.QUEUED (Some 11) None;
                 sample_item "TC-A-02" WorkflowState.QUEUED (Some 12) None]
    no_reviews_done.

Definition fresh_loop (self : AutomationDaemon.t) : Loop :=
  {| daemon := self; can_assign := true; minutes_remaining := None; actions_taken := [] |}.

(** Every issue of the queue already has an assignee and no PR. *)
Definition assigned_elsewhere (i : nat) : Answers.t :=
  sample_answers (Some (sample_issue (11 + Z.of_nat i) IssueState.IN_PROGRESS)) None false.

Definition silent (i : nat) : Answers.t := sample_answers None None false.
Definition obliging (i : nat) : Answers.t := sample_answers None None true.

(** The PR is out of draft and classified "review requested"; requests
    succeed. *)
Definition review_requested_again : Answers.t :=
  sample_answers (Some (sample_issue 11 IssueState.IN_PROGRESS))
    (Some (sample_info PRState.REVIEW_REQUESTED false ["copilot"])) true.

(** The PR is classified as a draft. *)
Definition classified_draft : Answers.t :=
  sample_answers (Some (sample_issue 11 IssueState.IN_PROGRESS))
    (Some (sample_info PRState.DRAFT true [])) true.

Definition undecodable : CooldownFile.t := {| CooldownFile.load := Raise ValueError |}.

(* ===================================================================== *)
(** * Vocabulary of the further properties                                *)
(* ===================================================================== *)

(** ** Classifier and lookups *)

(** A review comment made on the head commit, or on no known commit. *)
Definition on_head_commit (sha : string) (c : ReviewComment.t) : Prop :=
  ReviewComment.commit_id c = None \/ ReviewComment.commit_id c = Some "" \/
  ReviewComment.commit_id c = Some sha.

(** [d] is one decimal digit, of any script. *)
Definition decimal_digit (d : string) : Prop :=
  take_char d = Some (d, "") /\ is_decimal (code_point d) = true.

(** [m] is an issue id: TC, a dash, a capital letter, a dash, two decimal
    digits. *)
Definition tc_shaped (m : string) : Prop :=
  exists u d1 d2,
    m = String "T" (String "C" (String "-" (String u (String "-" (d1 +:+ d2))))) /\
    is_upper u = true /\ decimal_digit d1 /\ decimal_digit d2.

(** [m] occurs in [s] right after [pre], and no issue id starts earlier. *)
Definition first_id_of (s pre m : string) : Prop :=
  tc_shaped m /\
  (exists post, s = pre +:+ m +:+ post) /\
  forall pre' m' post',
    tc_shaped m' -> s = pre' +:+ m' +:+ post' ->
    (String.length pre <= String.length pre')%nat.

Definition no_id_in (s : string) : Prop :=
  forall pre m post, tc_shaped m -> s <> pre +:+ m +:+ post.

(** The listing that yields [prs] and goes on as [rest]. *)
Fixpoint listed {A} (prs : list A) (rest : PaginatedList A) : PaginatedList A :=
  match prs with
  | [] => rest
  | pr :: prs' => page_item pr (listed prs' rest)
  end.

(** ** Status refresh *)

(** The client answers every issue lookup with [issue]. *)
Definition finds_issue (w : Answers.t) (issue : IssueInfo.t) : Prop :=
  Answers.get_issue_by_number w = Some issue /\
  Answers.get_issue_by_title_pattern w = Some issue.

(** The client finds no PR, by number or by search. *)
Definition finds_no_pr (w : Answers.t) : Prop :=
  Answers.get_pr_by_number w = None /\ Answers.get_pr_by_issue w = Ok None.

(** ** Transitions *)

(** [item1] is [item0] up to its state and last action. *)
Definition same_identity (item0 item1 : QueueItem.t) : Prop :=
  QueueItem.issue_id item1 = QueueItem.issue_id item0 /\
  QueueItem.issue_number item1 = QueueItem.issue_number item0 /\
  QueueItem.issue_title item1 = QueueItem.issue_title item0 /\
  QueueItem.pr_number item1 = QueueItem.pr_number item0.

(** The transitions of [_get_next_action]. *)
Definition engine_edge (s0 s1 : WorkflowState.t) : bool :=
  match s0, s1 with
  | WorkflowState.REVIEW_REQUESTED, WorkflowState.REVIEWING
  | WorkflowState.REVIEWING, WorkflowState.CHANGES_REQUESTED
  | WorkflowState.REVIEWING, WorkflowState.APPROVED
  | WorkflowState.CHANGES_REQUESTED, WorkflowState.APPLYING_CHANGES
  | WorkflowState.APPLYING_CHANGES, WorkflowState.APPROVED
  | WorkflowState.APPLYING_CHANGES, WorkflowState.REVIEWING
  | WorkflowState.APPROVED, WorkflowState.MERGED
  | WorkflowState.QUEUED, WorkflowState.ASSIGNED => true
  | _, _ => false
  end.

Definition engine_step_allowed (item0 item1 : QueueItem.t) : Prop :=
  same_identity item0 item1 /\
  (QueueItem.state item1 = QueueItem.state item0 \/
   engine_edge (QueueItem.state item0) (QueueItem.state item1) = true).

(** The [i]-th queue item of an engine run. *)
Definition engine_item_at (i : nat) (self : NextAction.t) : option QueueItem.t :=
  NextAction.queue self !! i.

(** The transitions of [_process_item_with_cooldown] for a PR without a
    loop-breaker entry. *)
Definition ordinary_edge (s0 s1 : WorkflowState.t) : bool :=
  match s0, s1 with
  | WorkflowState.PR_OPEN, WorkflowState.REVIEW_REQUESTED
  | WorkflowState.REVIEW_REQUESTED, WorkflowState.REVIEWING
  | WorkflowState.CHANGES_REQUESTED, WorkflowState.APPLYING_CHANGES
  | WorkflowState.APPROVED, WorkflowState.MERGED
  | WorkflowState.QUEUED, WorkflowState.ASSIGNED => true
  | _, _ => false
  end.

(** The states that the final steps of a PR with an entry lead to. *)
Definition finishing_state (s1 : WorkflowState.t) : bool :=
  WorkflowState.among s1
    [WorkflowState.APPROVED; WorkflowState.MERGED; WorkflowState.REVIEWING].

(** [done] is the PR number under which the item has a loop-breaker
    entry, if it has one. *)
Definition step_allowed (done : option Z) (item0 item1 : QueueItem.t) : Prop :=
  same_identity item0 item1 /\
  (QueueItem.state item1 = QueueItem.state item0 \/
   (done = None /\ ordinary_edge (QueueItem.state item0) (QueueItem.state item1) = true) \/
   (is_Some done /\ finishing_state (QueueItem.state item1) = true)).

(** An item that the daemon does not act on: it waits for the agent, is
    finished, or has no PR to act on. *)
Definition waiting (item0 : QueueItem.t) : bool :=
  WorkflowState.among (QueueItem.state item0)
    [WorkflowState.ASSIGNED; WorkflowState.REVIEWING; WorkflowState.APPLYING_CHANGES;
     WorkflowState.MERGED; WorkflowState.COMPLETED] ||
  negb (WorkflowState.eqb (QueueItem.state item0) WorkflowState.QUEUED) &&
  negb (truthy_int (QueueItem.pr_number item0)).

(** ** Requests and their answers *)

(** The answer that the client gives to a request. *)
Definition answered (w : Answers.t) (r : Request) : bool :=
  match r with
  | AssignIssue _ _ _ => Answers.assign_issue_to_copilot w
  | RequestReview _ => Answers.request_review_from_copilot w
  | CommentApplyChanges _ => Answers.comment_apply_changes w
  | MarkReady _ => Answers.mark_pr_ready_for_review w
  | MergePR _ => Answers.merge_pr w
  end.

(** Outcome [r] of a visit started in [self0]: it sent at most one
    request, and reports an action exactly when that request succeeded. *)
Definition visit_outcome (w : Answers.t) (self0 : AutomationDaemon.t)
    (r : AutomationDaemon.t * option string) : Prop :=
  exists l, sent (fst r) = (sent self0 ++ l)%list /\
    (List.length l <= 1)%nat /\
    (is_Some (snd r) <-> exists req, l = [req] /\ answered w req = true).

(** What a visit did about merging: nothing, or one successful merge with
    all that goes with it. *)
Definition merge_outcome (w : Answers.t) (now : Z) (i : nat) (self : AutomationDaemon.t)
    (item0 : QueueItem.t) (r : AutomationDaemon.t * option string) : Prop :=
  ((forall n, MergePR n ∈ issued self (fst r) -> Answers.merge_pr w = false) /\
   cooldown (fst r) = cooldown self /\
   (forall item1, item_at i (fst r) = Some item1 ->
      QueueItem.state item1 = WorkflowState.MERGED ->
      QueueItem.state item0 = WorkflowState.MERGED)) \/
  (exists n,
     issued self (fst r) = [MergePR n] /\ Answers.merge_pr w = true /\
     truthy_number (QueueItem.pr_number item0) = Some n /\
     cooldown (fst r) =
       CooldownManager.record_completion (QueueItem.issue_id item0) now (cooldown self) /\
     (exists item1, item_at i (fst r) = Some item1 /\
                    QueueItem.state item1 = WorkflowState.MERGED) /\
     ReviewTracker.is_review_done (review_tracker (fst r)) n = false /\
     exists a, snd r = Some a /\ contains "cooldown started" a = true).

(** What a visit did to the loop-breaker: nothing, one entry made after
    a successful "apply changes" comment, or one entry cleared after a
    successful merge. *)
Definition tracker_outcome (w : Answers.t) (now : Z) (i : nat) (self : AutomationDaemon.t)
    (item0 : QueueItem.t) (r : AutomationDaemon.t * option string) : Prop :=
  review_tracker (fst r) = review_tracker self \/
  (exists n,
     review_tracker (fst r) =
       ReviewTracker.mark_review_done n (QueueItem.issue_id item0) now (review_tracker self) /\
     truthy_number (QueueItem.pr_number item0) = Some n /\
     QueueItem.state item0 = WorkflowState.CHANGES_REQUESTED /\
     issued self (fst r) = [CommentApplyChanges n] /\
     Answers.comment_apply_changes w = true /\
     exists item1, item_at i (fst r) = Some item1 /\
                   QueueItem.state item1 = WorkflowState.APPLYING_CHANGES) \/
  (exists n,
     review_tracker (fst r) = ReviewTracker.clear_pr n (review_tracker self) /\
     truthy_number (QueueItem.pr_number item0) = Some n /\
     issued self (fst r) = [MergePR n] /\
     Answers.merge_pr w = true).

(** ** Cycle *)

(** The [i]-th iteration of the item loop moves its item to MERGED. *)
Definition merged_in_iteration (answers : nat -> Answers.t) (now : Z)
    (l : Loop) (i : nat) : Prop :=
  exists item item',
    item_at i (daemon (process_items answers now i l)) = Some item /\
    item_at i (daemon (process_items answers now (S i) l)) = Some item' /\
    QueueItem.state item <> WorkflowState.MERGED /\
    QueueItem.state item' = WorkflowState.MERGED.

(** A stretch, and a state change, whose end state is related to its
    start state by [R]. *)
Definition preserved (R : AutomationDaemon.t -> AutomationDaemon.t -> Prop) (S : Stretch)
  : Prop :=
  forall self0, R self0 (fst (S self0)).

Definition kept (R : AutomationDaemon.t -> AutomationDaemon.t -> Prop)
    (f : AutomationDaemon.t -> AutomationDaemon.t) : Prop :=
  forall self0, R self0 (f self0).

(** The engine of [b] is that of [a] up to the state, the PR number and
    the last action of its queue items. *)
Definition same_queue_members (a b : AutomationDaemon.t) : Prop :=
  AutomationEngine.config (engine b) = AutomationEngine.config (engine a) /\
  AutomationEngine.client (engine b) = AutomationEngine.client (engine a) /\
  AutomationEngine._issue_numbers (engine b) = AutomationEngine._issue_numbers (engine a) /\
  queue_ids (engine b) = queue_ids (engine a).

(** ** Further sample data *)

(** The last commit of the PR has a failed check run. *)
Definition failing_ci_pr : PullRequest.t :=
  PullRequest.with_commits
    (Ok [ {| Commit.get_check_runs := Ok [Some "success"] |};
          {| Commit.get_check_runs := Ok [Some "success"; None; Some "failure"] |} ])
    (sample_pr (Ok []) (Ok []) (Ok []) (Ok [])).

(** Copilot has left a review with one comment on the head commit. *)
Definition commented_pr : PullRequest.t :=
  sample_pr
    (Ok [ {| Review.state := "COMMENTED";
             Review.body := Some "Copilot reviewed 3 out of 3 changed files" |} ])
    (Ok [])
    (Ok [ {| ReviewComment.body := Some "Consider a guard here";
             ReviewComment.commit_id := Some "sha0" |};
          {| ReviewComment.body := Some "Unused import";
             ReviewComment.commit_id := Some "sha1" |} ])
    (Ok []).

(** An open PR about something else. *)
Definition unrelated_pr : PullRequest.t :=
  {| PullRequest.number := 7;
     PullRequest.title := "Bump dependencies";
     PullRequest.body := None;
     PullRequest.user_login := "dependabot";
     PullRequest.html_url := "https://github.com/WoDeep/TimeAttack/pull/7";
     PullRequest.mergeable := Some true;
     PullRequest.merged := false;
     PullRequest.state := "open";
     PullRequest.draft := false;
     PullRequest.head_sha := "sha7";
     PullRequest.get_reviews := Ok [];
     PullRequest.get_issue_comments := Ok [];
     PullRequest.get_review_comments := Ok [];
     PullRequest.get_review_requests := Ok [];
     PullRequest.get_commits := Ok [] |}.

Definition sample_run (queue : list QueueItem.t) : NextAction.t :=
  {| NextAction.engine := sample_engine queue; NextAction.sent := [] |}.

(** The PR is fetched and the agent is reported as working on it. *)
Definition agent_at_work : Answers.t :=
  sample_answers (Some (sample_issue 11 IssueState.IN_PROGRESS))
    (Some {| PRInfo.number := 42;
             PRInfo.title := "Add lap timer";
             PRInfo.state := PRState.OPEN;
             PRInfo.author := "copilot";
             PRInfo.reviewers := [];
             PRInfo.review_state := None;
             PRInfo.url := "https://github.com/WoDeep/TimeAttack/pull/42";
             PRInfo.linked_issue := Some "TC-A-01";
             PRInfo.mergeable := true;
             PRInfo.checks_passed := true;
             PRInfo.is_draft := false;
             PRInfo.copilot_has_reviewed := false;
             PRInfo.copilot_is_working := true |}) true.

(** The PR is approved and out of draft; every request succeeds. *)
Definition approved_and_ready (i : nat) : Answers.t :=
  sample_answers (Some (sample_issue (11 + Z.of_nat i) IssueState.IN_PROGRESS))
    (Some (sample_info PRState.APPROVED false [])) true.

(** The review asked for changes; every request succeeds. *)
Definition changes_wanted : Answers.t :=
  sample_answers (Some (sample_issue 11 IssueState.IN_PROGRESS))
    (Some (sample_info PRState.CHANGES_REQUESTED false [])) true.

(** An approved item with its PR, ahead of a queued one. *)
Definition approved_then_queued : AutomationDaemon.t :=
  sample_daemon [sample_item "TC-A-01" WorkflowState.APPROVED (Some 11) (Some 42);
                 sample_item "TC-A-02" WorkflowState.QUEUED (Some 12) None]
    no_reviews_done.

Definition changes_requested_42 : AutomationDaemon.t :=
  sample_daemon [sample_item "TC-A-01" WorkflowState.CHANGES_REQUESTED (Some 11) (Some 42)]
    no_reviews_done.

Definition reviewing_42 : AutomationDaemon.t :=
  sample_daemon [sample_item "TC-A-01" WorkflowState.REVIEWING (Some 11) (Some 42)]
    no_reviews_done.

(** The issue is closed; no PR is found. *)
Definition issue_closed : Answers.t :=
  sample_answers (Some (sample_issue 11 IssueState.CLOSED)) None false.

(** The issue has an assignee; no PR is found. *)
Definition pr_not_found : Answers.t :=
  sample_answers (Some (sample_issue 11 IssueState.IN_PROGRESS)) None false.

(** The PR of the item was closed without a merge. *)
Definition pr_closed : Answers.t :=
  sample_answers (Some (sample_issue 11 IssueState.IN_PROGRESS))
    (Some (sample_info PRState.CLOSED false [])) false.

(** ** Requests of a visit *)

(** The request names the PR of the item or, for an assignment, its
    issue. *)
Definition about_item (item : QueueItem.t) (r : Request) : Prop :=
  match r with
  | AssignIssue n _ _ =>
      truthy_int (QueueItem.issue_number item) = true /\
      QueueItem.issue_number item = Some n
  | RequestReview n | CommentApplyChanges n | MarkReady n | MergePR n =>
      truthy_number (QueueItem.pr_number item) = Some n
  end.

(** What the visit of item [i], which was [item0], sent. *)
Definition visit_requests (i : nat) (item0 : QueueItem.t) (self0 : AutomationDaemon.t)
    (r : AutomationDaemon.t * option string) : Prop :=
  exists reqs item1,
    sent (fst r) = (sent self0 ++ reqs)%list /\
    (List.length reqs <= 1)%nat /\
    Forall (about_item item0) reqs /\
    item_at i (fst r) = Some item1 /\
    QueueItem.issue_number item1 = QueueItem.issue_number item0 /\
    QueueItem.pr_number item1 = QueueItem.pr_number item0.

(** ** Status file *)

(** [a'] is the item [a] of the app after it has taken over what the
    daemon exports of its item [dq]: the state always, the other fields
    when they are truthy. *)
Definition synced_from (dq a a' : QueueItem.t) : Prop :=
  QueueItem.issue_id a' = QueueItem.issue_id a /\
  QueueItem.issue_title a' = QueueItem.issue_title a /\
  QueueItem.state a' = QueueItem.state dq /\
  QueueItem.issue_number a' =
    (if truthy_int (QueueItem.issue_number dq) then QueueItem.issue_number dq
     else QueueItem.issue_number a) /\
  QueueItem.pr_number a' =
    (if truthy_int (QueueItem.pr_number dq) then QueueItem.pr_number dq
     else QueueItem.pr_number a) /\
  QueueItem.last_action a' =
    (if truthy_str (QueueItem.last_action dq) then QueueItem.last_action dq
     else QueueItem.last_action a) /\
  QueueItem.last_action_time a' =
    match QueueItem.last_action_time dq with
    | Some t => Some t
    | None => QueueItem.last_action_time a
    end.

(** The app still shows the item under review with its PR. *)
Definition stale_app : AutomationEngine.t :=
  sample_engine [sample_item "TC-A-01" WorkflowState.REVIEWING (Some 11) (Some 42)].

(** The daemon has put the item back in the queue and dropped its PR. *)
Definition requeued_daemon : AutomationDaemon.t :=
  sample_daemon [sample_item "TC-A-01" WorkflowState.QUEUED (Some 11) None]
    no_reviews_done.

(** ** run_once *)

(** During the round the client keeps answering, for the [i]-th item,
    that its issue is assigned and its PR approved and still a draft; no
    PR search of the round fails. *)
Definition stuck_on_draft (i : nat) (round : NextAction.Round) : Prop :=
  (forall j, is_ok (Answers.get_pr_by_issue (NextAction.refresh_answers round j)) = true) /\
  (exists issue pr,
     finds_issue (NextAction.refresh_answers round i) issue /\
     IssueInfo.state issue = IssueState.IN_PROGRESS /\
     Answers.get_pr_by_number (NextAction.refresh_answers round i) = Some pr /\
     Answers.get_pr_by_issue (NextAction.refresh_answers round i) = Ok (Some pr) /\
     PRInfo.state pr = PRState.APPROVED /\ PRInfo.number pr <> 0) /\
  (exists pr, Answers.get_pr_by_number (NextAction.answers round i) = Some pr /\
              PRInfo.is_draft pr = true).

(** An item that [_get_next_action] will mark ready. *)
Definition approved_with_pr (item : QueueItem.t) : Prop :=
  QueueItem.state item = WorkflowState.APPROVED /\
  truthy_int (QueueItem.pr_number item) = true.

(** The engine of a run that is ready for a round: it has a client, it
    merges by itself, and its queue has an [i]-th item. *)
Definition ready_for_round (i : nat) (self : NextAction.t) : Prop :=
  AutomationEngine.client (NextAction.engine self) = true /\
  auto_merge (AutomationEngine.config (NextAction.engine self)) = true /\
  (i < List.length (NextAction.queue self))%nat.

(** The part of the engine that no visit changes. *)
Definition same_frame (a b : NextAction.t) : Prop :=
  AutomationEngine.client (NextAction.engine b) = AutomationEngine.client (NextAction.engine a) /\
  AutomationEngine.config (NextAction.engine b) = AutomationEngine.config (NextAction.engine a) /\
  List.length (NextAction.queue b) = List.length (NextAction.queue a).

(** The PR is approved and a draft; every request fails. *)
Definition draft_stays_draft : Answers.t :=
  sample_answers (Some (sample_issue 11 IssueState.IN_PROGRESS))
    (Some (sample_info PRState.APPROVED true [])) false.

Definition same_answers_every_round (k : nat) : NextAction.Round :=
  {| NextAction.refresh_answers := fun _ => draft_stays_draft;
     NextAction.answers := fun _ => draft_stays_draft;
     NextAction.now := Z.of_nat k |}.

(* ===================================================================== *)
(** * Properties of the classifier                                        *)
(* ===================================================================== *)

(** The lower case of U+212A KELVIN SIGN is [k], and that of U+0130 begins
    with [i]. *)
Lemma lower_of_kelvin_sign :
  lower ("Copilot finished wor" +:+
         String "226" (String "132" (String "170" " on behalf of @dev")))
  = "copilot finished work on behalf of @dev".
Proof. reflexivity. Qed.

Lemma lower_of_dotted_capital_i :
  contains "copilot finished work"
    (lower ("COP" +:+ String "196" (String "176" "LOT FINISHED WORK"))) = false /\
  contains "apply" (lower ("@copilot APPLY" +:+ String "196" (String "176" ""))) = true.
Proof. split; reflexivity. Qed.

Section Classifier.

(** ** The comment scan *)

Lemma scan_comments_last comments a :
  let r := fold_left scan_comment comments a in
  apply_changes_request_time r =
    match last_time is_apply_request comments with
    | Some t => Some t
    | None => apply_changes_request_time a
    end /\
  has_apply_changes_request r =
    match last_time is_apply_request comments with
    | Some _ => true
    | None => has_apply_changes_request a
    end /\
  copilot_finished_work_time r =
    match last_time is_finished_signal comments with
    | Some t => Some t
    | None => copilot_finished_work_time a
    end.
Proof.
  revert a. induction comments as [|c rest IH]; intros a; simpl; [auto|].
  destruct (IH (scan_comment a c)) as (H1 & H2 & H3).
  rewrite H1, H2, H3. unfold scan_comment.
  destruct (last_time is_apply_request rest), (last_time is_finished_signal rest),
    (is_apply_request c), (is_finished_signal c); simpl; auto.
Qed.

Lemma last_time_None p comments :
  last_time p comments = None -> forall c, c ∈ comments -> p c = false.
Proof.
  induction comments as [|x rest IH]; simpl; intros H c Hc.
  - inversion Hc.
  - destruct (last_time p rest) eqn:E; [discriminate|].
    destruct (p x) eqn:Ex; [discriminate|].
    apply elem_of_cons in Hc as [->|Hc]; auto.
Qed.

Lemma last_time_Some p comments t :
  chronological comments ->
  last_time p comments = Some t ->
  (exists c, c ∈ comments /\ p c = true /\ comment_time c = t) /\
  (forall c, c ∈ comments -> p c = true -> comment_time c <= t).
Proof.
  intros Hs.
  apply Sorted_StronglySorted in Hs; [|intros x y z; unfold earlier_or_same; lia].
  revert t. induction comments as [|x rest IH]; simpl; intros t; [discriminate|].
  apply StronglySorted_cons in Hs as [Hall Hs].
  destruct (last_time p rest) as [t'|] eqn:E.
  - intros [= ->]. destruct (IH Hs t eq_refl) as [(c & Hc & Hp & Ht) Hmax].
    split.
    + exists c. rewrite elem_of_cons. auto.
    + intros c' Hc' Hp'. apply elem_of_cons in Hc' as [->|Hc']; [|auto].
      rewrite Forall_forall in Hall. specialize (Hall c Hc).
      unfold earlier_or_same in Hall. lia.
  - destruct (p x) eqn:Ex; [|discriminate]. intros [= <-]. split.
    + exists x. rewrite elem_of_cons. auto.
    + intros c' Hc' Hp'. apply elem_of_cons in Hc' as [->|Hc']; [lia|].
      rewrite (last_time_None p rest E c' Hc') in Hp'. discriminate.
Qed.

(** ** What each block leaves untouched *)

Lemma scan_review_comments_working sha cs l :
  copilot_is_working (fst (scan_review_comments sha cs l)) = copilot_is_working l.
Proof.
  induction cs as [|c cs IH]; simpl; [reflexivity|].
  destruct (_ && _); [exact IH|].
  unfold bind, assign, lift. simpl. destruct (ReviewComment.body c); reflexivity.
Qed.

Lemma pending_check_working pr sha l :
  copilot_is_working (try_except (pending_check pr sha) l) = copilot_is_working l.
Proof.
  unfold try_except, pending_check, bind, lift.
  destruct (PullRequest.get_review_comments pr); simpl; [|reflexivity].
  apply scan_review_comments_working.
Qed.

Lemma to_pr_info_working timeline now pr info :
  _to_pr_info timeline now pr = Ok info ->
  PRInfo.copilot_is_working info =
  copilot_is_working
    (try_except (detection2 pr) (try_except (detection1 timeline now) initial_locals)).
Proof.
  unfold _to_pr_info.
  destruct (PullRequest.get_reviews pr) as [reviews|]; simpl; [|discriminate].
  destruct (PullRequest.get_review_requests pr) as [rq|]; simpl; [|discriminate].
  intros [= <-]. simpl.
  set (l2 := try_except (detection2 pr) _).
  destruct (existsb has_review_signature reviews); simpl.
  - rewrite pending_check_working. reflexivity.
  - destruct (copilot_has_reviewed l2); [apply pending_check_working | reflexivity].
Qed.

Lemma detection2_decides pr comments t l :
  PullRequest.get_issue_comments pr = Ok comments ->
  last_time is_apply_request comments = Some t ->
  copilot_is_working (try_except (detection2 pr) l) =
  negb (finished_after (last_time is_finished_signal comments) t).
Proof.
  intros Hc Ht. unfold try_except, detection2, bind, lift. rewrite Hc. simpl.
  destruct (scan_comments_last comments no_apply) as (H1 & H2 & H3).
  rewrite H1, H2, H3, Ht. simpl.
  destruct (last_time is_finished_signal comments) as [f|]; simpl.
  - destruct (t <? f); reflexivity.
  - reflexivity.
Qed.

Lemma detection2_same_but_working pr l :
  same_but_working (try_except (detection2 pr) l) l.
Proof.
  unfold try_except, detection2, bind, lift, pass, ret, assign, same_but_working.
  destruct (PullRequest.get_issue_comments pr) as [cs|]; simpl; [|auto].
  destruct (has_apply_changes_request _); simpl; [|auto].
  destruct (apply_changes_request_time _); simpl; [|auto].
  destruct (finished_after _ _); simpl; auto.
Qed.

Lemma scan_review_comments_same sha cs l1 l2 :
  same_but_working l1 l2 ->
  same_but_working (fst (scan_review_comments sha cs l1))
                   (fst (scan_review_comments sha cs l2)).
Proof.
  intros H. induction cs as [|c cs IH]; simpl; [exact H|].
  destruct (_ && _); [exact IH|].
  unfold bind, assign, lift. simpl.
  destruct (ReviewComment.body c); simpl; unfold same_but_working in *; simpl; tauto.
Qed.

Lemma pending_check_same pr1 pr2 sha l1 l2 :
  PullRequest.get_review_comments pr1 = PullRequest.get_review_comments pr2 ->
  same_but_working l1 l2 ->
  same_but_working (try_except (pending_check pr1 sha) l1)
                   (try_except (pending_check pr2 sha) l2).
Proof.
  intros E H. unfold try_except, pending_check, bind, lift. rewrite E.
  destruct (PullRequest.get_review_comments pr2); simpl; [|exact H].
  apply scan_review_comments_same, H.
Qed.

Lemma resolve_state_same pr1 pr2 verdict l1 l2 requested :
  PullRequest.merged pr1 = PullRequest.merged pr2 ->
  PullRequest.state pr1 = PullRequest.state pr2 ->
  PullRequest.draft pr1 = PullRequest.draft pr2 ->
  same_but_working l1 l2 ->
  resolve_state pr1 verdict l1 requested = resolve_state pr2 verdict l2 requested.
Proof.
  intros E1 E2 E3 (H1 & H2 & H3). unfold resolve_state.
  rewrite E1, E2, E3, H1, H2, H3. reflexivity.
Qed.

(** ** The timeline markers are strings *)

Lemma scan_events_json events m :
  json_marker (latest_work_finished m) ->
  json_marker (latest_work_finished (fold_left scan_event events m)).
Proof.
  revert m. induction events as [|ev events IH]; intros m Hm; simpl; [exact Hm|].
  apply IH. unfold scan_event.
  destruct (_ && _); [exact Hm|].
  destruct (_ && _); [simpl; destruct (TimelineEvent.created_at ev); exact I|].
  destruct (_ && _); exact Hm.
Qed.

Lemma detection1_never_just_finished timeline now l :
  copilot_work_just_finished (try_except (detection1 timeline now) l) =
  copilot_work_just_finished l.
Proof.
  unfold try_except, detection1, bind, lift, pass, ret, assign.
  destruct timeline as [response|]; simpl; [|reflexivity].
  destruct (TimelineResponse.status_code response =? 200); simpl; [|reflexivity].
  destruct (TimelineResponse.json response) as [events|]; simpl; [|reflexivity].
  pose proof (scan_events_json events no_markers I) as Hj.
  set (m := fold_left scan_event events no_markers) in *.
  destruct (py_truthy (latest_work_started m)); simpl; [|reflexivity].
  destruct (negb (py_truthy (latest_work_finished m))); simpl; [reflexivity|].
  destruct (py_gt (latest_work_started m) (latest_work_finished m)) as [[|]|]; simpl;
    try reflexivity.
  destruct (py_truthy (latest_review_requested m)); simpl; [|reflexivity].
  destruct (py_gt (latest_work_finished m) (latest_review_requested m)) as [[|]|]; simpl;
    try reflexivity.
  destruct (latest_work_finished m); simpl in Hj; try contradiction; reflexivity.
Qed.

End Classifier.

(** Membership and order facts about explicit comment threads. *)
Ltac thread_member :=
  repeat first [ apply list_elem_of_here | apply list_elem_of_further ].

Ltac thread_cases H :=
  repeat (apply elem_of_cons in H as [->|H]); [..|inversion H].

(** C1 (as amended). For every comment list in the order of its timestamps
    that holds an "@copilot apply" request, the classifier reports the agent
    as working exactly when no "Copilot finished work on behalf of" comment
    is strictly later than the most recent apply request; for the thread
    [apply at T0, finished at T0+1m, apply at T0+5m, started at T0+6m] it
    reports [copilot_is_working = true]. *)
Theorem stale_finished_announcements_ignored
    (timeline : result TimelineResponse.t) (now : datetime) (pr : PullRequest.t)
    (comments : list IssueComment.t) (t : Z) (info : PRInfo.t) :
  PullRequest.get_issue_comments pr = Ok comments ->
  chronological comments ->
  most_recent_apply comments t ->
  _to_pr_info timeline now pr = Ok info ->
  (PRInfo.copilot_is_working info = true <-> ~ finished_later_than comments t) /\
  (forall T0, comments = second_apply_round T0 -> PRInfo.copilot_is_working info = true).
Proof.
  intros Hc Hs [(a & Ha & Hap & Hat) Hmax] Hinfo.
  rewrite (to_pr_info_working _ _ _ _ Hinfo).
  destruct (last_time is_apply_request comments) as [t'|] eqn:Hlast.
  2:{ rewrite (last_time_None _ _ Hlast a Ha) in Hap. discriminate. }
  destruct (last_time_Some _ _ _ Hs Hlast) as [(c & Hcin & Hcp & Hct) Hmax'].
  assert (t' = t) as ->.
  { specialize (Hmax c Hcin Hcp). specialize (Hmax' a Ha Hap). lia. }
  rewrite (detection2_decides pr comments t _ Hc Hlast).
  assert (Hiff : finished_after (last_time is_finished_signal comments) t = true <->
                 finished_later_than comments t).
  { destruct (last_time is_finished_signal comments) as [f|] eqn:Hf; simpl.
    - destruct (last_time_Some _ _ _ Hs Hf) as [(d & Hd & Hdp & Hdt) Hfmax].
      rewrite Z.ltb_lt. split.
      + intros Hlt. exists d. rewrite Hdt. auto.
      + intros (d' & Hd' & Hdp' & Hlt). specialize (Hfmax d' Hd' Hdp'). lia.
    - split; [discriminate|]. intros (d' & Hd' & Hdp' & _).
      rewrite (last_time_None _ _ Hf d' Hd') in Hdp'. discriminate. }
  split.
  - rewrite negb_true_iff, <- Hiff.
    destruct (finished_after _ _); split; congruence.
  - intros T0 ->. unfold second_apply_round in *.
    assert (Happly : forall x, is_apply_request (comment "@copilot apply changes" x) = true)
      by reflexivity.
    assert (Hstart : forall x,
      is_apply_request (comment "Copilot started work on behalf of user" x) = false)
      by reflexivity.
    assert (Hfin1 : forall x,
      is_finished_signal (comment "Copilot finished work on behalf of user" x) = true)
      by reflexivity.
    assert (Hfin2 : forall x, is_finished_signal (comment "@copilot apply changes" x) = false)
      by reflexivity.
    assert (Hfin3 : forall x,
      is_finished_signal (comment "Copilot started work on behalf of user" x) = false)
      by reflexivity.
    cbn [last_time] in Hlast. rewrite Hstart, Happly in Hlast. injection Hlast as <-.
    cbn [last_time]. rewrite Hfin3, Hfin2, Hfin1.
    unfold finished_after, comment_time, comment, US_PER_MINUTE, MICRO. cbn.
    apply negb_true_iff, Z.ltb_ge. lia.
Qed.

Lemma second_apply_round_chronological : chronological (second_apply_round new_year).
Proof.
  unfold chronological, second_apply_round.
  repeat first [ apply Sorted_nil | apply Sorted_cons | apply HdRel_nil | apply HdRel_cons ];
    unfold earlier_or_same; vm_compute; discriminate.
Defined.

Lemma second_apply_round_latest :
  most_recent_apply (second_apply_round new_year) (new_year + 5 * US_PER_MINUTE).
Proof.
  split.
  - exists (comment "@copilot apply changes" (new_year + 5 * US_PER_MINUTE)).
    split; [unfold second_apply_round; thread_member | split; reflexivity].
  - intros c Hc Hp. unfold second_apply_round in Hc. thread_cases Hc;
      first [ discriminate Hp | vm_compute; discriminate ].
Defined.

Lemma stale_finished_announcements_ignored_witness :
  exists info,
    _to_pr_info (timeline_of []) (utc noon)
      (sample_pr (Ok []) (Ok (second_apply_round new_year)) (Ok []) (Ok ["reviewer"]))
      = Ok info /\
    PRInfo.copilot_is_working info = true.
Proof.
  eexists. split; [reflexivity|].
  eapply (proj2 (stale_finished_announcements_ignored
                   (timeline_of []) (utc noon)
                   (sample_pr (Ok []) (Ok (second_apply_round new_year)) (Ok [])
                      (Ok ["reviewer"]))
                   (second_apply_round new_year) (new_year + 5 * US_PER_MINUTE) _
                   eq_refl second_apply_round_chronological second_apply_round_latest
                   eq_refl)).
  reflexivity.
Defined.

(** C1, as first stated, fails on a thread that is not in the order of its
    timestamps: a "finished" comment later than the most recent apply request
    exists, and the agent is still reported as working. *)
Lemma stale_rule_fails_out_of_order :
  exists info,
    _to_pr_info (timeline_of []) (utc noon)
      (sample_pr (Ok []) (Ok shuffled_thread) (Ok []) (Ok [])) = Ok info /\
    most_recent_apply shuffled_thread (new_year + 5 * US_PER_MINUTE) /\
    finished_later_than shuffled_thread (new_year + 5 * US_PER_MINUTE) /\
    PRInfo.copilot_is_working info = true.
Proof.
  eexists. split; [reflexivity|]. split; [|split].
  - split.
    + exists (comment "@copilot apply changes" (new_year + 5 * US_PER_MINUTE)).
      split; [unfold shuffled_thread; thread_member | split; reflexivity].
    + intros c Hc Hp. unfold shuffled_thread in Hc. thread_cases Hc;
        first [ discriminate Hp | vm_compute; discriminate ].
  - exists (comment "Copilot finished work on behalf of user" (new_year + 10 * US_PER_MINUTE)).
    split; [unfold shuffled_thread; thread_member | split; reflexivity].
  - reflexivity.
Qed.

(** C5. The grace period is never taken: the timeline block sets
    [copilot_has_reviewed] and then subtracts the marker, a string, from a
    [datetime]; the [TypeError] ends the block before
    [copilot_work_just_finished] is assigned.  A review that finished one
    minute ago, with nothing pending, is classified APPROVED and not
    REVIEW_REQUESTED. *)
Theorem grace_period_is_never_active :
  (forall timeline now l,
     copilot_work_just_finished (try_except (detection1 timeline now) l) =
     copilot_work_just_finished l) /\
  classified_state
    (_to_pr_info review_just_finished one_minute_after_finish
       (sample_pr (Ok []) (Ok []) (Ok []) (Ok []))) = Some PRState.APPROVED.
Proof.
  split; [exact detection1_never_just_finished | vm_compute; reflexivity].
Qed.

(** C7 (as amended). The state is resolved without regard to the working
    flag: whatever the issue comments are, and so whether or not the latest
    apply request is still unanswered, the classifier reports the same
    PRState. *)
Theorem working_flag_does_not_gate_state (timeline : result TimelineResponse.t)
    (now : datetime) (pr : PullRequest.t)
    (comments comments' : result (list IssueComment.t)) :
  classified_state (_to_pr_info timeline now (PullRequest.with_issue_comments comments pr)) =
  classified_state (_to_pr_info timeline now (PullRequest.with_issue_comments comments' pr)).
Proof.
  unfold _to_pr_info. simpl.
  destruct (PullRequest.get_reviews pr) as [reviews|]; simpl; [|reflexivity].
  destruct (PullRequest.get_review_requests pr) as [requested|]; simpl; [|reflexivity].
  f_equal. apply resolve_state_same; try reflexivity.
  set (l0 := try_except (detection1 timeline now) initial_locals).
  assert (H : same_but_working
                (try_except (detection2 (PullRequest.with_issue_comments comments pr)) l0)
                (try_except (detection2 (PullRequest.with_issue_comments comments' pr)) l0)).
  { pose proof (detection2_same_but_working
                  (PullRequest.with_issue_comments comments pr) l0) as A.
    pose proof (detection2_same_but_working
                  (PullRequest.with_issue_comments comments' pr) l0) as B.
    unfold same_but_working in *. intuition congruence. }
  revert H.
  generalize (try_except (detection2 (PullRequest.with_issue_comments comments pr)) l0).
  generalize (try_except (detection2 (PullRequest.with_issue_comments comments' pr)) l0).
  intros lb la H.
  destruct (existsb has_review_signature reviews).
  - simpl. apply pending_check_same; [reflexivity|].
    unfold same_but_working in *. simpl. tauto.
  - pose proof H as (H1 & H2 & H3). rewrite H2.
    destruct (copilot_has_reviewed lb).
    + apply pending_check_same; [reflexivity | exact H].
    + exact H.
Qed.

(** C7, as first stated, fails: with an unanswered apply request and a
    formal APPROVED verdict the classifier reports the agent as working and
    the PR as APPROVED. *)
Lemma working_yet_approved :
  exists info,
    _to_pr_info (timeline_of []) (utc noon)
      (sample_pr (Ok [approving_review])
                 (Ok [comment "@copilot apply changes" new_year])
                 (Ok []) (Ok [])) = Ok info /\
    PRInfo.copilot_is_working info = true /\
    PRInfo.state info = PRState.APPROVED.
Proof. eexists. split; [reflexivity | split; reflexivity]. Qed.

(** C8 (as amended). When the review listing and the review-request
    listing succeed, [_to_pr_info] returns a [PRInfo] whatever the timeline
    request, the issue-comment listing, the review-comment listing and the
    commit listing do; each of these, when it raises, contributes what an
    empty answer contributes. *)
Theorem guarded_sources_degrade (timeline : result TimelineResponse.t) (now : datetime)
    (pr : PullRequest.t) (reviews : list Review.t) (requested : list string) (e : exn) :
  PullRequest.get_reviews pr = Ok reviews ->
  PullRequest.get_review_requests pr = Ok requested ->
  (exists info, _to_pr_info timeline now pr = Ok info) /\
  _to_pr_info (Raise e) now pr = _to_pr_info (timeline_of []) now pr /\
  _to_pr_info timeline now (PullRequest.with_issue_comments (Raise e) pr) =
    _to_pr_info timeline now (PullRequest.with_issue_comments (Ok []) pr) /\
  _to_pr_info timeline now (PullRequest.with_review_comments (Raise e) pr) =
    _to_pr_info timeline now (PullRequest.with_review_comments (Ok []) pr) /\
  _to_pr_info timeline now (PullRequest.with_commits (Raise e) pr) =
    _to_pr_info timeline now (PullRequest.with_commits (Ok []) pr).
Proof.
  intros Hr Hq. split; [|split; [|split; [|split]]].
  - unfold _to_pr_info. rewrite Hr. simpl. rewrite Hq. simpl. eauto.
  - reflexivity.
  - reflexivity.
  - unfold _to_pr_info. simpl. rewrite Hr. simpl.
    destruct (copilot_has_reviewed _); reflexivity.
  - reflexivity.
Qed.

Lemma guarded_sources_degrade_witness :
  exists info,
    _to_pr_info (Raise ServiceError) (utc noon)
      (sample_pr (Ok []) (Raise ServiceError) (Raise ServiceError) (Ok [])) = Ok info.
Proof.
  exact (proj1 (guarded_sources_degrade (Raise ServiceError) (utc noon)
                  (sample_pr (Ok []) (Raise ServiceError) (Raise ServiceError) (Ok []))
                  [] [] ServiceError eq_refl eq_refl)).
Defined.

(** C8, as first stated, fails: an error of the review listing, and
    likewise of the review-request listing, leaves [_to_pr_info] without a
    value. *)
Lemma unguarded_listings_propagate :
  _to_pr_info (timeline_of []) (utc noon)
    (sample_pr (Raise ServiceError) (Ok []) (Ok []) (Ok [])) = Raise ServiceError /\
  _to_pr_info (timeline_of []) (utc noon)
    (sample_pr (Ok []) (Ok []) (Ok []) (Raise ServiceError)) = Raise ServiceError.
Proof. split; reflexivity. Qed.

(* ===================================================================== *)
(** * Properties of the cooldown                                          *)
(* ===================================================================== *)

Lemma can_assign_written m issue_id t now now' :
  CooldownManager.can_assign (manager m (Some (CooldownFile.written issue_id t))) now now' =
  if expiry_representable m t then
    if cooldown_expiry m t <=? now then (true, None)
    else (false, Some (Z.quot (cooldown_expiry m t - now') US_PER_MINUTE))
  else (true, None).
Proof.
  unfold CooldownManager.can_assign, expiry_representable, cooldown_expiry. simpl.
  destruct (timedelta_minutes m) as [delta|e] eqn:Hd; simpl; [|reflexivity].
  assert (delta = m * US_PER_MINUTE) as ->.
  { unfold timedelta_minutes in Hd. destruct (_ && _); congruence. }
  unfold datetime_add. simpl.
  destruct ((0 <=? t + m * US_PER_MINUTE) && (t + m * US_PER_MINUTE <? DATETIME_END)); simpl;
    [|reflexivity].
  destruct (t + m * US_PER_MINUTE <=? now); reflexivity.
Qed.

Lemma can_assign_monotone self now now' later later' :
  now <= later ->
  fst (CooldownManager.can_assign self now now') = true ->
  fst (CooldownManager.can_assign self later later') = true.
Proof.
  intros Hle. unfold CooldownManager.can_assign.
  destruct (CooldownManager.last_completion_file self) as [file|]; [|reflexivity].
  destruct (CooldownFile.load file) as [data|]; simpl; [|reflexivity].
  destruct (CooldownFile.timestamp data) as [text|]; simpl; [|reflexivity].
  destruct (CooldownFile.fromisoformat text) as [last_time|]; simpl; [|reflexivity].
  destruct (timedelta_minutes _) as [delta|]; simpl; [|reflexivity].
  destruct (datetime_add last_time delta) as [cooldown_end|]; simpl; [|reflexivity].
  unfold datetime_ge, datetime_sub. simpl.
  destruct (tzinfo cooldown_end); simpl; [reflexivity|].
  destruct (wall cooldown_end <=? now) eqn:E1; simpl; [|discriminate].
  intros _. apply Z.leb_le in E1.
  assert (E2 : (wall cooldown_end <=? later) = true) by (apply Z.leb_le; lia).
  rewrite E2. reflexivity.
Qed.

(** C4 (as amended). Without a record [can_assign] is true; with the record
    of a completion at [t] it is true exactly when [now] has reached
    [t + cooldown], or when that expiry is no representable [datetime] (the
    overflow is swallowed like any other error); for a positive cooldown
    with a representable expiry it is false right after the completion; and
    for a fixed record it never goes from true back to false as the clock
    advances. *)
Theorem can_assign_cooldown_rule (m : Z) (old : option CooldownFile.t)
    (issue_id : string) (t now now' later later' : Z) :
  now <= later ->
  let self := CooldownManager.record_completion issue_id t (manager m old) in
  fst (CooldownManager.can_assign (manager m None) now now') = true /\
  (fst (CooldownManager.can_assign self now now') = true <->
     expiry_representable m t = false \/ cooldown_expiry m t <= now) /\
  (0 < m -> expiry_representable m t = true ->
     fst (CooldownManager.can_assign self t t) = false) /\
  (forall any : CooldownManager.t,
     fst (CooldownManager.can_assign any now now') = true ->
     fst (CooldownManager.can_assign any later later') = true).
Proof.
  intros Hle self. subst self. unfold CooldownManager.record_completion. simpl.
  fold (manager m (Some (CooldownFile.written issue_id t))).
  split; [reflexivity|]. split; [|split].
  - rewrite can_assign_written.
    destruct (expiry_representable m t); [|simpl; tauto].
    destruct (cooldown_expiry m t <=? now) eqn:E; simpl.
    + apply Z.leb_le in E. tauto.
    + apply Z.leb_gt in E. split; [discriminate|]. intros [H|H]; [discriminate|lia].
  - intros Hm Hrep. rewrite can_assign_written, Hrep.
    assert (E : (cooldown_expiry m t <=? t) = false).
    { apply Z.leb_gt. unfold cooldown_expiry, US_PER_MINUTE, MICRO. lia. }
    rewrite E. reflexivity.
  - intros any. apply can_assign_monotone. exact Hle.
Qed.

Lemma can_assign_cooldown_rule_witness :
  noon <= noon + 30 * US_PER_MINUTE /\
  fst (CooldownManager.can_assign
         (CooldownManager.record_completion "TC-A-01" noon (manager 60 None)) noon noon)
    = false.
Proof.
  split; [vm_compute; discriminate|].
  apply (proj1 (proj2 (proj2 (can_assign_cooldown_rule 60 None "TC-A-01" noon noon noon
                                (noon + 30 * US_PER_MINUTE) (noon + 30 * US_PER_MINUTE)
                                ltac:(vm_compute; discriminate)))));
    [reflexivity | vm_compute; reflexivity].
Defined.

(** C4, as first stated, fails for a positive cooldown whose expiry lies
    beyond year 9999: right after the completion [can_assign] is true. *)
Lemma endless_cooldown_is_no_cooldown :
  0 < 10000000000 /\
  CooldownManager.can_assign
    (CooldownManager.record_completion "TC-A-01" noon (manager 10000000000 None))
    noon noon = (true, None).
Proof. split; [reflexivity | vm_compute; reflexivity]. Qed.

(** C10. A cooldown record that exists but does not decode, holds no
    ['timestamp'], or holds one that does not parse, makes [can_assign]
    return [(True, None)]. *)
Theorem corrupt_record_permits_assignment (self : CooldownManager.t)
    (file : CooldownFile.t) (now now' : Z) :
  CooldownManager.last_completion_file self = Some file ->
  corrupt file ->
  CooldownManager.can_assign self now now' = (true, None).
Proof.
  intros Hfile Hc. unfold CooldownManager.can_assign. rewrite Hfile.
  destruct Hc as [file e H|file data e H1 H2|file data text e H1 H2 H3].
  - rewrite H. reflexivity.
  - rewrite H1. simpl. rewrite H2. reflexivity.
  - rewrite H1. simpl. rewrite H2. simpl. rewrite H3. reflexivity.
Qed.

Lemma corrupt_record_permits_assignment_witness :
  corrupt undecodable /\
  CooldownManager.can_assign (manager 60 (Some undecodable)) noon noon = (true, None).
Proof.
  assert (H : corrupt undecodable) by (apply corrupt_unreadable with ValueError; reflexivity).
  split; [exact H|].
  exact (corrupt_record_permits_assignment (manager 60 (Some undecodable)) undecodable
           noon noon eq_refl H).
Defined.

(* ===================================================================== *)
(** * Properties of the queue                                             *)
(* ===================================================================== *)

Lemma existsb_has_id issue_id (q : list QueueItem.t) :
  existsb (AutomationEngine.has_id issue_id) q = true <->
  issue_id ∈ (QueueItem.issue_id <$> q).
Proof.
  induction q as [|x q IH]; simpl.
  - split; [discriminate | intros H; inversion H].
  - rewrite orb_true_iff, IH, elem_of_cons. unfold AutomationEngine.has_id.
    rewrite String.eqb_eq. intuition congruence.
Qed.

Lemma insert_head_Permutation {A} (l : list A) j a b :
  l !! j = Some b -> b :: <[j := a]> l ≡ₚ a :: l.
Proof.
  revert j. induction l as [|x l IH]; intros [|j]; simpl; try discriminate.
  - intros [= ->]. apply Permutation_swap.
  - intros H. etrans; [apply perm_swap|].
    etrans; [apply perm_skip, IH, H|]. apply perm_swap.
Qed.

Lemma swap_Permutation (q : list QueueItem.t) i j : AutomationEngine.swap i j q ≡ₚ q.
Proof.
  unfold AutomationEngine.swap.
  destruct (q !! i) as [a|] eqn:Hi; [|reflexivity].
  destruct (q !! j) as [b|] eqn:Hj; [|reflexivity].
  revert i j Hi Hj. induction q as [|x q IH]; intros [|i] [|j]; simpl; try discriminate.
  - intros [= ->] [= ->]. reflexivity.
  - intros [= ->] Hj. apply insert_head_Permutation. exact Hj.
  - intros Hi [= ->]. symmetry. rewrite <- (insert_head_Permutation q i b a Hi) at 1.
    reflexivity.
  - intros Hi Hj. f_equiv. apply IH; assumption.
Qed.

Lemma add_item_queue issue_id position self :
  issue_id ∉ queue_ids self ->
  exists before after item,
    AutomationEngine.queue self = (before ++ after)%list /\
    AutomationEngine.add_item issue_id position self =
      (true, AutomationEngine._sync_queue_to_config
               (AutomationEngine.set_queue (before ++ item :: after)%list self)) /\
    QueueItem.issue_id item = issue_id /\
    QueueItem.state item = WorkflowState.QUEUED.
Proof.
  intros Hfresh. unfold AutomationEngine.add_item.
  destruct (existsb _ _) eqn:E.
  { apply existsb_has_id in E. contradiction. }
  set (item := match AutomationEngine._issue_numbers self !! issue_id with
               | Some n => _
               | None => _
               end).
  assert (Hitem : QueueItem.issue_id item = issue_id /\
                  QueueItem.state item = WorkflowState.QUEUED).
  { subst item. destruct (_ !! _); auto. }
  destruct ((position <? 0) || _) eqn:Hpos.
  - exists (AutomationEngine.queue self), [], item.
    rewrite app_nil_r. auto.
  - exists (take (Z.to_nat position) (AutomationEngine.queue self)),
           (drop (Z.to_nat position) (AutomationEngine.queue self)), item.
    rewrite take_drop. auto.
Qed.

Lemma apply_edit_NoDup self e :
  NoDup (queue_ids self) -> NoDup (queue_ids (apply_edit self e)).
Proof.
  intros Hnd. destruct e as [issue_id position|issue_id|issue_id|issue_id];
    unfold apply_edit, queue_ids.
  - destruct (decide (issue_id ∈ queue_ids self)) as [Hin|Hout].
    + apply existsb_has_id in Hin. unfold AutomationEngine.add_item.
      rewrite Hin. exact Hnd.
    + destruct (add_item_queue issue_id position self Hout)
        as (before & after & item & Hq & -> & Hid & _).
      simpl. unfold queue_ids in *. rewrite Hq in Hnd, Hout.
      rewrite fmap_app in *. rewrite fmap_cons.
      rewrite <- Permutation_middle. rewrite Hid.
      apply NoDup_cons. split; assumption.
  - unfold AutomationEngine.remove_item.
    destruct (AutomationEngine.find_index _ _ _); simpl; [|exact Hnd].
    rewrite list_fmap_delete. eapply sublist_NoDup; [exact Hnd | apply sublist_delete].
  - unfold AutomationEngine.move_item_up.
    destruct (AutomationEngine.find_index _ _ _); simpl; [|exact Hnd].
    rewrite swap_Permutation. exact Hnd.
  - unfold AutomationEngine.move_item_down.
    destruct (AutomationEngine.find_index _ _ _); simpl; [|exact Hnd].
    rewrite swap_Permutation. exact Hnd.
Qed.

(** C9. On a queue with pairwise distinct issue ids, [add_item] returns
    false and changes nothing when the id is present, and otherwise inserts
    exactly one item, carrying that id; no sequence of [add_item],
    [remove_item], [move_item_up] and [move_item_down] yields two items with
    the same id. *)
Theorem queue_ids_stay_distinct (self : AutomationEngine.t) :
  NoDup (queue_ids self) ->
  (forall issue_id position,
     issue_id ∈ queue_ids self ->
     AutomationEngine.add_item issue_id position self = (false, self)) /\
  (forall issue_id position,
     issue_id ∉ queue_ids self ->
     exists before after item,
       AutomationEngine.queue self = (before ++ after)%list /\
       fst (AutomationEngine.add_item issue_id position self) = true /\
       AutomationEngine.queue (snd (AutomationEngine.add_item issue_id position self))
         = (before ++ item :: after)%list /\
       QueueItem.issue_id item = issue_id) /\
  (forall edits, NoDup (queue_ids (fold_left apply_edit edits self))).
Proof.
  intros Hnd. split; [|split].
  - intros issue_id position Hin. apply existsb_has_id in Hin.
    unfold AutomationEngine.add_item. rewrite Hin. reflexivity.
  - intros issue_id position Hout.
    destruct (add_item_queue issue_id position self Hout)
      as (before & after & item & Hq & Hadd & Hid & _).
    exists before, after, item. rewrite Hadd. simpl. auto.
  - intros edits. revert self Hnd.
    induction edits as [|e edits IH]; intros self Hnd; simpl; [exact Hnd|].
    apply IH, apply_edit_NoDup, Hnd.
Qed.

Lemma two_queued_ids_distinct : NoDup (queue_ids (engine two_queued)).
Proof.
  change (NoDup ["TC-A-01"; "TC-A-02"]).
  apply NoDup_cons. split.
  - intros H. apply elem_of_cons in H as [H|H]; [discriminate | inversion H].
  - apply NoDup_cons. split; [intros H; inversion H | apply NoDup_nil; exact I].
Defined.

Lemma queue_ids_stay_distinct_witness :
  NoDup (queue_ids (engine two_queued)) /\
  NoDup (queue_ids
           (fold_left apply_edit
              [AddItem "TC-A-01" (-1); AddItem "TC-A-03" 0;
               MoveItemDown "TC-A-03"; RemoveItem "TC-A-02"; MoveItemUp "TC-A-01"]
              (engine two_queued))).
Proof.
  split; [exact two_queued_ids_distinct|].
  apply (proj2 (proj2 (queue_ids_stay_distinct (engine two_queued) two_queued_ids_distinct))).
Defined.

(* ===================================================================== *)
(** * Properties of the status refresh                                    *)
(* ===================================================================== *)

(** The guarded branches of the refresh: a "review requested" or a plain
    open classification leaves an item in REVIEWING or APPLYING_CHANGES
    where it is. *)
Lemma lower_signals_keep_review_states (pr : PRInfo.t) (item : QueueItem.t) :
  (QueueItem.state item = WorkflowState.REVIEWING \/
   QueueItem.state item = WorkflowState.APPLYING_CHANGES) ->
  (PRInfo.state pr = PRState.REVIEW_REQUESTED \/ PRInfo.state pr = PRState.OPEN) ->
  AutomationEngine.apply_pr_status pr item = item.
Proof.
  intros Hs Hp. unfold AutomationEngine.apply_pr_status.
  destruct Hp as [-> | ->]; simpl.
  - destruct Hs as [-> | ->]; reflexivity.
  - destruct (truthy_list (PRInfo.reviewers pr)); destruct Hs as [-> | ->]; reflexivity.
Qed.

(** C6. The DRAFT branch of the refresh carries no guard: an item in
    REVIEWING, and one in APPLYING_CHANGES, whose PR is classified DRAFT is
    moved back to PR_OPEN. *)
Theorem draft_signal_regresses_review_states :
  QueueItem.state
    (fst (AutomationEngine._update_item_status (sample_engine []) classified_draft
            (sample_item "TC-A-01" WorkflowState.REVIEWING (Some 11) (Some 42))))
    = WorkflowState.PR_OPEN /\
  QueueItem.state
    (fst (AutomationEngine._update_item_status (sample_engine []) classified_draft
            (sample_item "TC-A-01" WorkflowState.APPLYING_CHANGES (Some 11) (Some 42))))
    = WorkflowState.PR_OPEN.
Proof. split; vm_compute; reflexivity. Qed.

(* ===================================================================== *)
(** * Properties of the daemon                                            *)
(* ===================================================================== *)

(** ** The item under visit and the requests sent *)

Lemma item_at_update_item i f self :
  item_at i (update_item i f self) = f <$> item_at i self.
Proof.
  unfold item_at, update_item. destruct (queue self !! i) as [item|] eqn:E; simpl.
  - unfold queue in *. simpl. rewrite list_lookup_insert_eq; [reflexivity|].
    eapply lookup_lt_Some, E.
  - unfold queue in *. rewrite E. reflexivity.
Qed.

Lemma item_at_send j r self : item_at j (send r self) = item_at j self.
Proof. reflexivity. Qed.

Lemma item_at_set_cooldown j c self : item_at j (set_cooldown c self) = item_at j self.
Proof. reflexivity. Qed.

Lemma item_at_set_review_tracker j c self :
  item_at j (set_review_tracker c self) = item_at j self.
Proof. reflexivity. Qed.

Lemma item_at_log_event i j text now self :
  item_at j (log_event i text now self) = item_at j self.
Proof. unfold log_event. destruct (queue self !! i); reflexivity. Qed.

Lemma item_at_record_action i text now self :
  item_at i (record_action i text now self) =
  QueueItem.set_last_action text now <$> item_at i self.
Proof. unfold record_action. rewrite item_at_log_event. apply item_at_update_item. Qed.

Lemma sent_update_item i f self : sent (update_item i f self) = sent self.
Proof. unfold update_item. destruct (queue self !! i); reflexivity. Qed.

Lemma sent_log_event i text now self : sent (log_event i text now self) = sent self.
Proof. unfold log_event. destruct (queue self !! i); reflexivity. Qed.

Lemma sent_record_action i text now self :
  sent (record_action i text now self) = sent self.
Proof. unfold record_action. rewrite sent_log_event. apply sent_update_item. Qed.

Lemma issued_nothing self self' : sent self' = sent self -> issued self self' = [].
Proof. intros E. unfold issued. rewrite E. apply drop_all. Qed.

Lemma issued_one self self' r :
  sent self' = (sent self ++ [r])%list -> issued self self' = [r].
Proof.
  intros E. unfold issued. rewrite E. rewrite drop_app_length. reflexivity.
Qed.

Lemma contains_prefix needle rest : contains needle (needle +:+ rest) = true.
Proof.
  assert (H : String.prefix needle (needle +:+ rest) = true).
  { induction needle as [|c needle IH]; simpl.
    - destruct rest; reflexivity.
    - rewrite IH. destruct (ascii_dec c c); [reflexivity|contradiction]. }
  destruct (needle +:+ rest); simpl in *; rewrite H; reflexivity.
Qed.

Ltac item_simpl :=
  repeat first
    [ rewrite item_at_update_item
    | rewrite item_at_record_action
    | rewrite item_at_log_event
    | rewrite item_at_send
    | rewrite item_at_set_cooldown
    | rewrite item_at_set_review_tracker ].

Ltac sent_simpl :=
  repeat first
    [ rewrite sent_record_action
    | rewrite sent_log_event
    | rewrite sent_update_item
    | progress cbn [sent send set_cooldown set_review_tracker] ].

(** ** The ordinary stretches ask for reviews of the item's PR only *)

Lemma asks_own_then i S1 S2 :
  asks_review_of_own_pr i S1 -> asks_review_of_own_pr i S2 ->
  asks_review_of_own_pr i (then_ S1 S2).
Proof.
  intros H1 H2 self0 item0 Hi.
  destruct (H1 self0 item0 Hi) as (l1 & item1 & Hs1 & Hi1 & Hp1 & Hr1).
  unfold then_. destruct (S1 self0) as [s1 [v|]]; simpl in *.
  - exists l1, item1. auto.
  - destruct (H2 s1 item1 Hi1) as (l2 & item2 & Hs2 & Hi2 & Hp2 & Hr2).
    exists (l1 ++ l2)%list, item2. rewrite Hs2, Hs1, app_assoc.
    repeat split; [exact Hi2 | congruence |].
    intros k Hk. apply elem_of_app in Hk as [Hk|Hk]; [auto|].
    rewrite <- Hp1. auto.
Qed.

Lemma asks_own_quiet i S :
  (forall self0, S self0 = (self0, None) \/ S self0 = (self0, Some None)) ->
  asks_review_of_own_pr i S.
Proof.
  intros H self0 item0 Hi. exists [], item0.
  destruct (H self0) as [-> | ->]; simpl; rewrite app_nil_r;
    repeat split; auto; intros k Hk; inversion Hk.
Qed.

Ltac own_pr_case :=
  cbn [fst]; eexists _, _; sent_simpl; item_simpl;
  split; [ first [ reflexivity | symmetry; apply app_nil_r ] |
  split; [ match goal with
           | H : item_at _ _ = Some _ |- _ => rewrite H; reflexivity
           end |
  split; [ reflexivity |
           intros k Hk;
           first [ solve [inversion Hk]
                 | apply list_elem_of_singleton in Hk;
                   first [ discriminate Hk
                         | injection Hk as ->; first [ reflexivity | assumption ] ] ] ] ] ].

Lemma pr_open_steps_asks_own w now i : asks_review_of_own_pr i (pr_open_steps w now i).
Proof.
  intros self0 item0 Hi. unfold pr_open_steps, with_item.
  change (queue self0 !! i) with (item_at i self0). rewrite Hi.
  unfold then_, perform, returns, falls_through.
  destruct (state_is item0 WorkflowState.PR_OPEN); [|own_pr_case].
  destruct (truthy_number (QueueItem.pr_number item0)) as [n|] eqn:Hn; [|own_pr_case].
  destruct (Answers.get_pr_by_number w) as [pr|]; [|own_pr_case].
  destruct (_ && _); [|own_pr_case].
  destruct (Answers.request_review_from_copilot w); simpl; own_pr_case.
Qed.

Lemma review_requested_steps_asks_own w now i :
  asks_review_of_own_pr i (review_requested_steps w now i).
Proof.
  intros self0 item0 Hi. unfold review_requested_steps, with_item.
  change (queue self0 !! i) with (item_at i self0). rewrite Hi.
  unfold then_, perform, returns, falls_through.
  destruct (state_is item0 WorkflowState.REVIEW_REQUESTED); [|own_pr_case].
  destruct (truthy_number (QueueItem.pr_number item0)) as [n|] eqn:Hn; [|own_pr_case].
  destruct (Answers.request_review_from_copilot w); simpl; own_pr_case.
Qed.

Lemma changes_requested_steps_asks_own w now i :
  asks_review_of_own_pr i (changes_requested_steps w now i).
Proof.
  intros self0 item0 Hi. unfold changes_requested_steps, with_item.
  change (queue self0 !! i) with (item_at i self0). rewrite Hi.
  unfold then_, perform, returns, falls_through.
  destruct (state_is item0 WorkflowState.CHANGES_REQUESTED); [|own_pr_case].
  destruct (truthy_number (QueueItem.pr_number item0)) as [n|] eqn:Hn; [|own_pr_case].
  destruct (Answers.comment_apply_changes w); simpl; own_pr_case.
Qed.

Lemma approved_steps_asks_own c w now i :
  asks_review_of_own_pr i (approved_steps c w now i).
Proof.
  intros self0 item0 Hi. unfold approved_steps, with_item.
  change (queue self0 !! i) with (item_at i self0). rewrite Hi.
  unfold then_, perform, returns, falls_through.
  destruct (state_is item0 WorkflowState.APPROVED); [|own_pr_case].
  destruct (truthy_number (QueueItem.pr_number item0)) as [n|] eqn:Hn; [|own_pr_case].
  destruct (auto_merge c); [|own_pr_case].
  destruct (Answers.get_pr_by_number w) as [pr|]; [|own_pr_case].
  destruct (PRInfo.is_draft pr).
  - destruct (Answers.mark_pr_ready_for_review w); simpl; own_pr_case.
  - destruct (Answers.merge_pr w); simpl; own_pr_case.
Qed.

Lemma queued_steps_asks_own c w now i can :
  asks_review_of_own_pr i (queued_steps c w now i can).
Proof.
  intros self0 item0 Hi. unfold queued_steps, with_item.
  change (queue self0 !! i) with (item_at i self0). rewrite Hi.
  unfold then_, perform, returns, falls_through.
  destruct (_ && _); [|own_pr_case].
  destruct (negb can); [own_pr_case|].
  destruct (_ && _); [|own_pr_case].
  destruct (Answers.assign_issue_to_copilot w); simpl; own_pr_case.
Qed.

Lemma ordinary_steps_ask_own c w now i can :
  asks_review_of_own_pr i
    (pr_open_steps w now i ;;
     review_requested_steps w now i ;;
     changes_requested_steps w now i ;;
     approved_steps c w now i ;;
     queued_steps c w now i can ;;
     returns None)%stretch.
Proof.
  repeat apply asks_own_then;
    auto using pr_open_steps_asks_own, review_requested_steps_asks_own,
      changes_requested_steps_asks_own, approved_steps_asks_own, queued_steps_asks_own.
  apply asks_own_quiet. intros self0. right. reflexivity.
Qed.

(** ** The loop-breaker *)

(** C2 (as amended). While the loop-breaker holds an entry for PR [m], a
    visit of an item asks for a review of [m] only as the final review for
    approval: the item carries [m], the PR was fetched, is no draft and is
    not classified APPROVED, the item is neither APPROVED nor REVIEWING,
    [skip_final_review] is off, and that request is the only one of the
    visit.  The "Requested Copilot review" and "Reassigned review" branches
    send nothing for [m]. *)
Theorem review_done_limits_review_requests (w : Answers.t) (now : Z) (i : nat)
    (can : bool) (self : AutomationDaemon.t) (item : QueueItem.t) (m : Z) :
  item_at i self = Some item ->
  ReviewTracker.is_review_done (review_tracker self) m = true ->
  let self' := fst (_process_item_with_cooldown w now i can self) in
  let action := snd (_process_item_with_cooldown w now i can self) in
  RequestReview m ∈ issued self self' ->
  truthy_number (QueueItem.pr_number item) = Some m /\
  issued self self' = [RequestReview m] /\
  (exists pr, Answers.get_pr_by_number w = Some pr /\
              PRInfo.is_draft pr = false /\
              PRInfo.state pr <> PRState.APPROVED) /\
  QueueItem.state item <> WorkflowState.APPROVED /\
  QueueItem.state item <> WorkflowState.REVIEWING /\
  skip_final_review (AutomationEngine.config (engine self)) = false /\
  (action = None \/
   action = Some ("Requested final review on PR #" +:+ str m +:+ " to get approval")).
Proof.
  intros Hi Hdone. simpl.
  destruct (_process_item_with_cooldown w now i can self) as [self' action] eqn:E.
  simpl. revert E. unfold _process_item_with_cooldown.
  pose proof Hi as Hi0. unfold item_at in Hi0.
  assert (Hnone : RequestReview m ∈ issued self self -> False).
  { rewrite issued_nothing by reflexivity. intros H. inversion H. }
  assert (Hother : forall r s, sent s = (sent self ++ [r])%list ->
                     r <> RequestReview m ->
                     RequestReview m ∈ issued self s -> False).
  { intros r s Hs Hr. rewrite (issued_one _ _ _ Hs). intros H.
    apply list_elem_of_singleton in H. apply Hr. symmetry. exact H. }
  destruct (AutomationEngine.client (engine self)); simpl.
  2:{ intros [= <- <-] H. exfalso. eauto. }
  unfold with_item at 1. rewrite Hi0.
  destruct (review_done_pr self item) as [n|] eqn:Hrd.
  - (* the review cycle of the item's PR is closed *)
    assert (Hn : truthy_number (QueueItem.pr_number item) = Some n).
    { unfold review_done_pr in Hrd.
      destruct (truthy_number (QueueItem.pr_number item)) as [k|]; [|discriminate].
      destruct (ReviewTracker.is_review_done _ k); congruence. }
    unfold review_done_steps, with_item. rewrite Hi0.
    destruct (Answers.get_pr_by_number w) as [pr|]; simpl.
    2:{ intros [= <- <-] H. exfalso. eauto. }
    destruct (PRInfo.is_draft pr) eqn:Hdraft.
    { unfold then_, perform, returns. simpl.
      destruct (Answers.mark_pr_ready_for_review w); simpl; intros [= <- <-] H; exfalso;
        (eapply (Hother (MarkReady n)); [| discriminate | exact H]); sent_simpl; reflexivity. }
    destruct (PRState.eqb (PRInfo.state pr) PRState.APPROVED ||
              state_is item WorkflowState.APPROVED ||
              skip_final_review (AutomationEngine.config (engine self))) eqn:Hmerge.
    { unfold then_, perform, returns. simpl.
      destruct (auto_merge _); simpl.
      - destruct (Answers.merge_pr w); simpl; intros [= <- <-] H; exfalso;
          (eapply (Hother (MergePR n)); [| discriminate | exact H]); sent_simpl; reflexivity.
      - intros [= <- <-] H. exfalso. revert H.
        rewrite issued_nothing; [intros H; inversion H|]. sent_simpl. reflexivity. }
    apply orb_false_iff in Hmerge as [Hmerge Hskip].
    apply orb_false_iff in Hmerge as [Happ Hsa].
    destruct (state_is item WorkflowState.REVIEWING) eqn:Hrev.
    { unfold returns. intros [= <- <-] H. exfalso. eauto. }
    assert (F1 : exists pr0, Some pr = Some pr0 /\ PRInfo.is_draft pr0 = false /\
                             PRInfo.state pr0 <> PRState.APPROVED).
    { exists pr. repeat split; auto. intros Heq. rewrite Heq in Happ. discriminate. }
    assert (F2 : QueueItem.state item <> WorkflowState.APPROVED).
    { intros Heq. unfold state_is in Hsa. rewrite Heq in Hsa. discriminate. }
    assert (F3 : QueueItem.state item <> WorkflowState.REVIEWING).
    { intros Heq. unfold state_is in Hrev. rewrite Heq in Hrev. discriminate. }
    unfold then_, perform, returns. simpl.
    destruct (Answers.request_review_from_copilot w); simpl; intros [= <- <-] H.
    + assert (Hs : issued self
                     (record_action i "Requested final Copilot review for approval" now
                        (update_item i (QueueItem.set_state WorkflowState.REVIEWING)
                           (send (RequestReview n) self))) = [RequestReview n]).
      { apply issued_one. sent_simpl. reflexivity. }
      rewrite Hs in *. apply list_elem_of_singleton in H. injection H as ->.
      repeat split; auto.
    + assert (Hs : issued self (send (RequestReview n) self) = [RequestReview n]).
      { apply issued_one. reflexivity. }
      rewrite Hs in *. apply list_elem_of_singleton in H. injection H as ->.
      repeat split; auto.
  - (* no entry for the item's PR: whatever is requested is not for [m] *)
    intros E H. exfalso.
    destruct (ordinary_steps_ask_own (AutomationEngine.config (engine self)) w now i can
                self item Hi) as (l & item1 & Hs & _ & _ & Hl).
    match type of E with
    | match ?X with _ => _ end = _ => destruct X as [s1 r1] eqn:EX
    end.
    simpl in Hs.
    assert (self' = s1) as -> by (destruct r1; congruence).
    unfold issued in H. rewrite Hs, drop_app_length in H.
    specialize (Hl m H). unfold review_done_pr in Hrd. rewrite Hl, Hdone in Hrd.
    discriminate.
Qed.

Lemma final_review_issued :
  issued applying_changes_42
    (fst (_process_item_with_cooldown review_requested_again noon 0 true applying_changes_42))
  = [RequestReview 42].
Proof. vm_compute. reflexivity. Defined.

Lemma review_done_42_holds :
  ReviewTracker.is_review_done (review_tracker applying_changes_42) 42 = true.
Proof. vm_compute. reflexivity. Defined.

Lemma review_done_limits_review_requests_witness :
  ReviewTracker.is_review_done (review_tracker applying_changes_42) 42 = true /\
  RequestReview 42 ∈
    issued applying_changes_42
      (fst (_process_item_with_cooldown review_requested_again noon 0 true
              applying_changes_42)) /\
  QueueItem.state (sample_item "TC-A-01" WorkflowState.APPLYING_CHANGES (Some 11) (Some 42))
    <> WorkflowState.REVIEWING.
Proof.
  split; [exact review_done_42_holds|].
  assert (Hin : RequestReview 42 ∈
                issued applying_changes_42
                  (fst (_process_item_with_cooldown review_requested_again noon 0 true
                          applying_changes_42))).
  { rewrite final_review_issued. apply list_elem_of_here. }
  split; [exact Hin|].
  pose proof (review_done_limits_review_requests review_requested_again noon 0 true
                applying_changes_42 _ 42 eq_refl review_done_42_holds Hin) as H.
  exact (proj1 (proj2 (proj2 (proj2 (proj2 H))))).
Defined.

(** C2, as first stated, fails: with the entry for PR 42 in place, an item
    in APPLYING_CHANGES whose PR is classified "review requested" makes the
    daemon request a review of PR 42, and the entry is still there
    afterwards. *)
Lemma final_review_is_requested :
  let self' :=
    fst (_process_item_with_cooldown review_requested_again noon 0 true applying_changes_42) in
  ReviewTracker.is_review_done (review_tracker applying_changes_42) 42 = true /\
  sent self' = [RequestReview 42] /\
  ReviewTracker.is_review_done (review_tracker self') 42 = true.
Proof. repeat split; vm_compute; reflexivity. Qed.

(** ** Admission *)

Lemma review_done_steps_never_assigns c w now i n self item :
  item_at i self = Some item ->
  QueueItem.state item <> WorkflowState.ASSIGNED ->
  forall item',
    item_at i (fst (review_done_steps c w now i n self)) = Some item' ->
    QueueItem.state item' <> WorkflowState.ASSIGNED.
Proof.
  intros Hi Hs item'. unfold review_done_steps, with_item.
  change (queue self !! i) with (item_at i self). rewrite Hi.
  destruct (Answers.get_pr_by_number w) as [pr|]; simpl.
  2:{ rewrite Hi. intros [= <-]. exact Hs. }
  destruct (PRInfo.is_draft pr).
  { unfold then_, perform, returns. simpl.
    destruct (Answers.mark_pr_ready_for_review w); simpl; item_simpl; rewrite Hi; simpl;
      intros [= <-]; exact Hs. }
  destruct (_ || _).
  { unfold then_, perform, returns. simpl.
    destruct (auto_merge c); simpl.
    - destruct (Answers.merge_pr w); simpl; item_simpl; rewrite Hi; simpl;
        intros [= <-]; simpl; discriminate.
    - item_simpl. rewrite Hi. simpl. intros [= <-]. simpl. discriminate. }
  destruct (state_is item WorkflowState.REVIEWING).
  { unfold returns. simpl. rewrite Hi. intros [= <-]. exact Hs. }
  unfold then_, perform, returns. simpl.
  destruct (Answers.request_review_from_copilot w); simpl; item_simpl; rewrite Hi; simpl;
    intros [= <-]; simpl; [discriminate | exact Hs].
Qed.

(** A visit that moves its item from QUEUED to ASSIGNED was handed a true
    [can_assign], found the item to be the first queued one with nothing in
    flight, and returns an action that starts with "Assigned". *)
Lemma visit_assigns w now i can self item item' :
  item_at i self = Some item ->
  QueueItem.state item = WorkflowState.QUEUED ->
  item_at i (fst (_process_item_with_cooldown w now i can self)) = Some item' ->
  QueueItem.state item' = WorkflowState.ASSIGNED ->
  can = true /\
  is_item (first_queued (queue self)) item = true /\
  active_items (queue self) = [] /\
  truthy_int (QueueItem.issue_number item) = true /\
  Answers.assign_issue_to_copilot w = true /\
  exists rest, snd (_process_item_with_cooldown w now i can self) = Some ("Assigned" +:+ rest).
Proof.
  intros Hi Hq.
  destruct (_process_item_with_cooldown w now i can self) as [self' action] eqn:E.
  simpl. revert E. unfold _process_item_with_cooldown.
  pose proof Hi as Hi0. unfold item_at in Hi0.
  assert (Hkeep : item_at i self = Some item' ->
                  QueueItem.state item' = WorkflowState.ASSIGNED -> False).
  { rewrite Hi. intros [= <-] H. congruence. }
  destruct (AutomationEngine.client (engine self)); simpl.
  2:{ intros [= <- <-] H1 H2. exfalso. eauto. }
  unfold with_item at 1. rewrite Hi0.
  destruct (review_done_pr self item) as [n|].
  { intros E H1 H2. exfalso.
    assert (Hne : QueueItem.state item <> WorkflowState.ASSIGNED) by (rewrite Hq; discriminate).
    pose proof (review_done_steps_never_assigns
                  (AutomationEngine.config (engine self)) w now i n self item Hi Hne item') as H.
    destruct (review_done_steps _ w now i n self) as [s' [v|]]; simpl in *;
      injection E as <- <-; exact (H H1 H2). }
  unfold then_, pr_open_steps, review_requested_steps, changes_requested_steps,
    approved_steps, queued_steps, with_item, falls_through, returns, state_is.
  rewrite Hi0, Hq. simpl. rewrite Hi0, Hq. simpl. rewrite Hi0, Hq. simpl.
  rewrite Hi0, Hq. simpl. rewrite Hi0, Hq. simpl.
  destruct (auto_assign_next _); simpl.
  2:{ intros [= <- <-] H1 H2. exfalso. eauto. }
  destruct can; simpl.
  2:{ intros [= <- <-] H1 H2. exfalso. eauto. }
  destruct (is_item (first_queued (queue self)) item); simpl.
  2:{ intros [= <- <-] H1 H2. exfalso. eauto. }
  destruct (active_items (queue self)) as [|a l] eqn:Ha; simpl.
  2:{ intros [= <- <-] H1 H2. exfalso. eauto. }
  destruct (truthy_int (QueueItem.issue_number item)); simpl.
  2:{ intros [= <- <-] H1 H2. exfalso. eauto. }
  unfold perform. simpl.
  destruct (Answers.assign_issue_to_copilot w); simpl.
  2:{ intros [= <- <-] H1 H2. exfalso. eauto. }
  intros [= <- <-] _ _. repeat split; eauto.
Qed.

Lemma process_items_S answers now n l :
  process_items answers now (S n) l = loop_body answers now (process_items answers now n l) n.
Proof.
  unfold process_items. rewrite seq_S, fold_left_app. reflexivity.
Qed.

Lemma loop_body_can_assign_false answers now l i :
  can_assign l = false -> can_assign (loop_body answers now l i) = false.
Proof.
  intros H. unfold loop_body.
  destruct (_process_item_with_cooldown _ _ _ _ _) as [self action].
  destruct (truthy_str action); simpl; [|exact H].
  destruct (contains "Assigned" _); simpl;
    destruct (contains "cooldown started" _); simpl; auto.
Qed.

Lemma process_items_can_assign_false answers now l i k :
  can_assign (process_items answers now i l) = false ->
  can_assign (process_items answers now (i + k) l) = false.
Proof.
  intros H. induction k as [|k IH].
  - rewrite Nat.add_0_r. exact H.
  - replace (i + S k)%nat with (S (i + k)) by lia.
    rewrite process_items_S. apply loop_body_can_assign_false, IH.
Qed.

Lemma daemon_loop_body answers now l i :
  daemon (loop_body answers now l i) =
  fst (_process_item_with_cooldown (answers i) now i (can_assign l) (daemon l)).
Proof.
  unfold loop_body.
  destruct (_process_item_with_cooldown _ _ _ _ _) as [self action]. simpl.
  destruct (truthy_str action); simpl; [|reflexivity].
  destruct (contains "Assigned" _); reflexivity.
Qed.

Lemma assigned_in_iteration_inv answers now l i :
  assigned_in_iteration answers now l i ->
  can_assign (process_items answers now i l) = true /\
  can_assign (process_items answers now (S i) l) = false /\
  let self := daemon (process_items answers now i l) in
  exists item,
    item_at i self = Some item /\
    is_item (first_queued (queue self)) item = true /\
    active_items (queue self) = [].
Proof.
  intros (item & item' & Hi & Hi' & Hq & Ha).
  rewrite process_items_S, daemon_loop_body in Hi'.
  destruct (visit_assigns _ _ _ _ _ _ _ Hi Hq Hi' Ha) as (Hc & Hf & Hact & _ & _ & rest & Hr).
  split; [exact Hc|]. split.
  - rewrite process_items_S. unfold loop_body.
    destruct (_process_item_with_cooldown _ _ _ _ _) as [self action]. simpl in Hr.
    subst action. cbn [truthy_str or_empty].
    rewrite contains_prefix.
    replace (negb (("Assigned" +:+ rest) =? "")%string) with true by reflexivity.
    simpl. destruct (contains "cooldown started" _); reflexivity.
  - exists item. auto.
Qed.

(** ** Each iteration changes its own item only *)

Lemma keeps_update_item i f : keeps_others i (update_item i f).
Proof.
  intros self0 j Hne. unfold item_at, update_item.
  destruct (queue self0 !! i) as [item|] eqn:E; simpl; [|reflexivity].
  unfold queue in *. simpl. apply list_lookup_insert_ne. congruence.
Qed.

Lemma keeps_log_event i text now : keeps_others i (log_event i text now).
Proof. intros self0 j _. apply item_at_log_event. Qed.

Lemma keeps_record_action i text now : keeps_others i (record_action i text now).
Proof.
  intros self0 j Hne. unfold record_action.
  rewrite item_at_log_event. apply keeps_update_item, Hne.
Qed.

Lemma keeps_queue_alone i f :
  (forall self0, queue (f self0) = queue self0) -> keeps_others i f.
Proof. intros H self0 j _. unfold item_at. rewrite H. reflexivity. Qed.

Lemma leaves_then i S1 S2 :
  leaves_others i S1 -> leaves_others i S2 -> leaves_others i (then_ S1 S2).
Proof.
  intros H1 H2 self0 j Hne. unfold then_.
  specialize (H1 self0 j Hne). destruct (S1 self0) as [s1 [v|]]; simpl in *; [exact H1|].
  rewrite (H2 s1 j Hne). exact H1.
Qed.

Lemma leaves_perform i f : keeps_others i f -> leaves_others i (perform f).
Proof. intros H self0 j Hne. apply H, Hne. Qed.

Lemma leaves_returns i v : leaves_others i (returns v).
Proof. intros self0 j _. reflexivity. Qed.

Lemma leaves_falls_through i : leaves_others i falls_through.
Proof. intros self0 j _. reflexivity. Qed.

Lemma leaves_with_item i k :
  (forall item, leaves_others i (k item)) -> leaves_others i (with_item i k).
Proof.
  intros H self0 j Hne. unfold with_item.
  destruct (queue self0 !! i) as [item|]; [apply H, Hne | reflexivity].
Qed.

Ltac leaves :=
  repeat (cbv zeta;
          lazymatch goal with
          | |- leaves_others _ (returns _) => apply leaves_returns
          | |- leaves_others _ falls_through => apply leaves_falls_through
          | |- leaves_others _ (then_ _ _) => apply leaves_then
          | |- leaves_others _ (perform _) => apply leaves_perform
          | |- leaves_others _ (if ?b then _ else _) => destruct b
          | |- leaves_others _ (match ?o with Some _ => _ | None => _ end) => destruct o
          | |- keeps_others _ (update_item _ _) => apply keeps_update_item
          | |- keeps_others _ (record_action _ _ _) => apply keeps_record_action
          | |- keeps_others _ (log_event _ _ _) => apply keeps_log_event
          | |- keeps_others _ _ => apply keeps_queue_alone; intros; reflexivity
          end).

Lemma review_done_steps_leaves c w now i n : leaves_others i (review_done_steps c w now i n).
Proof. unfold review_done_steps. apply leaves_with_item. intros item. leaves. Qed.

Lemma pr_open_steps_leaves w now i : leaves_others i (pr_open_steps w now i).
Proof. unfold pr_open_steps. apply leaves_with_item. intros item. leaves. Qed.

Lemma review_requested_steps_leaves w now i : leaves_others i (review_requested_steps w now i).
Proof. unfold review_requested_steps. apply leaves_with_item. intros item. leaves. Qed.

Lemma changes_requested_steps_leaves w now i :
  leaves_others i (changes_requested_steps w now i).
Proof. unfold changes_requested_steps. apply leaves_with_item. intros item. leaves. Qed.

Lemma approved_steps_leaves c w now i : leaves_others i (approved_steps c w now i).
Proof. unfold approved_steps. apply leaves_with_item. intros item. leaves. Qed.

Lemma queued_steps_leaves c w now i can : leaves_others i (queued_steps c w now i can).
Proof.
  unfold queued_steps. apply leaves_with_item. intros item.
  destruct (_ && _); [|leaves]. destruct (negb can); [leaves|].
  intros self0 j Hne. destruct (_ && _); [|reflexivity].
  revert self0 j Hne. change (leaves_others i
    (perform (send (AssignIssue (default 0 (QueueItem.issue_number item))
                      (agent_instructions c) (target_branch c))) ;;
     if Answers.assign_issue_to_copilot w then
       perform (update_item i (QueueItem.set_state WorkflowState.ASSIGNED)) ;;
       perform (record_action i "Assigned to Copilot" now) ;;
       returns (Some ("Assigned issue #" +:+ fmt_number (QueueItem.issue_number item) +:+
                      " (" +:+ QueueItem.issue_id item +:+ ") to Copilot"))
     else falls_through)%stretch).
  leaves.
Qed.

Lemma visit_leaves_others w now i can self j :
  j <> i -> item_at j (fst (_process_item_with_cooldown w now i can self)) = item_at j self.
Proof.
  intros Hne. unfold _process_item_with_cooldown.
  match goal with
  | |- item_at j (fst (match ?S self with _ => _ end)) = _ =>
      assert (H : leaves_others i S)
  end.
  { destruct (negb _); [leaves|]. apply leaves_with_item. intros item.
    destruct (review_done_pr self item).
    - apply review_done_steps_leaves.
    - repeat apply leaves_then;
        auto using pr_open_steps_leaves, review_requested_steps_leaves,
          changes_requested_steps_leaves, approved_steps_leaves, queued_steps_leaves,
          leaves_returns. }
  specialize (H self j Hne).
  match goal with
  | |- item_at j (fst (match ?X with _ => _ end)) = _ => destruct X as [s [v|]]
  end; exact H.
Qed.

Lemma loop_body_leaves_others answers now l i j :
  j <> i -> item_at j (daemon (loop_body answers now l i)) = item_at j (daemon l).
Proof. intros Hne. rewrite daemon_loop_body. apply visit_leaves_others, Hne. Qed.

Lemma process_items_not_yet answers now l n j :
  (n <= j)%nat ->
  item_at j (daemon (process_items answers now n l)) = item_at j (daemon l).
Proof.
  induction n as [|n IH]; intros Hle; [reflexivity|].
  rewrite process_items_S, loop_body_leaves_others by lia. apply IH. lia.
Qed.

Lemma process_items_done answers now l n j :
  (j < n)%nat ->
  item_at j (daemon (process_items answers now n l)) =
  item_at j (daemon (process_items answers now (S j) l)).
Proof.
  induction n as [|n IH]; intros Hlt; [lia|].
  destruct (decide (j = n)) as [->|Hne]; [reflexivity|].
  rewrite process_items_S, loop_body_leaves_others by lia. apply IH. lia.
Qed.

Lemma moved_in_own_iteration answers now l n i :
  moved_to_assigned answers now l n i ->
  (i < n)%nat /\ assigned_in_iteration answers now l i.
Proof.
  intros (item & item' & Hi & Hi' & Hq & Ha).
  destruct (le_lt_dec n i) as [Hle|Hlt].
  - rewrite process_items_not_yet in Hi' by exact Hle. congruence.
  - split; [exact Hlt|]. exists item, item'.
    rewrite (process_items_not_yet answers now l i i (le_n i)).
    rewrite <- (process_items_done answers now l n i Hlt). auto.
Qed.

(** C3 (as amended). Over the item loop of a cycle, an item that is QUEUED
    before the loop and ASSIGNED after it was moved in its own iteration,
    which started from a true [can_assign] (the answer of the cooldown at the
    start of the cycle) and found the item to be the first QUEUED one with
    no item in flight; no other item of the queue is moved so by the same
    loop. *)
Theorem at_most_one_assignment_per_loop (answers : nat -> Answers.t) (now : Z)
    (l : Loop) (n i : nat) :
  moved_to_assigned answers now l n i ->
  can_assign l = true /\
  (i < n)%nat /\
  (let self := daemon (process_items answers now i l) in
   exists item,
     item_at i self = Some item /\
     is_item (first_queued (queue self)) item = true /\
     active_items (queue self) = []) /\
  (forall j, moved_to_assigned answers now l n j -> j = i).
Proof.
  assert (Hlater : forall a b, (a < b)%nat ->
            assigned_in_iteration answers now l a ->
            assigned_in_iteration answers now l b -> False).
  { intros a b Hlt Ha Hb.
    apply assigned_in_iteration_inv in Ha as (_ & Ha & _).
    apply assigned_in_iteration_inv in Hb as (Hb & _).
    pose proof (process_items_can_assign_false answers now l (S a) (b - S a) Ha) as H.
    replace (S a + (b - S a))%nat with b in H by lia. congruence. }
  intros Hm. destruct (moved_in_own_iteration _ _ _ _ _ Hm) as [Hlt Hi].
  pose proof Hi as Hi'.
  apply assigned_in_iteration_inv in Hi' as (Hc & _ & Hrest).
  split; [|split; [exact Hlt|split]].
  - destruct (can_assign l) eqn:E; [reflexivity|].
    pose proof (process_items_can_assign_false answers now l 0 i) as H.
    simpl in H. rewrite (H E) in Hc. discriminate.
  - exact Hrest.
  - intros j Hj0. destruct (moved_in_own_iteration _ _ _ _ _ Hj0) as [_ Hj].
    destruct (Nat.lt_trichotomy j i) as [H|[H|H]]; [|exact H|]; exfalso; eauto.
Qed.

Lemma first_item_moved : moved_to_assigned obliging noon (fresh_loop two_queued) 2 0.
Proof.
  eexists. eexists.
  split; [reflexivity|]. split; [vm_compute; reflexivity|]. split; reflexivity.
Defined.

Lemma at_most_one_assignment_per_loop_witness :
  moved_to_assigned obliging noon (fresh_loop two_queued) 2 0 /\
  ~ moved_to_assigned obliging noon (fresh_loop two_queued) 2 1.
Proof.
  split; [exact first_item_moved|].
  intros H.
  pose proof (proj2 (proj2 (proj2 (at_most_one_assignment_per_loop obliging noon
                              (fresh_loop two_queued) 2 0 first_item_moved))) 1%nat H) as E.
  discriminate E.
Defined.

(** C3, as first stated, fails on the whole of [_process_cycle]: the status
    refresh that opens the cycle sets two QUEUED items to ASSIGNED when both
    issues already have an assignee, without any request being sent. *)
Lemma refresh_marks_two_items_assigned :
  QueueItem.state <$> queue two_queued = [WorkflowState.QUEUED; WorkflowState.QUEUED] /\
  QueueItem.state <$> queue (fst (_process_cycle assigned_elsewhere silent noon two_queued))
    = [WorkflowState.ASSIGNED; WorkflowState.ASSIGNED] /\
  sent (fst (_process_cycle assigned_elsewhere silent noon two_queued)) = [].
Proof. repeat split; vm_compute; reflexivity. Qed.

(* ===================================================================== *)
(** * Further properties of the classifier and the lookups                *)
(* ===================================================================== *)

(** ** CI status *)

Lemma to_pr_info_checks_passed timeline now pr info :
  _to_pr_info timeline now pr = Ok info ->
  PRInfo.checks_passed info = try_except (ci_checks pr) true.
Proof.
  unfold _to_pr_info.
  destruct (PullRequest.get_reviews pr) as [reviews|]; simpl; [|discriminate].
  destruct (PullRequest.get_review_requests pr) as [rq|]; simpl; [|discriminate].
  intros [= <-]. reflexivity.
Qed.

(** X1. [checks_passed] is false exactly when the commit listing
    succeeds, the check runs of its last commit can be listed, and one of
    them has a conclusion other than "success" and "skipped"; a check run
    without conclusion, an earlier commit, and every failure to list count
    as passed. *)
Theorem ci_status_reads_the_last_commit (timeline : result TimelineResponse.t)
    (now : datetime) (pr : PullRequest.t) (info : PRInfo.t) :
  _to_pr_info timeline now pr = Ok info ->
  (PRInfo.checks_passed info = false <->
   exists commits last_commit runs conclusion,
     PullRequest.get_commits pr = Ok commits /\
     last commits = Some last_commit /\
     Commit.get_check_runs last_commit = Ok runs /\
     Some conclusion ∈ runs /\
     conclusion <> "success" /\ conclusion <> "skipped").
Proof.
  intros H. rewrite (to_pr_info_checks_passed _ _ _ _ H). clear H.
  unfold try_except, ci_checks, bind, lift, assign, pass, ret.
  destruct (PullRequest.get_commits pr) as [commits|e]; simpl.
  2:{ split; [discriminate|]. intros (? & ? & ? & ? & Hx & _). discriminate Hx. }
  destruct (last commits) as [last_commit|] eqn:Hlast; simpl.
  2:{ split; [discriminate|]. intros (? & ? & ? & ? & [= <-] & Hx & _). congruence. }
  destruct (Commit.get_check_runs last_commit) as [runs|e] eqn:Hruns; simpl.
  2:{ split; [discriminate|].
      intros (? & ? & ? & ? & [= <-] & Hx & Hr & _). congruence. }
  destruct (existsb failed_conclusion runs) eqn:E; simpl.
  - split; [intros _|reflexivity].
    apply existsb_exists in E as (c & Hin & Hc).
    destruct c as [c|]; [|discriminate Hc]. simpl in Hc.
    apply negb_true_iff, orb_false_iff in Hc as [H1 H2].
    exists commits, last_commit, runs, c.
    repeat split; auto.
    + apply list_elem_of_In, Hin.
    + intros ->. discriminate H1.
    + intros ->. discriminate H2.
  - split; [discriminate|].
    intros (? & ? & ? & c & [= <-] & Hx & Hr & Hin & Hn1 & Hn2). exfalso.
    rewrite Hlast in Hx. injection Hx as <-.
    rewrite Hruns in Hr. injection Hr as <-.
    assert (Hex : existsb failed_conclusion runs = true); [|congruence].
    apply existsb_exists. exists (Some c). split; [apply list_elem_of_In, Hin|].
    simpl. apply negb_true_iff, orb_false_iff.
    split; apply String.eqb_neq; assumption.
Qed.

Lemma ci_status_reads_the_last_commit_witness :
  exists info,
    _to_pr_info (timeline_of []) (utc noon) failing_ci_pr = Ok info /\
    PRInfo.checks_passed info = false.
Proof.
  eexists. split; [vm_compute; reflexivity|].
  apply (proj2 (ci_status_reads_the_last_commit (timeline_of []) (utc noon) failing_ci_pr _
                  eq_refl)).
  eexists _, _, _, "failure".
  split; [reflexivity|]. split; [reflexivity|]. split; [reflexivity|].
  split; [|split; discriminate].
  apply list_elem_of_further, list_elem_of_further, list_elem_of_here.
Defined.

(** ** Pending suggestions *)

Lemma detection1_pending timeline now l :
  has_pending_suggestions (try_except (detection1 timeline now) l) =
  has_pending_suggestions l.
Proof.
  unfold try_except, detection1, bind, lift, pass, ret, assign.
  repeat match goal with
         | |- context [match ?r with Ok _ => _ | Raise _ => _ end] => destruct r; simpl
         | |- context [if ?b then _ else _] => destruct b; simpl
         end; reflexivity.
Qed.

Lemma detection2_pending pr l :
  has_pending_suggestions (try_except (detection2 pr) l) = has_pending_suggestions l.
Proof.
  unfold try_except, detection2, bind, lift, pass, ret, assign.
  destruct (PullRequest.get_issue_comments pr) as [comments|]; simpl; [|reflexivity].
  destruct (has_apply_changes_request _); [|reflexivity].
  destruct (apply_changes_request_time _); [|reflexivity].
  destruct (finished_after _ _); reflexivity.
Qed.

(** The scan stops at the first comment on the head commit; the logged
    slice that can raise there comes after the flag is set. *)
Lemma scan_review_comments_pending sha cs l :
  let l' := fst (scan_review_comments sha cs l) in
  copilot_has_reviewed l' = copilot_has_reviewed l /\
  (has_pending_suggestions l' = true <->
   has_pending_suggestions l = true \/ exists c, c ∈ cs /\ on_head_commit sha c).
Proof.
  induction cs as [|c cs IH]; simpl.
  - split; [reflexivity|]. split; [auto|]. intros [H|(c & Hc & _)]; [exact H|inversion Hc].
  - destruct (truthy_str (ReviewComment.commit_id c) &&
              negb (or_empty (ReviewComment.commit_id c) =? sha)%string) eqn:E.
    + destruct IH as [IH1 IH2]. split; [exact IH1|]. rewrite IH2.
      apply andb_true_iff in E as [E1 E2]. apply negb_true_iff, String.eqb_neq in E2.
      split; intros [H|(c' & Hc' & Hon)]; auto; right.
      * exists c'. split; [apply list_elem_of_further, Hc'|exact Hon].
      * apply elem_of_cons in Hc' as [->|Hc']; [|eauto].
        exfalso. destruct Hon as [H|[H|H]]; rewrite H in *; simpl in *;
          try discriminate. contradiction.
    + unfold bind, assign, lift.
      assert (Hon : on_head_commit sha c).
      { unfold on_head_commit. destruct (ReviewComment.commit_id c) as [s|]; [|auto].
        simpl in E. destruct (String.eqb_spec s ""); [subst; auto|]. simpl in E.
        apply negb_false_iff, String.eqb_eq in E. subst. auto. }
      destruct (ReviewComment.body c); simpl; (split; [reflexivity|]);
        (split; [intros _; right; exists c; split; [apply list_elem_of_here|exact Hon]
                |reflexivity]).
Qed.

(** X2. A PR that is neither merged nor closed, whose latest review gives
    no verdict, and that Copilot has reviewed, is classified
    CHANGES_REQUESTED exactly when the review comments can be listed and
    one of them sits on the head commit or names no commit; otherwise, a
    failed listing included, it is APPROVED or, within the grace period,
    REVIEW_REQUESTED, and never DRAFT or OPEN. *)
Theorem reviewed_pr_needs_changes_iff_commented_on_head
    (timeline : result TimelineResponse.t) (now : datetime) (pr : PullRequest.t)
    (info : PRInfo.t) :
  _to_pr_info timeline now pr = Ok info ->
  PullRequest.merged pr = false ->
  PullRequest.state pr <> "closed" ->
  PRInfo.review_state info <> Some "APPROVED" ->
  PRInfo.review_state info <> Some "CHANGES_REQUESTED" ->
  PRInfo.copilot_has_reviewed info = true ->
  (PRInfo.state info = PRState.CHANGES_REQUESTED <->
   exists comments c,
     PullRequest.get_review_comments pr = Ok comments /\
     c ∈ comments /\ on_head_commit (PullRequest.head_sha pr) c) /\
  (PRInfo.state info = PRState.CHANGES_REQUESTED \/
   PRInfo.state info = PRState.APPROVED \/
   PRInfo.state info = PRState.REVIEW_REQUESTED).
Proof.
  unfold _to_pr_info.
  destruct (PullRequest.get_reviews pr) as [reviews|]; simpl; [|discriminate].
  destruct (PullRequest.get_review_requests pr) as [rq|]; simpl; [|discriminate].
  intros [= <-]. simpl. intros Hm Hc Ha Hcr.
  set (l2 := try_except (detection2 pr) (try_except (detection1 timeline now) initial_locals)).
  assert (Hp2 : has_pending_suggestions l2 = false).
  { subst l2. rewrite detection2_pending, detection1_pending. reflexivity. }
  set (l3 := if existsb has_review_signature reviews
             then set_copilot_has_reviewed true l2 else l2).
  assert (Hp3 : has_pending_suggestions l3 = false).
  { subst l3. destruct (existsb _ _); exact Hp2. }
  clearbody l3. clear Hp2 l2.
  set (l4 := if copilot_has_reviewed l3
             then try_except (pending_check pr (PullRequest.head_sha pr)) l3 else l3).
  assert (H4 : copilot_has_reviewed l4 = copilot_has_reviewed l3 /\
               (has_pending_suggestions l4 = true <->
                copilot_has_reviewed l3 = true /\
                exists comments c,
                  PullRequest.get_review_comments pr = Ok comments /\
                  c ∈ comments /\ on_head_commit (PullRequest.head_sha pr) c)).
  { subst l4. destruct (copilot_has_reviewed l3) eqn:Hr.
    - unfold try_except, pending_check, bind, lift.
      destruct (PullRequest.get_review_comments pr) as [cs|e]; simpl.
      + destruct (scan_review_comments_pending (PullRequest.head_sha pr) cs l3) as [H1 H2].
        simpl in H1, H2. split; [congruence|]. rewrite H2, Hp3.
        split.
        * intros [H|(c & Hin & Hon)]; [discriminate|]. split; [reflexivity|]. eauto.
        * intros (_ & cs' & c & [= <-] & Hin & Hon). eauto.
      + split; [exact Hr|]. rewrite Hp3. split; [discriminate|].
        intros (_ & ? & ? & Hx & _). discriminate Hx.
    - split; [exact Hr|]. rewrite Hp3. split; [discriminate|]. intros [Hx _]. discriminate. }
  clearbody l4. destruct H4 as [Hr4 Hp4]. intros Hrev.
  unfold resolve_state. rewrite Hm.
  replace (PullRequest.state pr =? "closed")%string with false
    by (symmetry; apply String.eqb_neq, Hc).
  assert (Hv1 : is_verdict (option_map Review.state (last reviews)) "APPROVED" = false).
  { unfold is_verdict. destruct (option_map _ _) as [r|]; [|reflexivity].
    apply String.eqb_neq. congruence. }
  assert (Hv2 : is_verdict (option_map Review.state (last reviews)) "CHANGES_REQUESTED" = false).
  { unfold is_verdict. destruct (option_map _ _) as [r|]; [|reflexivity].
    apply String.eqb_neq. congruence. }
  rewrite Hv1, Hv2, Hrev. simpl.
  destruct (has_pending_suggestions l4) eqn:Hp; simpl.
  - split; [|auto]. split; [intros _|reflexivity].
    destruct (proj1 Hp4 eq_refl) as [_ H]. exact H.
  - split.
    + split.
      * destruct (copilot_work_just_finished l4); discriminate.
      * intros H. exfalso. assert (false = true); [|discriminate].
        apply Hp4. split; [congruence|exact H].
    + destruct (copilot_work_just_finished l4); auto.
Qed.

Lemma reviewed_pr_needs_changes_iff_commented_on_head_witness :
  exists info,
    _to_pr_info (timeline_of []) (utc noon) commented_pr = Ok info /\
    PRInfo.copilot_has_reviewed info = true /\
    PRInfo.state info = PRState.CHANGES_REQUESTED.
Proof.
  eexists. split; [vm_compute; reflexivity|]. split; [reflexivity|].
  apply (proj2 (proj1 (reviewed_pr_needs_changes_iff_commented_on_head
                         (timeline_of []) (utc noon) commented_pr _ eq_refl eq_refl
                         ltac:(discriminate) ltac:(discriminate) ltac:(discriminate)
                         eq_refl))).
  eexists _, _. split; [reflexivity|].
  split; [apply list_elem_of_further, list_elem_of_here|].
  right. right. reflexivity.
Defined.

(** ** Linked issue *)

Lemma string_app_nil_r (s : string) : s +:+ "" = s.
Proof.
  induction s as [|c s IH]; [reflexivity|].
  change (String c (s +:+ "") = String c s). f_equal. exact IH.
Qed.

Lemma string_app_assoc (a b c : string) : (a +:+ b) +:+ c = a +:+ (b +:+ c).
Proof.
  induction a as [|x a IH]; [reflexivity|].
  change (String x ((a +:+ b) +:+ c) = String x (a +:+ (b +:+ c))). f_equal. exact IH.
Qed.

Lemma string_app_cons (x : ascii) (a b : string) : String x a +:+ b = String x (a +:+ b).
Proof. reflexivity. Qed.

Lemma leading_bytes_spec s c rest :
  leading_bytes s = Some (c, rest) ->
  s = c +:+ rest /\ forall post, leading_bytes (c +:+ post) = Some (c, post).
Proof.
  unfold leading_bytes.
  destruct s as [|b0 s0]; [discriminate|].
  destruct (byte b0 <? 128)%N eqn:E0.
  { intros [= <- <-]. split; [reflexivity|]. intros post. simpl. rewrite E0. reflexivity. }
  destruct (byte b0 <? 224)%N eqn:E1.
  { destruct s0 as [|b1 s1]; [discriminate|].
    destruct (continuation b1) eqn:C1; [|discriminate].
    intros [= <- <-]. split; [reflexivity|]. intros post. simpl.
    rewrite E0, E1, C1. reflexivity. }
  destruct (byte b0 <? 240)%N eqn:E2.
  { destruct s0 as [|b1 [|b2 s2]]; try discriminate.
    destruct (continuation b1 && continuation b2) eqn:C; [|discriminate].
    intros [= <- <-]. split; [reflexivity|]. intros post. simpl.
    rewrite E0, E1, E2, C. reflexivity. }
  destruct s0 as [|b1 [|b2 [|b3 s3]]]; try discriminate.
  destruct (continuation b1 && continuation b2 && continuation b3) eqn:C; [|discriminate].
  intros [= <- <-]. split; [reflexivity|]. intros post. simpl.
  rewrite E0, E1, E2, C. reflexivity.
Qed.

(** The first character of a text is settled by its own bytes. *)
Lemma take_char_spec s c rest :
  take_char s = Some (c, rest) <-> take_char c = Some (c, "") /\ s = c +:+ rest.
Proof.
  unfold take_char. split.
  - destruct (leading_bytes s) as [[c' rest']|] eqn:E; [|discriminate].
    destruct (well_encoded c') eqn:W; [|discriminate]. intros [= <- <-].
    apply leading_bytes_spec in E as [-> H]. split; [|reflexivity].
    specialize (H ""). rewrite string_app_nil_r in H. rewrite H, W. reflexivity.
  - intros [H ->].
    destruct (leading_bytes c) as [[c' rest']|] eqn:E; [|discriminate].
    destruct (well_encoded c') eqn:W; [|discriminate]. injection H as -> ->.
    apply leading_bytes_spec in E as [_ E]. rewrite E, W. reflexivity.
Qed.

Lemma take_digit_spec s d rest :
  take_digit s = Some (d, rest) <-> decimal_digit d /\ s = d +:+ rest.
Proof.
  unfold take_digit, decimal_digit. split.
  - destruct (take_char s) as [[c r]|] eqn:E; [|discriminate].
    destruct (is_decimal (code_point c)) eqn:D; [|discriminate]. intros [= <- <-].
    apply take_char_spec in E as [E ->]. auto.
  - intros [[H D] ->].
    assert (E : take_char (d +:+ rest) = Some (d, rest)) by (apply take_char_spec; auto).
    rewrite E, D. reflexivity.
Qed.

Lemma match_tc_spec s m :
  match_tc s = Some m <-> tc_shaped m /\ exists post, s = m +:+ post.
Proof.
  unfold match_tc, tc_shaped. split.
  - destruct s as [|t [|c [|h1 [|u [|h2 rest]]]]]; try discriminate.
    destruct (_ && _) eqn:E; [|discriminate].
    destruct (take_digit rest) as [[d1 rest1]|] eqn:D1; [|discriminate].
    destruct (take_digit rest1) as [[d2 post]|] eqn:D2; [|discriminate].
    intros [= <-].
    repeat (apply andb_true_iff in E as [E ?]).
    apply Ascii.eqb_eq in E.
    repeat match goal with
           | H : Ascii.eqb _ _ = true |- _ => apply Ascii.eqb_eq in H
           end.
    subst.
    apply take_digit_spec in D1 as [H1 ->]. apply take_digit_spec in D2 as [H2 ->].
    split; [exists u, d1, d2; auto|]. exists post.
    rewrite !string_app_cons, string_app_assoc. reflexivity.
  - intros [(u & d1 & d2 & -> & Hu & H1 & H2) [post ->]].
    rewrite !string_app_cons, string_app_assoc. cbv beta iota.
    rewrite !Ascii.eqb_refl, Hu. cbn [andb].
    assert (E1 : take_digit (d1 +:+ (d2 +:+ post)) = Some (d1, d2 +:+ post))
      by (apply take_digit_spec; auto).
    assert (E2 : take_digit (d2 +:+ post) = Some (d2, post))
      by (apply take_digit_spec; auto).
    rewrite E1, E2. reflexivity.
Qed.

Lemma tc_shaped_nonempty m : tc_shaped m -> exists c rest, m = String c rest.
Proof. intros (u & d1 & d2 & -> & _). eauto. Qed.

(** The digits of an id need not be ASCII: here they are ARABIC-INDIC
    DIGIT ONE and TWO, and the id they end is the leftmost one. *)
Lemma arabic_indic_digits_make_an_id :
  re_search_tc
    ("see TC-A-" +:+ String "217" (String "161" (String "217" (String "162" " and TC-B-07"))))
  = Some ("TC-A-" +:+ String "217" (String "161" (String "217" (String "162" "")))).
Proof. reflexivity. Qed.

Lemma re_search_tc_spec s :
  match re_search_tc s with
  | Some m => exists pre, first_id_of s pre m
  | None => no_id_in s
  end.
Proof.
  induction s as [|c s IH].
  - simpl. intros pre m post Hm H.
    destruct (tc_shaped_nonempty m Hm) as (c & rest & ->).
    destruct pre; discriminate H.
  - cbn [re_search_tc]. destruct (match_tc (String c s)) as [m|] eqn:E.
    + apply match_tc_spec in E as [Hm [post Hs]].
      exists "". split; [exact Hm|]. split; [exists post; exact Hs|].
      intros. simpl. lia.
    + destruct (re_search_tc s) as [m|].
      * destruct IH as (pre & Hm & [post Hs] & Hfirst).
        exists (String c pre). split; [exact Hm|]. split.
        { exists post. simpl. rewrite Hs. reflexivity. }
        intros pre' m' post' Hm' Hs'. destruct pre' as [|c' pre'].
        { exfalso. simpl in Hs'.
          assert (match_tc (String c s) = Some m'); [|congruence].
          apply match_tc_spec. split; [exact Hm'|]. exists post'. exact Hs'. }
        simpl in Hs'. injection Hs' as -> Hs'. simpl.
        specialize (Hfirst pre' m' post' Hm' Hs'). lia.
      * intros pre m post Hm Hs. destruct pre as [|c' pre].
        { simpl in Hs.
          assert (match_tc (String c s) = Some m); [|congruence].
          apply match_tc_spec. split; [exact Hm|]. exists post. exact Hs. }
        simpl in Hs. injection Hs as -> Hs. exact (IH pre m post Hm Hs).
Qed.

(** X3. [linked_issue] is the leftmost issue id (TC, dash, capital letter
    A to Z, dash, two decimal digits of any script) of the PR body, and is
    absent exactly when the body is missing or holds no such id; the
    [issue_id] of an issue is the leftmost id of its title in the same
    way. *)
Theorem linked_issue_is_the_first_id_in_the_body
    (timeline : result TimelineResponse.t) (now : datetime) (pr : PullRequest.t)
    (info : PRInfo.t) :
  _to_pr_info timeline now pr = Ok info ->
  match PRInfo.linked_issue info with
  | Some m => exists body pre, PullRequest.body pr = Some body /\ first_id_of body pre m
  | None => forall body, PullRequest.body pr = Some body -> no_id_in body
  end /\
  forall issue : IssueInfo.t,
    match issue_id issue with
    | Some m => exists pre, first_id_of (IssueInfo.title issue) pre m
    | None => no_id_in (IssueInfo.title issue)
    end.
Proof.
  intros H. split; [|intros issue; apply re_search_tc_spec].
  revert H. unfold _to_pr_info.
  destruct (PullRequest.get_reviews pr) as [reviews|]; simpl; [|discriminate].
  destruct (PullRequest.get_review_requests pr) as [rq|]; simpl; [|discriminate].
  intros [= <-]. simpl.
  destruct (PullRequest.body pr) as [body|]; simpl; [|discriminate].
  destruct (String.eqb_spec body "") as [->|Hne]; simpl.
  - intros body [= <-]. apply (re_search_tc_spec "").
  - pose proof (re_search_tc_spec body) as H.
    destruct (re_search_tc body) as [m|].
    + destruct H as [pre H]. eauto.
    + intros b [= <-]. exact H.
Qed.

Lemma linked_issue_is_the_first_id_in_the_body_witness :
  exists info,
    _to_pr_info (timeline_of []) (utc noon) (sample_pr (Ok []) (Ok []) (Ok []) (Ok []))
      = Ok info /\
    PRInfo.linked_issue info = Some "TC-A-01" /\
    exists body pre,
      PullRequest.body (sample_pr (Ok []) (Ok []) (Ok []) (Ok [])) = Some body /\
      first_id_of body pre "TC-A-01".
Proof.
  eexists. split; [vm_compute; reflexivity|]. split; [reflexivity|].
  exact (proj1 (linked_issue_is_the_first_id_in_the_body (timeline_of []) (utc noon)
                  (sample_pr (Ok []) (Ok []) (Ok []) (Ok [])) _ eq_refl)).
Defined.

(** ** Search of the PR of an issue *)

(** X4. [get_pr_by_issue] classifies the first open PR of the listing
    whose title or body contains the issue id, and a failure of that
    classification is its failure; what the listing holds or does after
    that PR is never looked at; a listing that ends without such a PR gives
    [None], and one that fails before such a PR fails the search. *)
Theorem get_pr_by_issue_takes_the_first_mention
    (timeline : Z -> result TimelineResponse.t) (now : datetime) (issue_id : string)
    (before : list PullRequest.t) (pr : PullRequest.t) (rest : PaginatedList PullRequest.t)
    (e : exn) :
  Forall (fun p => mentions issue_id p = false) before ->
  (mentions issue_id pr = true ->
   get_pr_by_issue timeline now issue_id (listed before (page_item pr rest)) =
   match _to_pr_info (timeline (PullRequest.number pr)) now pr with
   | Ok info => Ok (Some info)
   | Raise ex => Raise ex
   end) /\
  get_pr_by_issue timeline now issue_id (listed before page_end) = Ok None /\
  get_pr_by_issue timeline now issue_id (listed before (page_error e)) = Raise e.
Proof.
  intros Hb. induction Hb as [|p before Hp Hb IH]; simpl.
  - split; [|auto]. intros ->. destruct (_to_pr_info _ _ _); reflexivity.
  - rewrite Hp. exact IH.
Qed.

Lemma get_pr_by_issue_takes_the_first_mention_witness :
  Forall (fun p => mentions "TC-A-01" p = false) [unrelated_pr] /\
  get_pr_by_issue (fun _ => timeline_of []) (utc noon) "TC-A-01"
    (listed [unrelated_pr]
       (page_item (sample_pr (Ok []) (Ok []) (Ok []) (Ok [])) (page_error ServiceError))) =
  match _to_pr_info (timeline_of []) (utc noon) (sample_pr (Ok []) (Ok []) (Ok []) (Ok []))
  with
  | Ok info => Ok (Some info)
  | Raise ex => Raise ex
  end.
Proof.
  assert (H : Forall (fun p => mentions "TC-A-01" p = false) [unrelated_pr])
    by (repeat constructor).
  split; [exact H|].
  exact (proj1 (get_pr_by_issue_takes_the_first_mention (fun _ => timeline_of []) (utc noon)
                  "TC-A-01" [unrelated_pr] (sample_pr (Ok []) (Ok []) (Ok []) (Ok []))
                  (page_error ServiceError) ServiceError H) eq_refl).
Defined.

(* ===================================================================== *)
(** * Further properties of the queue                                     *)
(* ===================================================================== *)

(** ** Start-up *)

(** X5. The queue that [_initialize_queue] builds from the configuration
    written by [_sync_queue_to_config] has the ids of the queue that was
    synced, in the same order; every item starts QUEUED without PR, with
    the issue number and title that the configuration maps its id to. *)
Theorem queue_order_survives_restart (self : AutomationEngine.t)
    (titles : gmap string string) :
  let self' :=
    AutomationEngine._initialize_queue titles (AutomationEngine._sync_queue_to_config self) in
  queue_ids self' = queue_ids self /\
  Forall (fun item =>
            QueueItem.state item = WorkflowState.QUEUED /\
            QueueItem.pr_number item = None /\
            QueueItem.issue_number item =
              AutomationEngine._issue_numbers self !! QueueItem.issue_id item /\
            QueueItem.issue_title item = titles !! QueueItem.issue_id item)
         (AutomationEngine.queue self').
Proof.
  intros self'. subst self'. unfold queue_ids, AutomationEngine._initialize_queue. simpl.
  split.
  - rewrite <- list_fmap_compose.
    induction (AutomationEngine.queue self) as [|x q IH]; [reflexivity|].
    simpl. f_equal; [|exact IH].
    destruct (_ !! _), (_ !! _); reflexivity.
  - apply Forall_fmap, Forall_fmap, Forall_forall. intros x _. simpl.
    destruct (AutomationEngine._issue_numbers self !! QueueItem.issue_id x) eqn:E1;
      destruct (titles !! QueueItem.issue_id x) eqn:E2; simpl; rewrite ?E1, ?E2; auto.
Qed.

(** ** Index search *)

Lemma find_index_Some p k q i :
  AutomationEngine.find_index p k q = Some i ->
  (k <= i)%nat /\
  exists item, q !! (i - k)%nat = Some item /\ p i item = true /\
    forall j item', (j < i - k)%nat -> q !! j = Some item' -> p (k + j)%nat item' = false.
Proof.
  revert k. induction q as [|x q IH]; intros k; simpl; [discriminate|].
  destruct (p k x) eqn:E.
  - intros [= <-]. split; [lia|]. exists x. rewrite Nat.sub_diag. simpl.
    repeat split; auto. intros j item' Hj. lia.
  - intros H. apply IH in H as (Hle & item & Hi & Hp & Hbefore).
    split; [lia|]. exists item.
    replace (i - k)%nat with (S (i - S k)) by lia. simpl.
    repeat split; auto. intros [|j] item' Hj; simpl.
    + intros [= <-]. rewrite Nat.add_0_r. exact E.
    + intros Hq. replace (k + S j)%nat with (S k + j)%nat by lia.
      apply Hbefore; [lia|exact Hq].
Qed.

Lemma find_index_None p k q :
  AutomationEngine.find_index p k q = None ->
  forall j item, q !! j = Some item -> p (k + j)%nat item = false.
Proof.
  revert k. induction q as [|x q IH]; intros k; simpl; [intros _ j item H; inversion H|].
  destruct (p k x) eqn:E; [discriminate|].
  intros H [|j] item; simpl.
  - intros [= <-]. rewrite Nat.add_0_r. exact E.
  - intros Hq. replace (k + S j)%nat with (S k + j)%nat by lia. eapply IH; eauto.
Qed.

Lemma find_index_first p k q j item :
  q !! j = Some item -> p (k + j)%nat item = true ->
  (forall j' item', (j' < j)%nat -> q !! j' = Some item' -> p (k + j')%nat item' = false) ->
  AutomationEngine.find_index p k q = Some (k + j)%nat.
Proof.
  intros Hq Hp Hbefore.
  destruct (AutomationEngine.find_index p k q) as [i|] eqn:E.
  - apply find_index_Some in E as (Hle & it & Hi & Hpi & Hb).
    destruct (Nat.lt_trichotomy (i - k) j) as [H|[H|H]].
    + specialize (Hbefore _ _ H Hi). replace (k + (i - k))%nat with i in Hbefore by lia.
      congruence.
    + f_equal. lia.
    + specialize (Hb _ _ H Hq). congruence.
  - pose proof (find_index_None _ _ _ E _ _ Hq). congruence.
Qed.

Lemma ids_lookup (q : list QueueItem.t) i item :
  q !! i = Some item -> (QueueItem.issue_id <$> q) !! i = Some (QueueItem.issue_id item).
Proof. intros H. rewrite list_lookup_fmap, H. reflexivity. Qed.

Lemma has_id_true issue_id item :
  AutomationEngine.has_id issue_id item = true <-> QueueItem.issue_id item = issue_id.
Proof. unfold AutomationEngine.has_id. apply String.eqb_eq. Qed.

Lemma has_id_false issue_id item :
  AutomationEngine.has_id issue_id item = false <-> QueueItem.issue_id item <> issue_id.
Proof. unfold AutomationEngine.has_id. apply String.eqb_neq. Qed.

Lemma unique_id (q : list QueueItem.t) i j a b :
  NoDup (QueueItem.issue_id <$> q) ->
  q !! i = Some a -> q !! j = Some b ->
  QueueItem.issue_id a = QueueItem.issue_id b -> i = j.
Proof.
  intros Hnd Hi Hj E. eapply NoDup_lookup; [exact Hnd| |].
  - apply ids_lookup, Hi.
  - rewrite E. apply ids_lookup, Hj.
Qed.

(** ** Insertion *)

(** X6. For an id that is not in the queue, [add_item] returns true and
    puts the new QUEUED item at index [position] when that is an index of
    the queue, and at the end otherwise (a negative position included); the
    other items keep their order, the configuration lists the new queue,
    and [remove_item] of the same id gives the old queue back. *)
Theorem add_item_honours_position (self : AutomationEngine.t) (issue_id : string)
    (position : Z) :
  issue_id ∉ queue_ids self ->
  let q := AutomationEngine.queue self in
  let k := if (0 <=? position) && (position <? Z.of_nat (List.length q))
           then Z.to_nat position else List.length q in
  let added := AutomationEngine.add_item issue_id position self in
  fst added = true /\
  (exists item,
     AutomationEngine.queue (snd added) !! k = Some item /\
     QueueItem.issue_id item = issue_id /\
     QueueItem.state item = WorkflowState.QUEUED /\
     QueueItem.pr_number item = None /\
     QueueItem.issue_number item = AutomationEngine._issue_numbers self !! issue_id) /\
  delete k (AutomationEngine.queue (snd added)) = q /\
  Config.issue_queue (AutomationEngine.config (snd added)) = queue_ids (snd added) /\
  fst (AutomationEngine.remove_item issue_id (snd added)) = true /\
  AutomationEngine.queue (snd (AutomationEngine.remove_item issue_id (snd added))) = q.
Proof.
  intros Hfresh q k added.
  set (item := match AutomationEngine._issue_numbers self !! issue_id with
               | Some n => QueueItem.set_issue_number (Some n) (QueueItem.new issue_id)
               | None => QueueItem.new issue_id
               end).
  assert (Hitem : QueueItem.issue_id item = issue_id /\
                  QueueItem.state item = WorkflowState.QUEUED /\
                  QueueItem.pr_number item = None /\
                  QueueItem.issue_number item = AutomationEngine._issue_numbers self !! issue_id).
  { subst item. destruct (_ !! _); auto. }
  assert (Hq' : AutomationEngine.queue (snd added) = (take k q ++ item :: drop k q)%list /\
                fst added = true /\
                Config.issue_queue (AutomationEngine.config (snd added)) = queue_ids (snd added)).
  { subst added. unfold AutomationEngine.add_item.
    destruct (existsb _ _) eqn:E.
    { apply existsb_has_id in E. contradiction. }
    fold item. fold q. subst k.
    destruct (Z.ltb_spec position 0) as [Hneg|Hpos]; simpl.
    - replace (0 <=? position) with false by (symmetry; apply Z.leb_gt; lia). simpl.
      rewrite firstn_all, drop_all. auto.
    - replace (0 <=? position) with true by (symmetry; apply Z.leb_le; lia). simpl.
      destruct (Z.leb_spec (Z.of_nat (List.length q)) position) as [Hbig|Hin]; simpl.
      + replace (position <? Z.of_nat (List.length q)) with false
          by (symmetry; apply Z.ltb_ge; lia).
        rewrite firstn_all, drop_all. auto.
      + replace (position <? Z.of_nat (List.length q)) with true
          by (symmetry; apply Z.ltb_lt; lia).
        auto. }
  destruct Hq' as (Hq' & Hok & Hcfg).
  assert (Hk : (k <= List.length q)%nat).
  { subst k. destruct (_ && _) eqn:E; [|lia].
    apply andb_true_iff in E as [_ E]. apply Z.ltb_lt in E. lia. }
  assert (Hlen : List.length (take k q) = k) by (rewrite length_take; lia).
  assert (Hat : AutomationEngine.queue (snd added) !! k = Some item).
  { rewrite Hq'. rewrite lookup_app_r by lia. rewrite Hlen, Nat.sub_diag. reflexivity. }
  assert (Hdel : delete k (AutomationEngine.queue (snd added)) = q).
  { rewrite Hq'. rewrite <- Hlen at 1. rewrite delete_middle. apply take_drop. }
  split; [exact Hok|]. split; [exists item; tauto|]. split; [exact Hdel|].
  split; [exact Hcfg|].
  assert (Hfind : AutomationEngine.find_index
                    (fun _ it => AutomationEngine.has_id issue_id it) 0
                    (AutomationEngine.queue (snd added)) = Some k).
  { apply (find_index_first _ 0%nat _ k item Hat).
    - apply has_id_true. tauto.
    - intros j' item' Hj' Hl. apply has_id_false. intros Hid.
      apply Hfresh. unfold queue_ids. fold q.
      rewrite Hq' in Hl. rewrite lookup_app_l in Hl by lia.
      apply lookup_take_Some in Hl as [Hl _].
      apply list_elem_of_fmap. exists item'. split; [auto|].
      eapply list_elem_of_lookup_2, Hl. }
  unfold AutomationEngine.remove_item. rewrite Hfind. simpl. auto.
Qed.

Lemma third_id_is_new : "TC-A-03" ∉ queue_ids (engine two_queued).
Proof.
  change ("TC-A-03" ∉ ["TC-A-01"; "TC-A-02"]). intros H.
  apply elem_of_cons in H as [H|H]; [discriminate H|].
  apply elem_of_cons in H as [H|H]; [discriminate H|]. inversion H.
Defined.

Lemma add_item_honours_position_witness :
  ("TC-A-03" ∉ queue_ids (engine two_queued)) /\
  queue_ids (snd (AutomationEngine.add_item "TC-A-03" 1 (engine two_queued))) =
    ["TC-A-01"; "TC-A-03"; "TC-A-02"] /\
  delete 1%nat
    (AutomationEngine.queue (snd (AutomationEngine.add_item "TC-A-03" 1 (engine two_queued))))
    = AutomationEngine.queue (engine two_queued).
Proof.
  split; [exact third_id_is_new|]. split; [reflexivity|].
  exact (proj1 (proj2 (proj2 (add_item_honours_position (engine two_queued) "TC-A-03" 1
                                third_id_is_new)))).
Defined.

(** ** Moves *)

Lemma swap_swap (q : list QueueItem.t) i j :
  AutomationEngine.swap j i (AutomationEngine.swap i j q) = q.
Proof.
  unfold AutomationEngine.swap.
  destruct (q !! i) as [a|] eqn:Hi.
  2:{ simpl. destruct (q !! j); rewrite ?Hi; reflexivity. }
  destruct (q !! j) as [b|] eqn:Hj.
  2:{ rewrite Hj. reflexivity. }
  pose proof (lookup_lt_Some _ _ _ Hi) as Li. pose proof (lookup_lt_Some _ _ _ Hj) as Lj.
  assert (E1 : <[i:=b]> (<[j:=a]> q) !! j = Some (if decide (i = j) then b else a)).
  { destruct (decide (i = j)) as [->|Hne].
    - rewrite list_lookup_insert_eq; [reflexivity|]. rewrite length_insert. exact Lj.
    - rewrite list_lookup_insert_ne by exact Hne.
      rewrite list_lookup_insert_eq; [reflexivity|exact Lj]. }
  assert (E2 : <[i:=b]> (<[j:=a]> q) !! i = Some b).
  { rewrite list_lookup_insert_eq; [reflexivity|]. rewrite length_insert. exact Li. }
  rewrite E1, E2.
  apply list_eq. intros k.
  destruct (decide (k = j)) as [->|Hkj].
  - rewrite list_lookup_insert_eq by (rewrite !length_insert; exact Lj).
    destruct (decide (i = j)) as [->|Hne]; congruence.
  - rewrite list_lookup_insert_ne by congruence.
    destruct (decide (k = i)) as [->|Hki].
    + rewrite list_lookup_insert_eq by (rewrite !length_insert; exact Li).
      destruct (decide (i = j)); congruence.
    + rewrite !list_lookup_insert_ne by congruence. reflexivity.
Qed.

Lemma swap_lookup (q : list QueueItem.t) i j a b k :
  q !! i = Some a -> q !! j = Some b -> i <> j ->
  AutomationEngine.swap i j q !! k =
  if decide (k = i) then Some b else if decide (k = j) then Some a else q !! k.
Proof.
  intros Hi Hj Hne. unfold AutomationEngine.swap. rewrite Hi, Hj.
  pose proof (lookup_lt_Some _ _ _ Hi) as Li. pose proof (lookup_lt_Some _ _ _ Hj) as Lj.
  destruct (decide (k = i)) as [->|Hki].
  - rewrite list_lookup_insert_eq; [reflexivity|]. rewrite length_insert. exact Li.
  - rewrite list_lookup_insert_ne by congruence.
    destruct (decide (k = j)) as [->|Hkj].
    + rewrite list_lookup_insert_eq; [reflexivity|exact Lj].
    + rewrite list_lookup_insert_ne by congruence. reflexivity.
Qed.

Lemma swap_length (q : list QueueItem.t) i j :
  List.length (AutomationEngine.swap i j q) = List.length q.
Proof.
  unfold AutomationEngine.swap. destruct (q !! i), (q !! j); rewrite ?length_insert; reflexivity.
Qed.

Lemma move_item_up_inv issue_id self :
  fst (AutomationEngine.move_item_up issue_id self) = true ->
  exists i a b,
    (0 < i)%nat /\ AutomationEngine.queue self !! i = Some a /\
    AutomationEngine.queue self !! (i - 1)%nat = Some b /\
    QueueItem.issue_id a = issue_id /\
    AutomationEngine.queue (snd (AutomationEngine.move_item_up issue_id self)) =
      AutomationEngine.swap i (i - 1) (AutomationEngine.queue self).
Proof.
  unfold AutomationEngine.move_item_up.
  destruct (AutomationEngine.find_index _ _ _) as [i|] eqn:E; simpl; [|discriminate].
  intros _. apply find_index_Some in E as (_ & a & Hi & Hp & _).
  rewrite Nat.sub_0_r in Hi. apply andb_true_iff in Hp as [Hid Hpos].
  apply Nat.ltb_lt in Hpos. apply has_id_true in Hid.
  destruct (lookup_lt_is_Some_2 (AutomationEngine.queue self) (i - 1)) as [b Hb].
  { apply lookup_lt_Some in Hi. lia. }
  exists i, a, b. auto.
Qed.

Lemma move_item_down_inv issue_id self :
  fst (AutomationEngine.move_item_down issue_id self) = true ->
  exists i a b,
    AutomationEngine.queue self !! i = Some a /\
    AutomationEngine.queue self !! (i + 1)%nat = Some b /\
    QueueItem.issue_id a = issue_id /\
    AutomationEngine.queue (snd (AutomationEngine.move_item_down issue_id self)) =
      AutomationEngine.swap i (i + 1) (AutomationEngine.queue self).
Proof.
  unfold AutomationEngine.move_item_down.
  destruct (AutomationEngine.find_index _ _ _) as [i|] eqn:E; simpl; [|discriminate].
  intros _. apply find_index_Some in E as (_ & a & Hi & Hp & _).
  rewrite Nat.sub_0_r in Hi. apply andb_true_iff in Hp as [Hid Hpos].
  apply Nat.ltb_lt in Hpos. apply has_id_true in Hid.
  destruct (lookup_lt_is_Some_2 (AutomationEngine.queue self) (i + 1)) as [b Hb]; [exact Hpos|].
  exists i, a, b. auto.
Qed.

Lemma move_item_up_head (self : AutomationEngine.t) (issue_id : string) :
  NoDup (queue_ids self) ->
  queue_ids self !! 0%nat = Some issue_id ->
  AutomationEngine.move_item_up issue_id self = (false, self).
Proof.
  intros Hnd H0.
  destruct (fst (AutomationEngine.move_item_up issue_id self)) eqn:E.
  - destruct (move_item_up_inv _ _ E) as (i & a & b & Hpos & Hi & _ & Hid & _).
    exfalso. unfold queue_ids in *. rewrite list_lookup_fmap in H0.
    destruct (AutomationEngine.queue self !! 0%nat) as [h|] eqn:Hh; [|discriminate].
    injection H0 as H0.
    assert (i = 0%nat); [|lia].
    eapply (unique_id _ _ _ _ _ Hnd Hi Hh). congruence.
  - revert E. unfold AutomationEngine.move_item_up.
    destruct (AutomationEngine.find_index _ _ _); simpl; [discriminate|reflexivity].
Qed.

Lemma move_item_down_last (self : AutomationEngine.t) (issue_id : string) :
  NoDup (queue_ids self) ->
  last (queue_ids self) = Some issue_id ->
  AutomationEngine.move_item_down issue_id self = (false, self).
Proof.
  intros Hnd H0.
  destruct (fst (AutomationEngine.move_item_down issue_id self)) eqn:E.
  - destruct (move_item_down_inv _ _ E) as (i & a & b & Hi & Hb & Hid & _).
    exfalso. unfold queue_ids in *. rewrite fmap_last in H0.
    destruct (last (AutomationEngine.queue self)) as [h|] eqn:Hh; [|discriminate].
    injection H0 as H0. rewrite last_lookup in Hh.
    assert (i = Nat.pred (List.length (AutomationEngine.queue self))).
    { eapply (unique_id _ _ _ _ _ Hnd Hi Hh). congruence. }
    apply lookup_lt_Some in Hb. lia.
  - revert E. unfold AutomationEngine.move_item_down.
    destruct (AutomationEngine.find_index _ _ _); simpl; [discriminate|reflexivity].
Qed.

(** X7. On a queue with pairwise distinct ids, a [move_item_up] that
    returns true takes the item one place toward the head and the
    [move_item_down] of the same id then restores the queue, and the other
    way round; moving the head item up, or the last item down, returns
    false and changes nothing. *)
Theorem move_up_and_down_undo_each_other (self : AutomationEngine.t) (issue_id : string) :
  NoDup (queue_ids self) ->
  (fst (AutomationEngine.move_item_up issue_id self) = true ->
   let up := snd (AutomationEngine.move_item_up issue_id self) in
   (exists i, (0 < i)%nat /\ queue_ids self !! i = Some issue_id /\
              queue_ids up !! (i - 1)%nat = Some issue_id) /\
   fst (AutomationEngine.move_item_down issue_id up) = true /\
   AutomationEngine.queue (snd (AutomationEngine.move_item_down issue_id up)) =
     AutomationEngine.queue self) /\
  (fst (AutomationEngine.move_item_down issue_id self) = true ->
   let down := snd (AutomationEngine.move_item_down issue_id self) in
   (exists i, queue_ids self !! i = Some issue_id /\
              queue_ids down !! (i + 1)%nat = Some issue_id) /\
   fst (AutomationEngine.move_item_up issue_id down) = true /\
   AutomationEngine.queue (snd (AutomationEngine.move_item_up issue_id down)) =
     AutomationEngine.queue self) /\
  (queue_ids self !! 0%nat = Some issue_id ->
   AutomationEngine.move_item_up issue_id self = (false, self)) /\
  (last (queue_ids self) = Some issue_id ->
   AutomationEngine.move_item_down issue_id self = (false, self)).
Proof.
  intros Hnd0. pose proof Hnd0 as Hnd. unfold queue_ids in Hnd.
  split; [|split; [|split; [apply move_item_up_head, Hnd0
                            |apply move_item_down_last, Hnd0]]].
  - intros Hup up.
    destruct (move_item_up_inv _ _ Hup) as (i & a & b & Hpos & Hi & Hb & Hid & Hq).
    fold up in Hq.
    assert (Hne : i <> (i - 1)%nat) by lia.
    assert (Hl : forall k, AutomationEngine.queue up !! k =
              if decide (k = i) then Some b else if decide (k = (i - 1)%nat) then Some a
              else AutomationEngine.queue self !! k).
    { intros k. rewrite Hq. apply swap_lookup; assumption. }
    split.
    { exists i. split; [exact Hpos|]. unfold queue_ids. split.
      - rewrite <- Hid. apply ids_lookup, Hi.
      - rewrite <- Hid. apply ids_lookup. rewrite Hl.
        destruct (decide ((i - 1)%nat = i)); [lia|].
        destruct (decide ((i - 1)%nat = (i - 1)%nat)); [reflexivity|contradiction]. }
    assert (Hfind : AutomationEngine.find_index
              (fun j item => AutomationEngine.has_id issue_id item &&
                             (j + 1 <? List.length (AutomationEngine.queue up))%nat)
              0 (AutomationEngine.queue up) = Some (i - 1)%nat).
    { apply (find_index_first _ 0%nat _ (i - 1)%nat a).
      - rewrite Hl. destruct (decide ((i - 1)%nat = i)); [lia|].
        destruct (decide ((i - 1)%nat = (i - 1)%nat)); [reflexivity|contradiction].
      - apply andb_true_iff. split; [apply has_id_true, Hid|].
        apply Nat.ltb_lt. rewrite Hq, swap_length. apply lookup_lt_Some in Hi. simpl. lia.
      - intros j' item' Hj' Hl'. apply andb_false_iff. left. apply has_id_false.
        rewrite Hl in Hl'.
        destruct (decide (j' = i)); [lia|]. destruct (decide (j' = (i - 1)%nat)); [lia|].
        intros E. assert (j' = i); [|lia].
        eapply (unique_id _ _ _ _ _ Hnd Hl' Hi). congruence. }
    unfold AutomationEngine.move_item_down. rewrite Hfind. simpl.
    split; [reflexivity|]. rewrite Hq.
    replace (i - 1 + 1)%nat with i by lia. apply swap_swap.
  - intros Hdown down.
    destruct (move_item_down_inv _ _ Hdown) as (i & a & b & Hi & Hb & Hid & Hq).
    fold down in Hq.
    assert (Hne : i <> (i + 1)%nat) by lia.
    assert (Hl : forall k, AutomationEngine.queue down !! k =
              if decide (k = i) then Some b else if decide (k = (i + 1)%nat) then Some a
              else AutomationEngine.queue self !! k).
    { intros k. rewrite Hq. apply swap_lookup; assumption. }
    assert (Hat : AutomationEngine.queue down !! (i + 1)%nat = Some a).
    { rewrite Hl. destruct (decide ((i + 1)%nat = i)); [lia|].
      destruct (decide ((i + 1)%nat = (i + 1)%nat)); [reflexivity|contradiction]. }
    split.
    { exists i. unfold queue_ids. split.
      - rewrite <- Hid. apply ids_lookup, Hi.
      - rewrite <- Hid. apply ids_lookup, Hat. }
    assert (Hfind : AutomationEngine.find_index
              (fun j item => AutomationEngine.has_id issue_id item && (0 <? j)%nat)
              0 (AutomationEngine.queue down) = Some (i + 1)%nat).
    { apply (find_index_first _ 0%nat _ (i + 1)%nat a Hat).
      - apply andb_true_iff. split; [apply has_id_true, Hid|]. apply Nat.ltb_lt. simpl. lia.
      - intros j' item' Hj' Hl'. apply andb_false_iff. left. apply has_id_false.
        rewrite Hl in Hl'. intros E.
        destruct (decide (j' = i)) as [->|Hji].
        + injection Hl' as <-. assert ((i + 1)%nat = i); [|lia].
          eapply (unique_id _ _ _ _ _ Hnd Hb Hi). congruence.
        + destruct (decide (j' = (i + 1)%nat)); [lia|].
          assert (j' = i); [|lia].
          eapply (unique_id _ _ _ _ _ Hnd Hl' Hi). congruence. }
    unfold AutomationEngine.move_item_up. rewrite Hfind. simpl.
    split; [reflexivity|]. rewrite Hq.
    replace (i + 1 - 1)%nat with i by lia. apply swap_swap.
Qed.

Lemma move_up_and_down_undo_each_other_witness :
  NoDup (queue_ids (engine two_queued)) /\
  AutomationEngine.move_item_up "TC-A-01" (engine two_queued) = (false, engine two_queued) /\
  AutomationEngine.queue
    (snd (AutomationEngine.move_item_down "TC-A-02"
            (snd (AutomationEngine.move_item_up "TC-A-02" (engine two_queued)))))
    = AutomationEngine.queue (engine two_queued).
Proof.
  split; [exact two_queued_ids_distinct|].
  pose proof (move_up_and_down_undo_each_other (engine two_queued) "TC-A-01"
                two_queued_ids_distinct) as H1.
  pose proof (move_up_and_down_undo_each_other (engine two_queued) "TC-A-02"
                two_queued_ids_distinct) as H2.
  split.
  - exact (proj1 (proj2 (proj2 H1)) eq_refl).
  - exact (proj2 (proj2 (proj1 H2 eq_refl))).
Defined.

(** ** Status summary *)

Lemma filter_three_way {A} (p q r : A -> bool) (l : list A) :
  (forall x, (p x && negb (q x) && negb (r x)) ||
             (negb (p x) && q x && negb (r x)) ||
             (negb (p x) && negb (q x) && r x) = true) ->
  (List.filter p l ++ List.filter q l ++ List.filter r l)%list ≡ₚ l.
Proof.
  intros H. induction l as [|x l IH]; [reflexivity|]. simpl.
  specialize (H x).
  destruct (p x), (q x), (r x); simpl in H; try discriminate; simpl.
  - f_equiv. exact IH.
  - rewrite <- Permutation_middle. f_equiv. exact IH.
  - rewrite app_assoc, <- Permutation_middle, <- app_assoc. f_equiv. exact IH.
Qed.

(** X8. The three lists of [get_current_status] split the queue: every
    item is in exactly one of "in progress", "queued" and "completed", so
    their lengths add up to the total; and the count of items in progress
    that the daemon logs, taken over an explicit list of seven states,
    agrees with that of the engine, taken over the complement of three. *)
Theorem status_partitions_the_queue (self : AutomationEngine.t) (is_running : bool)
    (last_check : option datetime) (errors : list string) :
  let st := AutomationEngine.get_current_status is_running last_check errors self in
  (AutomationEngine.Status.in_progress st ++ AutomationEngine.Status.queued st ++
   AutomationEngine.Status.completed st)%list ≡ₚ AutomationEngine.queue self /\
  AutomationEngine.Status.total st =
    (List.length (AutomationEngine.Status.in_progress st) +
     List.length (AutomationEngine.Status.queued st) +
     List.length (AutomationEngine.Status.completed st))%nat /\
  logged_queue_status (AutomationEngine.queue self) =
    (AutomationEngine.Status.total st,
     List.length (AutomationEngine.Status.in_progress st),
     List.length (AutomationEngine.Status.queued st),
     List.length (AutomationEngine.Status.completed st)).
Proof.
  intros st.
  assert (Hperm : (AutomationEngine.Status.in_progress st ++ AutomationEngine.Status.queued st ++
   AutomationEngine.Status.completed st)%list ≡ₚ AutomationEngine.queue self).
  { apply filter_three_way. intros x. destruct (QueueItem.state x); reflexivity. }
  split; [exact Hperm|]. split.
  - simpl. rewrite <- Hperm at 1. rewrite !length_app. simpl. lia.
  - unfold logged_queue_status. simpl.
    erewrite (List.filter_ext _ (fun i => negb _)); [reflexivity|].
    intros x. destruct (QueueItem.state x); reflexivity.
Qed.

(* ===================================================================== *)
(** * Further properties of the status refresh                            *)
(* ===================================================================== *)

Ltac refresh_cases :=
  repeat match goal with
         | |- context [match ?o with Some _ => _ | None => _ end] => destruct o eqn:?; simpl
         | |- context [if ?b then _ else _] => destruct b eqn:?; simpl
         | |- context [match ?r with Ok _ => _ | Raise _ => _ end] => destruct r eqn:?; simpl
         end.

(** X9. With the issue found: a closed issue makes the item COMPLETED,
    whatever its state, without any PR being looked up; a QUEUED item whose
    issue is open and unassigned stays QUEUED, again without PR lookup; and
    the refresh of an item fails only when the PR search by issue id fails,
    which happens only for an item without PR number and leaves its state
    as it was. *)
Theorem refresh_short_cuts (self : AutomationEngine.t) (w : Answers.t)
    (item : QueueItem.t) (issue : IssueInfo.t) :
  AutomationEngine.client self = true ->
  finds_issue w issue ->
  let r := AutomationEngine._update_item_status self w item in
  (IssueInfo.state issue = IssueState.CLOSED ->
   QueueItem.state (fst r) = WorkflowState.COMPLETED /\
   QueueItem.pr_number (fst r) = QueueItem.pr_number item /\
   snd r = Ok tt) /\
  (IssueInfo.state issue = IssueState.OPEN ->
   QueueItem.state item = WorkflowState.QUEUED ->
   QueueItem.state (fst r) = WorkflowState.QUEUED /\
   QueueItem.pr_number (fst r) = QueueItem.pr_number item /\
   snd r = Ok tt) /\
  (forall e, snd r = Raise e ->
   Answers.get_pr_by_issue w = Raise e /\
   truthy_int (QueueItem.pr_number item) = false /\
   QueueItem.state (fst r) = QueueItem.state item /\
   QueueItem.pr_number (fst r) = QueueItem.pr_number item).
Proof.
  intros Hc [H1 H2] r. subst r.
  unfold AutomationEngine._update_item_status. rewrite Hc. cbn [negb].
  unfold bind, get, ret, assign, pass, lift. rewrite H1, H2.
  destruct issue as [inum ititle ist iasg], item as [id st num title prn la lat].
  cbn [IssueInfo.state QueueItem.state QueueItem.pr_number].
  split; [|split].
  - intros ->. refresh_cases; auto.
  - intros -> ->. refresh_cases; auto.
  - intros e. destruct ist, st; refresh_cases; intros [= <-]; auto.
Qed.

Lemma refresh_short_cuts_witness :
  AutomationEngine.client (sample_engine []) = true /\
  finds_issue issue_closed (sample_issue 11 IssueState.CLOSED) /\
  QueueItem.state
    (fst (AutomationEngine._update_item_status (sample_engine []) issue_closed
            (sample_item "TC-A-01" WorkflowState.REVIEWING (Some 11) (Some 42))))
    = WorkflowState.COMPLETED.
Proof.
  assert (H : finds_issue issue_closed (sample_issue 11 IssueState.CLOSED))
    by (split; reflexivity).
  split; [reflexivity|]. split; [exact H|].
  exact (proj1 (proj1 (refresh_short_cuts (sample_engine []) issue_closed
                         (sample_item "TC-A-01" WorkflowState.REVIEWING (Some 11) (Some 42))
                         (sample_issue 11 IssueState.CLOSED) eq_refl H) eq_refl)).
Defined.

(** X10. When the issue is found and no PR is, neither by number nor by
    search, the refresh succeeds, keeps the PR number of the item, and sets
    its state by the issue alone: COMPLETED for a closed issue, ASSIGNED for
    one with an assignee (whatever state the item was in, an item with a PR
    under review included), and the state it had for an open one. *)
Theorem refresh_without_a_pr (self : AutomationEngine.t) (w : Answers.t)
    (item : QueueItem.t) (issue : IssueInfo.t) :
  AutomationEngine.client self = true ->
  finds_issue w issue ->
  finds_no_pr w ->
  let r := AutomationEngine._update_item_status self w item in
  snd r = Ok tt /\
  QueueItem.pr_number (fst r) = QueueItem.pr_number item /\
  QueueItem.state (fst r) =
    match IssueInfo.state issue with
    | IssueState.CLOSED => WorkflowState.COMPLETED
    | IssueState.IN_PROGRESS => WorkflowState.ASSIGNED
    | IssueState.OPEN => QueueItem.state item
    end.
Proof.
  intros Hc [H1 H2] [H3 H4] r. subst r.
  unfold AutomationEngine._update_item_status. rewrite Hc. cbn [negb].
  unfold bind, get, ret, assign, pass, lift. rewrite H1, H2, H3, H4.
  destruct issue as [inum ititle ist iasg], item as [id st num title prn la lat].
  cbn [IssueInfo.state QueueItem.state QueueItem.pr_number].
  destruct ist, st; refresh_cases; auto.
Qed.

Lemma refresh_without_a_pr_witness :
  AutomationEngine.client (sample_engine []) = true /\
  finds_issue pr_not_found (sample_issue 11 IssueState.IN_PROGRESS) /\
  finds_no_pr pr_not_found /\
  QueueItem.state
    (fst (AutomationEngine._update_item_status (sample_engine []) pr_not_found
            (sample_item "TC-A-01" WorkflowState.APPROVED (Some 11) (Some 42))))
    = WorkflowState.ASSIGNED.
Proof.
  assert (H1 : finds_issue pr_not_found (sample_issue 11 IssueState.IN_PROGRESS))
    by (split; reflexivity).
  assert (H2 : finds_no_pr pr_not_found) by (split; reflexivity).
  split; [reflexivity|]. split; [exact H1|]. split; [exact H2|].
  exact (proj2 (proj2 (refresh_without_a_pr (sample_engine []) pr_not_found
                         (sample_item "TC-A-01" WorkflowState.APPROVED (Some 11) (Some 42))
                         (sample_issue 11 IssueState.IN_PROGRESS) eq_refl H1 H2))).
Defined.

(** X11. An item with a PR number whose PR is fetched and classified
    CLOSED (closed without a merge) goes back to QUEUED and loses its PR
    number, provided the issue is not closed and the item is not a QUEUED
    one with an open, unassigned issue (which is left alone before any PR
    is fetched). *)
Theorem closed_pr_requeues_the_item (self : AutomationEngine.t) (w : Answers.t)
    (item : QueueItem.t) (issue : IssueInfo.t) (pr : PRInfo.t) :
  AutomationEngine.client self = true ->
  finds_issue w issue ->
  IssueInfo.state issue <> IssueState.CLOSED ->
  (QueueItem.state item = WorkflowState.QUEUED ->
   IssueInfo.state issue = IssueState.IN_PROGRESS) ->
  Answers.get_pr_by_number w = Some pr ->
  truthy_int (QueueItem.pr_number item) = true ->
  PRInfo.state pr = PRState.CLOSED ->
  let r := AutomationEngine._update_item_status self w item in
  QueueItem.state (fst r) = WorkflowState.QUEUED /\
  QueueItem.pr_number (fst r) = None /\
  snd r = Ok tt.
Proof.
  intros Hc [H1 H2] Hopen Hq H3 Hp Hs r. subst r.
  unfold AutomationEngine._update_item_status. rewrite Hc. cbn [negb].
  unfold bind, get, ret, assign, pass, lift. rewrite H1, H2, H3, Hp.
  unfold AutomationEngine.apply_pr_status. rewrite Hs.
  destruct issue as [inum ititle ist iasg], item as [id st num title prn la lat].
  cbn [IssueInfo.state QueueItem.state QueueItem.pr_number] in *.
  destruct ist, st; try congruence; try (specialize (Hq eq_refl); discriminate Hq);
    refresh_cases; auto.
Qed.

Lemma closed_pr_requeues_the_item_witness :
  finds_issue pr_closed (sample_issue 11 IssueState.IN_PROGRESS) /\
  fst (AutomationEngine._update_item_status (sample_engine []) pr_closed
         (sample_item "TC-A-01" WorkflowState.REVIEWING (Some 11) (Some 42)))
    = sample_item "TC-A-01" WorkflowState.QUEUED (Some 11) None.
Proof.
  assert (H : finds_issue pr_closed (sample_issue 11 IssueState.IN_PROGRESS))
    by (split; reflexivity).
  split; [exact H|].
  pose proof (closed_pr_requeues_the_item (sample_engine []) pr_closed
                (sample_item "TC-A-01" WorkflowState.REVIEWING (Some 11) (Some 42))
                (sample_issue 11 IssueState.IN_PROGRESS)
                (sample_info PRState.CLOSED false [])
                eq_refl H ltac:(discriminate) ltac:(discriminate) eq_refl eq_refl eq_refl)
    as _.
  reflexivity.
Defined.

(* ===================================================================== *)
(** * Further properties of the engine's own state machine                *)
(* ===================================================================== *)

Lemma na_lookup_update_item i f self :
  engine_item_at i (NextAction.update_item i f self) = f <$> engine_item_at i self.
Proof.
  unfold engine_item_at, NextAction.update_item.
  destruct (NextAction.queue self !! i) as [item|] eqn:E; simpl.
  - unfold NextAction.queue in *. simpl. rewrite list_lookup_insert_eq; [reflexivity|].
    eapply lookup_lt_Some, E.
  - rewrite E. reflexivity.
Qed.

Lemma na_lookup_transition i s text now self :
  engine_item_at i (NextAction.transition i s text now self) =
  (fun item => QueueItem.set_last_action text now (QueueItem.set_state s item)) <$>
    engine_item_at i self.
Proof. apply na_lookup_update_item. Qed.

Lemma na_lookup_send i r self :
  engine_item_at i (NextAction.send r self) = engine_item_at i self.
Proof. reflexivity. Qed.

Lemma na_lookup_update_item_ne i j f self :
  j <> i ->
  engine_item_at j (NextAction.update_item i f self) = engine_item_at j self.
Proof.
  intros Hne. unfold engine_item_at, NextAction.update_item.
  destruct (NextAction.queue self !! i) as [item|] eqn:E; simpl; [|reflexivity].
  unfold NextAction.queue in *. simpl. apply list_lookup_insert_ne. congruence.
Qed.

Ltac na_prelude Hi :=
  unfold NextAction.then_, NextAction.review_requested_steps, NextAction.reviewing_steps,
    NextAction.changes_requested_steps, NextAction.applying_changes_steps,
    NextAction.approved_steps, NextAction.queued_steps, NextAction.with_item,
    NextAction.perform, NextAction.falls_through, NextAction.returns, state_is;
  unfold NextAction.then_; unfold NextAction.queue in Hi |- *.

Ltac na_walk Hi w leaf :=
  repeat first
    [ leaf
    | progress (rewrite ?Hi;
        cbn [NextAction.engine NextAction.send QueueItem.state QueueItem.pr_number
             QueueItem.issue_number QueueItem.issue_id WorkflowState.eqb andb];
        cbv beta iota)
    | match goal with
      | |- context [match truthy_number ?x with _ => _ end] =>
          destruct (truthy_number x) eqn:?
      | |- context [match Answers.get_pr_by_number w with _ => _ end] =>
          destruct (Answers.get_pr_by_number w) eqn:?
      | |- context [if ?b then _ else _] => destruct b eqn:?
      end ].

Ltac na_item_simpl :=
  repeat first
    [ rewrite na_lookup_transition
    | rewrite na_lookup_update_item
    | rewrite na_lookup_send ].

Ltac na_step_leaf Hi' :=
  idtac;
  lazymatch goal with
  | |- ex (fun item1 => engine_item_at _ (fst (_, _)) = Some item1 /\ @?P item1) =>
      cbn [fst]; na_item_simpl; rewrite Hi'; eexists; split; [reflexivity|];
      split; [repeat split|]; cbn;
      first [ left; reflexivity | right; reflexivity ]
  end.

(** X12. One call of [_get_next_action] on an item leaves its issue id,
    issue number, title and PR number as they were, and either keeps its
    state or moves it along one of the eight edges REVIEW_REQUESTED ->
    REVIEWING, REVIEWING -> CHANGES_REQUESTED | APPROVED, CHANGES_REQUESTED
    -> APPLYING_CHANGES, APPLYING_CHANGES -> APPROVED | REVIEWING, APPROVED
    -> MERGED, QUEUED -> ASSIGNED; whatever the client answers. *)
Theorem engine_follows_its_state_machine (w : Answers.t) (now : Z) (i : nat)
    (self : NextAction.t) (item0 : QueueItem.t) :
  engine_item_at i self = Some item0 ->
  exists item1,
    engine_item_at i (fst (NextAction._get_next_action w now i self)) = Some item1 /\
    engine_step_allowed item0 item1.
Proof.
  intros Hi'. pose proof Hi' as Hi. unfold engine_item_at in Hi.
  unfold NextAction._get_next_action.
  destruct (AutomationEngine.client (NextAction.engine self)); cbn [negb]; cbv beta iota.
  2:{ unfold NextAction.returns. cbv beta iota. na_step_leaf Hi'. }
  destruct item0 as [id st num title prn la lat].
  na_prelude Hi.
  destruct st; na_walk Hi w ltac:(na_step_leaf Hi').
Qed.

Lemma engine_follows_its_state_machine_witness :
  engine_item_at 0
    (sample_run [sample_item "TC-A-01" WorkflowState.CHANGES_REQUESTED (Some 11) (Some 42)])
    = Some (sample_item "TC-A-01" WorkflowState.CHANGES_REQUESTED (Some 11) (Some 42)) /\
  exists item1,
    engine_item_at 0
      (fst (NextAction._get_next_action changes_wanted 0 0
              (sample_run [sample_item "TC-A-01" WorkflowState.CHANGES_REQUESTED
                             (Some 11) (Some 42)]))) = Some item1 /\
    engine_step_allowed
      (sample_item "TC-A-01" WorkflowState.CHANGES_REQUESTED (Some 11) (Some 42)) item1.
Proof.
  split; [reflexivity|].
  exact (engine_follows_its_state_machine changes_wanted 0 0
           (sample_run [sample_item "TC-A-01" WorkflowState.CHANGES_REQUESTED
                          (Some 11) (Some 42)])
           _ eq_refl).
Defined.

(** X13. With a client and the PR of the item fetched: while the PR
    reports the agent as working, a REVIEWING or APPLYING_CHANGES item is
    left exactly as it is, nothing is sent and no action is reported; once
    the agent is no longer working, a REVIEWING item always leaves
    REVIEWING in the same call, for CHANGES_REQUESTED or APPROVED, and an
    action is reported. *)
Theorem engine_waits_while_the_agent_works (w : Answers.t) (now : Z) (i : nat)
    (self : NextAction.t) (item0 : QueueItem.t) (n : Z) (pr : PRInfo.t) :
  AutomationEngine.client (NextAction.engine self) = true ->
  engine_item_at i self = Some item0 ->
  truthy_number (QueueItem.pr_number item0) = Some n ->
  Answers.get_pr_by_number w = Some pr ->
  let r := NextAction._get_next_action w now i self in
  (PRInfo.copilot_is_working pr = true ->
   QueueItem.state item0 = WorkflowState.REVIEWING \/
   QueueItem.state item0 = WorkflowState.APPLYING_CHANGES ->
   r = (self, None)) /\
  (PRInfo.copilot_is_working pr = false ->
   QueueItem.state item0 = WorkflowState.REVIEWING ->
   is_Some (snd r) /\
   exists item1, engine_item_at i (fst r) = Some item1 /\
     (QueueItem.state item1 = WorkflowState.CHANGES_REQUESTED \/
      QueueItem.state item1 = WorkflowState.APPROVED)).
Proof.
  intros Hc Hi' Hn Hpr r. subst r. pose proof Hi' as Hi. unfold engine_item_at in Hi.
  unfold NextAction._get_next_action. rewrite Hc. cbn [negb]. cbv beta iota.
  destruct item0 as [id st num title prn la lat].
  cbn [QueueItem.pr_number QueueItem.state] in *.
  na_prelude Hi. split.
  - intros Hw [-> | ->];
      repeat (rewrite ?Hi, ?Hn, ?Hpr, ?Hw;
              cbn [NextAction.engine NextAction.send QueueItem.state QueueItem.pr_number
                   QueueItem.issue_number QueueItem.issue_id WorkflowState.eqb andb];
              cbv beta iota); reflexivity.
  - intros Hw ->.
    repeat (rewrite ?Hi, ?Hn, ?Hpr, ?Hw;
            cbn [NextAction.engine NextAction.send QueueItem.state QueueItem.pr_number
                 QueueItem.issue_number QueueItem.issue_id WorkflowState.eqb andb];
            cbv beta iota).
    destruct (PRState.eqb (PRInfo.state pr) PRState.CHANGES_REQUESTED);
      [|destruct (PRState.eqb (PRInfo.state pr) PRState.APPROVED);
        [|destruct (PRInfo.is_draft pr)]];
      cbv beta iota; cbn [fst snd]; (split; [eexists; reflexivity|]);
      na_item_simpl; rewrite Hi'; eexists; (split; [reflexivity|]); cbn; auto.
Qed.

Lemma engine_waits_while_the_agent_works_witness :
  AutomationEngine.client
    (NextAction.engine
       (sample_run [sample_item "TC-A-01" WorkflowState.REVIEWING (Some 11) (Some 42)]))
    = true /\
  NextAction._get_next_action agent_at_work 0 0
    (sample_run [sample_item "TC-A-01" WorkflowState.REVIEWING (Some 11) (Some 42)]) =
  (sample_run [sample_item "TC-A-01" WorkflowState.REVIEWING (Some 11) (Some 42)], None).
Proof.
  split; [reflexivity|].
  exact (proj1 (engine_waits_while_the_agent_works agent_at_work 0 0
                  (sample_run [sample_item "TC-A-01" WorkflowState.REVIEWING
                                 (Some 11) (Some 42)])
                  _ 42 _ eq_refl eq_refl eq_refl eq_refl)
           eq_refl (or_introl eq_refl)).
Defined.

(** A visit that reports no action leaves the engine as it was. *)
Lemma na_quiet_visit w now i self :
  truthy_str (snd (NextAction._get_next_action w now i self)) = false ->
  NextAction.engine (fst (NextAction._get_next_action w now i self)) = NextAction.engine self.
Proof.
  unfold NextAction._get_next_action.
  destruct (AutomationEngine.client (NextAction.engine self)); cbn [negb]; cbv beta iota;
    [|reflexivity].
  destruct (NextAction.queue self !! i) as [item0|] eqn:Hi.
  2:{ unfold NextAction.then_, NextAction.review_requested_steps, NextAction.with_item.
      rewrite Hi. reflexivity. }
  destruct item0 as [id st num title prn la lat].
  na_prelude Hi.
  destruct st;
    na_walk Hi w ltac:(idtac;
      lazymatch goal with
      | |- truthy_str (snd (_, _)) = false -> _ =>
          cbn [fst snd]; first [ intros _; reflexivity | cbn; intros H; discriminate H ]
      end).
Qed.

(** A visit of item [i] leaves every other item alone. *)
Lemma na_visit_frame w now i j self :
  j <> i ->
  engine_item_at j (fst (NextAction._get_next_action w now i self)) = engine_item_at j self.
Proof.
  intros Hne. unfold NextAction._get_next_action.
  destruct (AutomationEngine.client (NextAction.engine self)); cbn [negb]; cbv beta iota;
    [|reflexivity].
  destruct (NextAction.queue self !! i) as [item0|] eqn:Hi.
  2:{ unfold NextAction.then_, NextAction.review_requested_steps, NextAction.with_item.
      rewrite Hi. reflexivity. }
  destruct item0 as [id st num title prn la lat].
  na_prelude Hi.
  destruct st;
    na_walk Hi w ltac:(idtac;
      lazymatch goal with
      | |- engine_item_at _ (fst (_, _)) = _ =>
          cbn [fst]; unfold NextAction.transition;
          rewrite ?na_lookup_update_item_ne by exact Hne; reflexivity
      end).
Qed.

Lemma first_action_acts_on_one_item (answers : nat -> Answers.t) (now : Z)
    (items : list nat) (self : NextAction.t) :
  let r := NextAction.first_action answers now items self in
  (snd r = None -> NextAction.engine (fst r) = NextAction.engine self) /\
  exists k, forall j, j <> k -> engine_item_at j (fst r) = engine_item_at j self.
Proof.
  revert self. induction items as [|i items IH]; intros self; simpl.
  - split; [reflexivity|]. exists 0%nat. reflexivity.
  - pose proof (na_quiet_visit (answers i) now i self) as Hq.
    pose proof (fun j => na_visit_frame (answers i) now i j self) as Hf.
    destruct (NextAction._get_next_action (answers i) now i self) as [self' action].
    simpl in Hq, Hf.
    destruct (truthy_str action) eqn:Ht; simpl.
    + split; [intros ->; discriminate Ht|]. exists i. exact Hf.
    + destruct (IH self') as [IH1 [k IH2]]. specialize (Hq eq_refl).
      split.
      * intros Hn. rewrite (IH1 Hn). exact Hq.
      * exists k. intros j Hj. rewrite (IH2 j Hj).
        unfold engine_item_at, NextAction.queue. rewrite Hq. reflexivity.
Qed.

(** X14. After its status refresh, [process_next_action] changes at most
    one queue item, however many it visits, and when it returns no action
    the engine is exactly the refreshed one.  When the refresh raises, the
    call raises the same exception, visits no item and sends nothing. *)
Theorem process_next_action_acts_on_one_item (refresh_answers answers : nat -> Answers.t)
    (now : Z) (self : NextAction.t) :
  let refreshed :=
    {| NextAction.engine :=
         fst (AutomationEngine.refresh_status refresh_answers (NextAction.engine self));
       NextAction.sent := NextAction.sent self |} in
  let r := NextAction.process_next_action refresh_answers answers now self in
  (snd r = Ok None -> NextAction.engine (fst r) = NextAction.engine refreshed) /\
  (exists k, forall j, j <> k -> engine_item_at j (fst r) = engine_item_at j refreshed) /\
  (forall ex,
     snd (AutomationEngine.refresh_status refresh_answers (NextAction.engine self)) =
       Raise ex ->
     r = (refreshed, Raise ex)).
Proof.
  intros refreshed r. subst refreshed r. unfold NextAction.process_next_action.
  destruct (AutomationEngine.client (NextAction.engine self)) eqn:Hc; cbn [negb].
  2:{ unfold AutomationEngine.refresh_status. rewrite Hc. simpl.
      split; [reflexivity|]. split; [exists 0%nat; reflexivity|]. discriminate. }
  destruct (AutomationEngine.refresh_status refresh_answers (NextAction.engine self))
    as [e [u|ex]]; cbn [fst snd].
  - match goal with
    | |- context [NextAction.first_action ?a ?t ?l ?s] =>
        pose proof (first_action_acts_on_one_item a t l s) as [H1 H2];
        destruct (NextAction.first_action a t l s) as [self' action]
    end.
    simpl in *. split; [|split].
    + intros [= ->]. auto.
    + exact H2.
    + discriminate.
  - split; [discriminate|]. split; [exists 0%nat; reflexivity|].
    intros ex' [= <-]. reflexivity.
Qed.

(* ===================================================================== *)
(** * Further properties of the daemon's records                          *)
(* ===================================================================== *)

(** [str] on integers is injective: the keys of the review tracker tell
    PR numbers apart. *)
Lemma str_inj a b : str a = str b -> a = b.
Proof.
  unfold str. intros H. apply DecimalZ.to_int_inj.
  assert (Hnn : forall z, Z.to_int z <> Decimal.Pos Decimal.Nil /\
                          Z.to_int z <> Decimal.Neg Decimal.Nil).
  { intros [|p|p]; simpl; split; try discriminate;
      intros [= E]; exact (DecimalPos.Unsigned.to_uint_nonnil p E). }
  assert (E : Some (Z.to_int a) = Some (Z.to_int b)).
  { rewrite <- (NilZero.isi (Z.to_int a)), <- (NilZero.isi (Z.to_int b));
      try apply Hnn. rewrite H. reflexivity. }
  injection E as E. exact E.
Qed.

Lemma is_review_done_mark self n m issue_id now :
  ReviewTracker.is_review_done (ReviewTracker.mark_review_done n issue_id now self) m =
  (m =? n) || ReviewTracker.is_review_done self m.
Proof.
  unfold ReviewTracker.is_review_done, ReviewTracker.mark_review_done.
  simpl. destruct (Z.eqb_spec m n) as [->|Hne]; simpl.
  - rewrite lookup_insert_eq. reflexivity.
  - assert (Hs : str n <> str m) by (intros H; apply Hne; symmetry; apply str_inj, H).
    rewrite lookup_insert_ne by exact Hs. reflexivity.
Qed.

Lemma is_review_done_clear self n m :
  ReviewTracker.is_review_done (ReviewTracker.clear_pr n self) m =
  negb (m =? n) && ReviewTracker.is_review_done self m.
Proof.
  unfold ReviewTracker.clear_pr, ReviewTracker.is_review_done.
  destruct (Z.eqb_spec m n) as [->|Hne]; simpl.
  - destruct (ReviewTracker.review_completed_prs self !! str n) eqn:E; simpl.
    + rewrite lookup_delete_eq. reflexivity.
    + rewrite E. reflexivity.
  - assert (Hs : str n <> str m) by (intros H; apply Hne; symmetry; apply str_inj, H).
    destruct (ReviewTracker.review_completed_prs self !! str n) eqn:E; simpl.
    + rewrite lookup_delete_ne by exact Hs. reflexivity.
    + reflexivity.
Qed.

(** X15. The review tracker keeps one mark per PR number: after
    [mark_review_done n], [is_review_done m] holds exactly for [n] and for
    the PRs marked before; after [clear_pr n] it holds exactly for the PRs
    marked before other than [n]. Marking and clearing one PR never touch
    the mark of another, although the marks are keyed by the decimal text
    of the number. *)
Theorem review_marks_are_per_pr (self : ReviewTracker.t) (n m : Z)
    (issue_id : string) (now : Z) :
  ReviewTracker.is_review_done (ReviewTracker.mark_review_done n issue_id now self) m =
    (m =? n) || ReviewTracker.is_review_done self m /\
  ReviewTracker.is_review_done (ReviewTracker.clear_pr n self) m =
    negb (m =? n) && ReviewTracker.is_review_done self m /\
  ReviewTracker.is_review_done
    (ReviewTracker.clear_pr n (ReviewTracker.mark_review_done n issue_id now self)) m =
    negb (m =? n) && ReviewTracker.is_review_done self m.
Proof.
  split; [apply is_review_done_mark|]. split; [apply is_review_done_clear|].
  rewrite is_review_done_clear, is_review_done_mark.
  destruct (m =? n); reflexivity.
Qed.

(** X16. [add_event] appends the event to the history of its issue and
    keeps the last 50 events of it: the new event is always the last one,
    the history never exceeds 50 entries, nothing is dropped while fewer
    than 50 were stored, and the history of every other issue is
    untouched. *)
Theorem history_keeps_last_fifty (self : WorkflowHistory.t) (issue_id other : string)
    (event : string) (state : option string) (pr_number : option Z) (now : Z) :
  let entry := {| WorkflowHistory.timestamp := naive now; WorkflowHistory.event := event;
                  WorkflowHistory.state := state; WorkflowHistory.pr_number := pr_number |} in
  let before := WorkflowHistory.get_history self issue_id in
  let after :=
    WorkflowHistory.get_history
      (WorkflowHistory.add_event issue_id event state pr_number now self) issue_id in
  (List.length after <= 50)%nat /\
  last after = Some entry /\
  after = drop (List.length before + 1 - 50) (before ++ [entry])%list /\
  ((List.length before < 50)%nat -> after = (before ++ [entry])%list) /\
  (other <> issue_id ->
   WorkflowHistory.get_history
     (WorkflowHistory.add_event issue_id event state pr_number now self) other =
   WorkflowHistory.get_history self other).
Proof.
  intros entry before after.
  assert (Hafter : after = drop (List.length before + 1 - 50) (before ++ [entry])%list).
  { subst after. unfold WorkflowHistory.get_history, WorkflowHistory.add_event. simpl.
    rewrite lookup_insert_eq. simpl. fold entry.
    change (default [] (WorkflowHistory.issues self !! issue_id)) with before.
    unfold WorkflowHistory.MAX_EVENTS_PER_ISSUE.
    rewrite length_app. simpl.
    destruct (50 <? List.length before + 1)%nat eqn:E; [reflexivity|].
    apply Nat.ltb_ge in E. replace (List.length before + 1 - 50)%nat with 0%nat by lia.
    reflexivity. }
  split; [|split; [|split; [exact Hafter|split]]].
  - rewrite Hafter, length_drop, length_app. simpl. lia.
  - rewrite Hafter. rewrite drop_app_le by lia.
    rewrite last_app. reflexivity.
  - intros Hlt. rewrite Hafter. replace (List.length before + 1 - 50)%nat with 0%nat by lia.
    reflexivity.
  - intros Hne. unfold WorkflowHistory.get_history, WorkflowHistory.add_event. simpl.
    rewrite lookup_insert_ne by congruence. reflexivity.
Qed.

(* ===================================================================== *)
(** * Further properties of one visit of the daemon                       *)
(* ===================================================================== *)

Lemma outcome_quiet w self0 s :
  sent s = sent self0 -> visit_outcome w self0 (s, None).
Proof.
  intros E. exists []. rewrite app_nil_r. simpl. split; [exact E|]. split; [lia|].
  split; [intros [x H]; discriminate | intros (req & H & _); discriminate].
Qed.

Lemma outcome_failed w self0 s r :
  sent s = (sent self0 ++ [r])%list -> answered w r = false ->
  visit_outcome w self0 (s, None).
Proof.
  intros E Ha. exists [r]. simpl. split; [exact E|]. split; [lia|].
  split; [intros [x H]; discriminate | intros (req & [= <-] & H); congruence].
Qed.

Lemma outcome_done w self0 s r a :
  sent s = (sent self0 ++ [r])%list -> answered w r = true ->
  visit_outcome w self0 (s, Some a).
Proof.
  intros E Ha. exists [r]. simpl. split; [exact E|]. split; [lia|].
  split; [intros _; eauto | intros _; eauto].
Qed.

Ltac outcome :=
  first
    [ apply outcome_quiet; sent_simpl; reflexivity
    | eapply outcome_done; [sent_simpl; reflexivity | simpl; assumption]
    | eapply outcome_failed; [sent_simpl; reflexivity | simpl; assumption] ].

(** Case analysis of a visit: [leaf] closes the goal at the end of each
    path through the steps. *)
Ltac walk_with Hi w leaf :=
  repeat first
    [ leaf
    | progress (rewrite ?Hi;
        cbn [engine send QueueItem.state QueueItem.pr_number QueueItem.issue_number
             QueueItem.issue_id WorkflowState.eqb andb];
        cbv beta iota)
    | match goal with
      | |- context [match truthy_number ?x with _ => _ end] =>
          destruct (truthy_number x) eqn:?
      | |- context [match Answers.get_pr_by_number w with _ => _ end] =>
          destruct (Answers.get_pr_by_number w) eqn:?
      | |- context [if ?b then _ else _] => destruct b eqn:?
      end ].

Ltac visit_prelude Hi :=
  unfold then_, pr_open_steps, review_requested_steps, changes_requested_steps,
    approved_steps, queued_steps, review_done_steps, with_item, perform, falls_through,
    returns, state_is;
  unfold then_; unfold queue in Hi |- *.

Lemma visit_outcome_holds (w : Answers.t) (now : Z) (i : nat) (can : bool)
    (self : AutomationDaemon.t) :
  visit_outcome w self (_process_item_with_cooldown w now i can self).
Proof.
  unfold _process_item_with_cooldown.
  destruct (AutomationEngine.client (engine self)); simpl; [|outcome].
  unfold with_item at 1.
  destruct (queue self !! i) as [item|] eqn:Hi; [|outcome].
  destruct (review_done_pr self item) as [n|].
  { unfold review_done_steps, with_item. rewrite Hi.
    unfold then_, perform, returns, falls_through.
    destruct (Answers.get_pr_by_number w) as [pr|]; [|outcome].
    destruct (PRInfo.is_draft pr).
    { destruct (Answers.mark_pr_ready_for_review w) eqn:E; simpl; outcome. }
    destruct (_ || _).
    { destruct (auto_merge _); simpl; [|outcome].
      destruct (Answers.merge_pr w) eqn:E; simpl; outcome. }
    destruct (state_is item WorkflowState.REVIEWING); [outcome|].
    destruct (Answers.request_review_from_copilot w) eqn:E; simpl; outcome. }
  unfold then_, pr_open_steps, review_requested_steps, changes_requested_steps,
    approved_steps, queued_steps, with_item, perform, falls_through, returns, state_is.
  unfold then_. unfold queue in *.
  destruct item as [id st num title prn la lat].
  destruct st; walk_with Hi w ltac:(idtac; outcome).
Qed.

(** X17. One visit of [_process_item_with_cooldown] sends at most one
    request to GitHub, whatever the state of the item and the answers of
    the client, and it reports an action exactly when it sent a request
    and that request succeeded: a failed request is never reported, and no
    action is reported without a request. Without a client the visit does
    nothing at all. *)
Theorem visit_reports_what_it_did (w : Answers.t) (now : Z) (i : nat) (can : bool)
    (self : AutomationDaemon.t) :
  let r := _process_item_with_cooldown w now i can self in
  (exists l, sent (fst r) = (sent self ++ l)%list /\
     (List.length l <= 1)%nat /\
     (is_Some (snd r) <-> exists req, l = [req] /\ answered w req = true)) /\
  (AutomationEngine.client (engine self) = false -> r = (self, None)).
Proof.
  intros r. split.
  - exact (visit_outcome_holds w now i can self).
  - intros Hc. subst r. unfold _process_item_with_cooldown. rewrite Hc. reflexivity.
Qed.

Ltac step_leaf Hi' :=
  idtac;
  lazymatch goal with
  | |- ex (fun item1 => item_at _ (fst (_, _)) = Some item1 /\ @?P item1) =>
      cbn [fst]; item_simpl; rewrite Hi'; eexists; split; [reflexivity|];
      split; [repeat split|]; cbn;
      first [ left; reflexivity
            | right; left; split; reflexivity
            | right; right; split; [eexists; reflexivity | reflexivity] ]
  end.

(** X18. One visit leaves the issue id, issue number, title and PR number
    of its item as they were, and either keeps the state or changes it
    along an edge of the daemon's state machine: for a PR without a
    loop-breaker entry one of PR_OPEN -> REVIEW_REQUESTED, REVIEW_REQUESTED
    -> REVIEWING, CHANGES_REQUESTED -> APPLYING_CHANGES, APPROVED ->
    MERGED, QUEUED -> ASSIGNED; for a PR with an entry only into APPROVED,
    MERGED or REVIEWING. *)
Theorem visit_follows_the_state_machine (w : Answers.t) (now : Z) (i : nat) (can : bool)
    (self : AutomationDaemon.t) (item0 : QueueItem.t) :
  item_at i self = Some item0 ->
  exists item1,
    item_at i (fst (_process_item_with_cooldown w now i can self)) = Some item1 /\
    step_allowed (review_done_pr self item0) item0 item1.
Proof.
  intros Hi'. pose proof Hi' as Hi. unfold item_at in Hi.
  unfold _process_item_with_cooldown.
  destruct (AutomationEngine.client (engine self)); cbn [negb]; cbv beta iota.
  2:{ unfold returns. cbv beta iota. step_leaf Hi'. }
  unfold with_item at 1. rewrite Hi.
  destruct item0 as [id st num title prn la lat].
  destruct (review_done_pr self _) as [n|] eqn:Hdone; visit_prelude Hi.
  - walk_with Hi w ltac:(step_leaf Hi').
  - destruct st; walk_with Hi w ltac:(step_leaf Hi').
Qed.

Lemma visit_follows_the_state_machine_witness :
  item_at 0 changes_requested_42 =
    Some (sample_item "TC-A-01" WorkflowState.CHANGES_REQUESTED (Some 11) (Some 42)) /\
  exists item1,
    item_at 0 (fst (_process_item_with_cooldown changes_wanted 0 0 true
                      changes_requested_42)) = Some item1 /\
    step_allowed None
      (sample_item "TC-A-01" WorkflowState.CHANGES_REQUESTED (Some 11) (Some 42)) item1.
Proof.
  split; [reflexivity|].
  exact (visit_follows_the_state_machine changes_wanted 0 0 true changes_requested_42
           _ eq_refl).
Defined.

Lemma cooldown_update_item i f self : cooldown (update_item i f self) = cooldown self.
Proof. unfold update_item. destruct (queue self !! i); reflexivity. Qed.

Lemma cooldown_log_event i text now self : cooldown (log_event i text now self) = cooldown self.
Proof. unfold log_event. destruct (queue self !! i); reflexivity. Qed.

Lemma cooldown_record_action i text now self :
  cooldown (record_action i text now self) = cooldown self.
Proof. unfold record_action. rewrite cooldown_log_event. apply cooldown_update_item. Qed.

Lemma review_tracker_update_item i f self :
  review_tracker (update_item i f self) = review_tracker self.
Proof. unfold update_item. destruct (queue self !! i); reflexivity. Qed.

Lemma review_tracker_log_event i text now self :
  review_tracker (log_event i text now self) = review_tracker self.
Proof. unfold log_event. destruct (queue self !! i); reflexivity. Qed.

Lemma review_tracker_record_action i text now self :
  review_tracker (record_action i text now self) = review_tracker self.
Proof.
  unfold record_action. rewrite review_tracker_log_event. apply review_tracker_update_item.
Qed.

Ltac state_simpl :=
  repeat first
    [ rewrite cooldown_record_action
    | rewrite cooldown_log_event
    | rewrite cooldown_update_item
    | rewrite review_tracker_record_action
    | rewrite review_tracker_log_event
    | rewrite review_tracker_update_item
    | progress cbn [cooldown review_tracker send set_cooldown set_review_tracker] ].

Lemma contains_app_r needle a b :
  contains needle b = true -> contains needle (a +:+ b) = true.
Proof.
  intros H. induction a as [|c a IH]; simpl; [exact H|].
  rewrite IH. apply orb_true_r.
Qed.

(** X19. An item without a loop-breaker entry that is ASSIGNED, REVIEWING,
    APPLYING_CHANGES, MERGED or COMPLETED, or that is in any state but
    QUEUED and has no PR number, is left exactly as it is by a visit: the
    daemon is unchanged, nothing is sent to GitHub, and no action is
    reported, whatever the client would answer. *)
Theorem waiting_items_are_left_alone (w : Answers.t) (now : Z) (i : nat) (can : bool)
    (self : AutomationDaemon.t) (item0 : QueueItem.t) :
  item_at i self = Some item0 ->
  review_done_pr self item0 = None ->
  waiting item0 = true ->
  _process_item_with_cooldown w now i can self = (self, None).
Proof.
  intros Hi Hdone Hw. unfold item_at in Hi.
  unfold _process_item_with_cooldown.
  destruct (AutomationEngine.client (engine self)); cbn [negb]; cbv beta iota; [|reflexivity].
  unfold with_item at 1. rewrite Hi, Hdone.
  destruct item0 as [id st num title prn la lat]. unfold waiting in Hw. simpl in Hw.
  visit_prelude Hi.
  destruct st; simpl in Hw; try discriminate Hw;
    try (assert (Hp : truthy_number prn = None)
           by (unfold truthy_number; destruct (truthy_int prn); [discriminate Hw|reflexivity]);
         rewrite ?Hp);
    walk_with Hi w ltac:(idtac; first [reflexivity | discriminate]).
Qed.

Lemma waiting_items_are_left_alone_witness :
  item_at 0 reviewing_42 =
    Some (sample_item "TC-A-01" WorkflowState.REVIEWING (Some 11) (Some 42)) /\
  _process_item_with_cooldown changes_wanted 0 0 true reviewing_42 = (reviewing_42, None).
Proof.
  split; [reflexivity|].
  exact (waiting_items_are_left_alone changes_wanted 0 0 true reviewing_42
           _ eq_refl eq_refl eq_refl).
Defined.

Lemma is_review_done_clear_same self n :
  ReviewTracker.is_review_done (ReviewTracker.clear_pr n self) n = false.
Proof. rewrite is_review_done_clear, Z.eqb_refl. reflexivity. Qed.

Lemma review_done_pr_Some self item n :
  review_done_pr self item = Some n ->
  truthy_number (QueueItem.pr_number item) = Some n /\
  ReviewTracker.is_review_done (review_tracker self) n = true.
Proof.
  unfold review_done_pr. destruct (truthy_number _) as [m|]; [|discriminate].
  destruct (ReviewTracker.is_review_done _ m) eqn:E; [|discriminate].
  intros [= <-]. auto.
Qed.

Lemma review_done_pr_None self item n :
  review_done_pr self item = None ->
  truthy_number (QueueItem.pr_number item) = Some n ->
  ReviewTracker.is_review_done (review_tracker self) n = false.
Proof.
  unfold review_done_pr. intros H E. rewrite E in H.
  destruct (ReviewTracker.is_review_done _ n); [discriminate|reflexivity].
Qed.

Ltac not_merged Hi' :=
  left; cbn [fst snd]; split; [|split];
  [ intros ? Hin;
    first [ rewrite issued_nothing in Hin by (sent_simpl; reflexivity); inversion Hin
          | erewrite issued_one in Hin by (sent_simpl; reflexivity);
            apply list_elem_of_singleton in Hin;
            first [ discriminate Hin | assumption ] ]
  | state_simpl; reflexivity
  | item_simpl; rewrite Hi'; cbn; intros ? [= <-]; cbn;
    let H := fresh in intros H; first [ discriminate H | exact H | reflexivity ] ].

Ltac merged Hi' :=
  right; cbn [fst snd]; eexists;
  split; [apply issued_one; sent_simpl; reflexivity|];
  split; [assumption|];
  split; [eassumption|];
  split; [state_simpl; reflexivity|];
  split; [item_simpl; rewrite Hi'; eexists; split; reflexivity|];
  split; [state_simpl;
          first [ apply is_review_done_clear_same
                | eapply review_done_pr_None; eassumption ]|];
  eexists; split; [reflexivity|];
  repeat first [ reflexivity | apply contains_app_r ].

Ltac merge_leaf Hi' :=
  idtac;
  lazymatch goal with
  | |- merge_outcome _ _ _ _ _ (_, _) =>
      unfold merge_outcome; first [ not_merged Hi' | merged Hi' ]
  end.

Lemma visit_merge_outcome (w : Answers.t) (now : Z) (i : nat) (can : bool)
    (self : AutomationDaemon.t) (item0 : QueueItem.t) :
  item_at i self = Some item0 ->
  merge_outcome w now i self item0 (_process_item_with_cooldown w now i can self).
Proof.
  intros Hi'. pose proof Hi' as Hi. unfold item_at in Hi.
  unfold _process_item_with_cooldown.
  destruct (AutomationEngine.client (engine self)); cbn [negb]; cbv beta iota.
  2:{ unfold returns. cbv beta iota. merge_leaf Hi'. }
  unfold with_item at 1. rewrite Hi.
  destruct (review_done_pr self item0) as [n|] eqn:Hdone.
  - apply review_done_pr_Some in Hdone as [Hpn Hdone].
    destruct item0 as [id st num title prn la lat]. cbn [QueueItem.pr_number] in Hpn.
    visit_prelude Hi.
    walk_with Hi w ltac:(merge_leaf Hi').
  - destruct item0 as [id st num title prn la lat].
    visit_prelude Hi.
    destruct st; walk_with Hi w ltac:(merge_leaf Hi').
Qed.

Ltac tracker_leaf Hi' :=
  idtac;
  lazymatch goal with
  | |- tracker_outcome _ _ _ _ _ (_, _) =>
      unfold tracker_outcome; cbn [fst snd];
      first
        [ left; state_simpl; reflexivity
        | right; left; eexists;
          split; [state_simpl; reflexivity|];
          split; [eassumption|];
          split; [reflexivity|];
          split; [apply issued_one; sent_simpl; reflexivity|];
          split; [assumption|];
          item_simpl; rewrite Hi'; eexists; split; reflexivity
        | right; right; eexists;
          split; [state_simpl; reflexivity|];
          split; [eassumption|];
          split; [apply issued_one; sent_simpl; reflexivity|];
          assumption ]
  end.

Lemma visit_tracker_outcome (w : Answers.t) (now : Z) (i : nat) (can : bool)
    (self : AutomationDaemon.t) (item0 : QueueItem.t) :
  item_at i self = Some item0 ->
  tracker_outcome w now i self item0 (_process_item_with_cooldown w now i can self).
Proof.
  intros Hi'. pose proof Hi' as Hi. unfold item_at in Hi.
  unfold _process_item_with_cooldown.
  destruct (AutomationEngine.client (engine self)); cbn [negb]; cbv beta iota.
  2:{ unfold returns. cbv beta iota. tracker_leaf Hi'. }
  unfold with_item at 1. rewrite Hi.
  destruct (review_done_pr self item0) as [n|] eqn:Hdone.
  - apply review_done_pr_Some in Hdone as [Hpn Hdone].
    destruct item0 as [id st num title prn la lat]. cbn [QueueItem.pr_number] in Hpn.
    visit_prelude Hi.
    walk_with Hi w ltac:(tracker_leaf Hi').
  - destruct item0 as [id st num title prn la lat].
    visit_prelude Hi.
    destruct st; walk_with Hi w ltac:(tracker_leaf Hi').
Qed.

(** X20. A visit that sends a merge request that succeeds does all of the
    following at once: the merged PR is the one of its item, the cooldown
    manager records the completion of that item at the time of the visit,
    the item becomes MERGED, the loop-breaker entry of the PR is gone, and
    the reported action contains "cooldown started". A visit without a
    successful merge leaves the cooldown as it was and moves no item to
    MERGED. *)
Theorem merge_starts_the_cooldown (w : Answers.t) (now : Z) (i : nat) (can : bool)
    (self : AutomationDaemon.t) (item0 : QueueItem.t) :
  item_at i self = Some item0 ->
  let r := _process_item_with_cooldown w now i can self in
  (forall n, MergePR n ∈ issued self (fst r) -> Answers.merge_pr w = true ->
     truthy_number (QueueItem.pr_number item0) = Some n /\
     cooldown (fst r) =
       CooldownManager.record_completion (QueueItem.issue_id item0) now (cooldown self) /\
     (exists item1, item_at i (fst r) = Some item1 /\
                    QueueItem.state item1 = WorkflowState.MERGED) /\
     ReviewTracker.is_review_done (review_tracker (fst r)) n = false /\
     (exists a, snd r = Some a /\ contains "cooldown started" a = true)) /\
  ((forall n, MergePR n ∈ issued self (fst r) -> Answers.merge_pr w = false) ->
     cooldown (fst r) = cooldown self /\
     (forall item1, item_at i (fst r) = Some item1 ->
        QueueItem.state item1 = WorkflowState.MERGED ->
        QueueItem.state item0 = WorkflowState.MERGED)).
Proof.
  intros Hi r. subst r.
  destruct (visit_merge_outcome w now i can self item0 Hi)
    as [(Hno & Hc & Hm) | (n & Hiss & Hok & Hn & Hc & Hm & Ht & Ha)].
  - split; [|auto]. intros n Hin Hok. rewrite (Hno n Hin) in Hok. discriminate.
  - split.
    + intros m Hin _. rewrite Hiss in Hin. apply list_elem_of_singleton in Hin.
      injection Hin as ->. auto.
    + intros Hno. exfalso. specialize (Hno n). rewrite Hiss in Hno.
      rewrite Hno in Hok; [discriminate|]. apply list_elem_of_singleton. reflexivity.
Qed.

Lemma merge_starts_the_cooldown_witness :
  item_at 0 approved_then_queued =
    Some (sample_item "TC-A-01" WorkflowState.APPROVED (Some 11) (Some 42)) /\
  cooldown (fst (_process_item_with_cooldown (approved_and_ready 0) 0 0 true
                   approved_then_queued)) =
    CooldownManager.record_completion "TC-A-01" 0 (cooldown approved_then_queued).
Proof.
  split; [reflexivity|].
  assert (Hin : MergePR 42 ∈
                issued approved_then_queued
                  (fst (_process_item_with_cooldown (approved_and_ready 0) 0 0 true
                          approved_then_queued))).
  { change (MergePR 42 ∈ [MergePR 42]). apply list_elem_of_here. }
  pose proof (merge_starts_the_cooldown (approved_and_ready 0) 0 0 true
                approved_then_queued _ eq_refl) as H.
  cbv zeta in H.
  exact (proj1 (proj2 (proj1 H 42 Hin eq_refl))).
Defined.

(** X21. The loop-breaker mark of a PR changes only in two ways during a
    visit: it is set only for the PR of a CHANGES_REQUESTED item, by a
    visit whose one request is a successful "apply changes" comment on
    that PR and which moves the item to APPLYING_CHANGES; it is removed
    only for the PR of the visited item, by a visit whose one request is a
    successful merge of it. *)
Theorem review_marks_follow_apply_and_merge (w : Answers.t) (now : Z) (i : nat)
    (can : bool) (self : AutomationDaemon.t) (item0 : QueueItem.t) (m : Z) :
  item_at i self = Some item0 ->
  let r := _process_item_with_cooldown w now i can self in
  let before := ReviewTracker.is_review_done (review_tracker self) m in
  let after := ReviewTracker.is_review_done (review_tracker (fst r)) m in
  (before = false -> after = true ->
     truthy_number (QueueItem.pr_number item0) = Some m /\
     QueueItem.state item0 = WorkflowState.CHANGES_REQUESTED /\
     issued self (fst r) = [CommentApplyChanges m] /\
     Answers.comment_apply_changes w = true /\
     exists item1, item_at i (fst r) = Some item1 /\
                   QueueItem.state item1 = WorkflowState.APPLYING_CHANGES) /\
  (before = true -> after = false ->
     truthy_number (QueueItem.pr_number item0) = Some m /\
     issued self (fst r) = [MergePR m] /\
     Answers.merge_pr w = true).
Proof.
  intros Hi r before after. subst r before after.
  destruct (visit_tracker_outcome w now i can self item0 Hi)
    as [-> | [(n & -> & Hn & Hs & Hiss & Hok & H1) | (n & -> & Hn & Hiss & Hok)]].
  - split; intros H1 H2; congruence.
  - rewrite is_review_done_mark. split; intros Hb Ha.
    + rewrite Hb, orb_false_r in Ha. apply Z.eqb_eq in Ha. subst m. auto.
    + rewrite Hb, orb_true_r in Ha. discriminate.
  - rewrite is_review_done_clear. split; intros Hb Ha.
    + rewrite Hb, andb_false_r in Ha. discriminate.
    + rewrite Hb, andb_true_r in Ha. apply negb_false_iff, Z.eqb_eq in Ha. subst m. auto.
Qed.

Lemma review_marks_follow_apply_and_merge_witness :
  item_at 0 changes_requested_42 =
    Some (sample_item "TC-A-01" WorkflowState.CHANGES_REQUESTED (Some 11) (Some 42)) /\
  ReviewTracker.is_review_done (review_tracker changes_requested_42) 42 = false /\
  ReviewTracker.is_review_done
    (review_tracker (fst (_process_item_with_cooldown changes_wanted 0 0 true
                            changes_requested_42))) 42 = true /\
  issued changes_requested_42
    (fst (_process_item_with_cooldown changes_wanted 0 0 true changes_requested_42)) =
    [CommentApplyChanges 42].
Proof.
  split; [reflexivity|]. split; [reflexivity|]. split; [reflexivity|].
  pose proof (review_marks_follow_apply_and_merge changes_wanted 0 0 true
                changes_requested_42 _ 42 eq_refl) as H.
  cbv zeta in H.
  exact (proj1 (proj2 (proj2 (proj1 H eq_refl eq_refl)))).
Defined.

(* ===================================================================== *)
(** * Further properties of one cycle of the daemon                       *)
(* ===================================================================== *)

Lemma merged_in_iteration_inv answers now l i :
  merged_in_iteration answers now l i ->
  can_assign (process_items answers now (S i) l) = false.
Proof.
  intros (item & item' & Hi & Hi' & Hs & Hs').
  rewrite process_items_S, daemon_loop_body in Hi'.
  destruct (visit_merge_outcome (answers i) now i
              (can_assign (process_items answers now i l)) _ item Hi)
    as [(_ & _ & Hm) | (n & _ & _ & _ & _ & _ & _ & a & Ha & Hc)].
  { exfalso. apply Hs. eapply Hm; eassumption. }
  rewrite process_items_S. unfold loop_body.
  destruct (_process_item_with_cooldown _ _ _ _ _) as [self action]. simpl in Ha.
  subst action. cbn [truthy_str or_empty].
  assert (Hne : negb (a =? "")%string = true).
  { destruct a; [discriminate Hc|reflexivity]. }
  rewrite Hne, Hc. destruct (contains "Assigned" a); reflexivity.
Qed.

(** X22. Within one run of the item loop, once an iteration has merged
    its item, no later iteration assigns an issue: the merge starts the
    cooldown for the rest of the cycle as well. *)
Theorem no_assignment_after_a_merge (answers : nat -> Answers.t) (now : Z)
    (l : Loop) (a b : nat) :
  merged_in_iteration answers now l a ->
  (a < b)%nat ->
  ~ assigned_in_iteration answers now l b.
Proof.
  intros Hm Hlt Hb.
  apply merged_in_iteration_inv in Hm.
  apply assigned_in_iteration_inv in Hb as (Hb & _).
  pose proof (process_items_can_assign_false answers now l (S a) (b - S a) Hm) as H.
  replace (S a + (b - S a))%nat with b in H by lia. congruence.
Qed.

Lemma no_assignment_after_a_merge_witness :
  merged_in_iteration approved_and_ready 0 (fresh_loop approved_then_queued) 0 /\
  (0 < 1)%nat /\
  ~ assigned_in_iteration approved_and_ready 0 (fresh_loop approved_then_queued) 1.
Proof.
  assert (Hm : merged_in_iteration approved_and_ready 0 (fresh_loop approved_then_queued) 0).
  { eexists _, _. split; [reflexivity|]. split; [reflexivity|].
    split; [discriminate|reflexivity]. }
  split; [exact Hm|]. split; [lia|].
  exact (no_assignment_after_a_merge approved_and_ready 0 (fresh_loop approved_then_queued)
           0 1 Hm (le_n 1)).
Defined.

Section Preserved.

Variable R : AutomationDaemon.t -> AutomationDaemon.t -> Prop.
Hypothesis R_refl : forall a, R a a.
Hypothesis R_trans : forall a b c, R a b -> R b c -> R a c.

Lemma preserved_then S1 S2 : preserved R S1 -> preserved R S2 -> preserved R (then_ S1 S2).
Proof.
  intros H1 H2 self0. unfold then_. specialize (H1 self0).
  destruct (S1 self0) as [s1 [v|]]; simpl in *; [exact H1|].
  eapply R_trans; [exact H1 | apply H2].
Qed.

Lemma preserved_perform f : kept R f -> preserved R (perform f).
Proof. intros H self0. apply H. Qed.

Lemma preserved_returns v : preserved R (returns v).
Proof. intros self0. apply R_refl. Qed.

Lemma preserved_falls_through : preserved R falls_through.
Proof. intros self0. apply R_refl. Qed.

Lemma preserved_with_item i k :
  (forall item, preserved R (k item)) -> preserved R (with_item i k).
Proof.
  intros H self0. unfold with_item.
  destruct (queue self0 !! i) as [item|]; [apply H | apply R_refl].
Qed.

End Preserved.

Lemma same_queue_members_refl a : same_queue_members a a.
Proof. repeat split. Qed.

Lemma same_queue_members_trans a b c :
  same_queue_members a b -> same_queue_members b c -> same_queue_members a c.
Proof. unfold same_queue_members. intros (?&?&?&?) (?&?&?&?). repeat split; congruence. Qed.

Lemma members_update_item i f :
  (forall item, QueueItem.issue_id (f item) = QueueItem.issue_id item) ->
  kept same_queue_members (update_item i f).
Proof.
  intros Hf self0. unfold update_item.
  destruct (queue self0 !! i) as [item|] eqn:E; [|apply same_queue_members_refl].
  repeat split. unfold queue_ids, queue in *. simpl.
  rewrite list_fmap_insert, Hf. apply list_insert_id.
  rewrite list_lookup_fmap, E. reflexivity.
Qed.

Lemma members_engine_alone f :
  (forall self0, engine (f self0) = engine self0) -> kept same_queue_members f.
Proof. intros H self0. unfold same_queue_members. rewrite H. repeat split. Qed.

Lemma members_log_event i text now : kept same_queue_members (log_event i text now).
Proof.
  apply members_engine_alone. intros self0. unfold log_event.
  destruct (queue self0 !! i); reflexivity.
Qed.

Lemma members_record_action i text now : kept same_queue_members (record_action i text now).
Proof.
  intros self0. unfold record_action.
  eapply same_queue_members_trans; [|apply members_log_event].
  apply members_update_item. reflexivity.
Qed.

Ltac members :=
  repeat (cbv zeta;
          lazymatch goal with
          | |- preserved _ (returns _) =>
              apply preserved_returns, same_queue_members_refl
          | |- preserved _ falls_through =>
              apply preserved_falls_through, same_queue_members_refl
          | |- preserved _ (then_ _ _) =>
              apply preserved_then; [exact same_queue_members_trans| |]
          | |- preserved _ (perform _) => apply preserved_perform
          | |- preserved _ (with_item _ _) =>
              apply preserved_with_item; [exact same_queue_members_refl | intros ?]
          | |- preserved _ (if ?b then _ else _) => destruct b
          | |- preserved _ (match ?o with Some _ => _ | None => _ end) => destruct o
          | |- kept _ (update_item _ _) => apply members_update_item; reflexivity
          | |- kept _ (record_action _ _ _) => apply members_record_action
          | |- kept _ (log_event _ _ _) => apply members_log_event
          | |- kept _ _ => apply members_engine_alone; intros; reflexivity
          end).

Lemma review_done_steps_members c w now i n :
  preserved same_queue_members (review_done_steps c w now i n).
Proof. unfold review_done_steps. members. Qed.

Lemma pr_open_steps_members w now i : preserved same_queue_members (pr_open_steps w now i).
Proof. unfold pr_open_steps. members. Qed.

Lemma review_requested_steps_members w now i :
  preserved same_queue_members (review_requested_steps w now i).
Proof. unfold review_requested_steps. members. Qed.

Lemma changes_requested_steps_members w now i :
  preserved same_queue_members (changes_requested_steps w now i).
Proof. unfold changes_requested_steps. members. Qed.

Lemma approved_steps_members c w now i :
  preserved same_queue_members (approved_steps c w now i).
Proof. unfold approved_steps. members. Qed.

Lemma queued_steps_members c w now i can :
  preserved same_queue_members (queued_steps c w now i can).
Proof.
  unfold queued_steps. apply preserved_with_item; [exact same_queue_members_refl|].
  intros item. destruct (_ && _); [|members]. destruct (negb can); [members|].
  intros self0. destruct (_ && _); [|apply same_queue_members_refl].
  revert self0.
  change (preserved same_queue_members
    (perform (send (AssignIssue (default 0 (QueueItem.issue_number item))
                      (agent_instructions c) (target_branch c))) ;;
     if Answers.assign_issue_to_copilot w then
       perform (update_item i (QueueItem.set_state WorkflowState.ASSIGNED)) ;;
       perform (record_action i "Assigned to Copilot" now) ;;
       returns (Some ("Assigned issue #" +:+ fmt_number (QueueItem.issue_number item) +:+
                      " (" +:+ QueueItem.issue_id item +:+ ") to Copilot"))
     else falls_through)%stretch).
  members.
Qed.

Lemma visit_members w now i can self :
  same_queue_members self (fst (_process_item_with_cooldown w now i can self)).
Proof.
  unfold _process_item_with_cooldown.
  match goal with
  | |- same_queue_members self (fst (match ?S self with _ => _ end)) =>
      assert (H : preserved same_queue_members S)
  end.
  { destruct (negb _); [members|].
    apply preserved_with_item; [exact same_queue_members_refl|]. intros item.
    destruct (review_done_pr self item).
    - apply review_done_steps_members.
    - repeat (apply preserved_then; [exact same_queue_members_trans| |]);
        auto using pr_open_steps_members, review_requested_steps_members,
          changes_requested_steps_members, approved_steps_members, queued_steps_members.
      apply preserved_returns, same_queue_members_refl. }
  specialize (H self).
  match goal with
  | |- same_queue_members self (fst (match ?X with _ => _ end)) => destruct X as [s [v|]]
  end; exact H.
Qed.

Lemma apply_pr_status_issue_id pr item :
  QueueItem.issue_id (AutomationEngine.apply_pr_status pr item) = QueueItem.issue_id item.
Proof.
  unfold AutomationEngine.apply_pr_status.
  repeat match goal with |- context [if ?b then _ else _] => destruct b end; reflexivity.
Qed.

Lemma _update_item_status_issue_id self w item :
  QueueItem.issue_id (fst (AutomationEngine._update_item_status self w item)) =
  QueueItem.issue_id item.
Proof.
  unfold AutomationEngine._update_item_status.
  destruct (negb (AutomationEngine.client self)); [reflexivity|].
  unfold bind, get, ret, assign, pass, lift.
  destruct (truthy_int (QueueItem.issue_number item)).
  all: repeat match goal with
       | |- context [match ?o with Some _ => _ | None => _ end] => destruct o; simpl
       | |- context [if ?b then _ else _] => destruct b; simpl
       | |- context [match ?r with Ok _ => _ | Raise _ => _ end] => destruct r; simpl
       end; rewrite ?apply_pr_status_issue_id; reflexivity.
Qed.

Lemma refresh_items_ids self answers i items :
  QueueItem.issue_id <$> fst (AutomationEngine.refresh_items self answers i items) =
  QueueItem.issue_id <$> items.
Proof.
  revert i. induction items as [|item rest IH]; intros i; simpl; [reflexivity|].
  pose proof (_update_item_status_issue_id self (answers i) item) as Hid.
  destruct (AutomationEngine._update_item_status self (answers i) item) as [item' [u|e]];
    simpl in *.
  - specialize (IH (S i)).
    destruct (AutomationEngine.refresh_items self answers (S i) rest) as [rest' r].
    simpl in *. rewrite ?fmap_cons. f_equal; assumption.
  - rewrite ?fmap_cons. f_equal; assumption.
Qed.

Lemma refresh_status_members answers self :
  let e := fst (AutomationEngine.refresh_status answers self) in
  AutomationEngine.config e = AutomationEngine.config self /\
  AutomationEngine.client e = AutomationEngine.client self /\
  AutomationEngine._issue_numbers e = AutomationEngine._issue_numbers self /\
  queue_ids e = queue_ids self.
Proof.
  unfold AutomationEngine.refresh_status.
  destruct (negb (AutomationEngine.client self)); [repeat split|].
  pose proof (refresh_items_ids self answers 0 (AutomationEngine.queue self)) as H.
  destruct (AutomationEngine.refresh_items self answers 0 (AutomationEngine.queue self))
    as [q r].
  simpl in *. repeat split. exact H.
Qed.

Lemma process_items_members answers now n l :
  same_queue_members (daemon l) (daemon (process_items answers now n l)).
Proof.
  induction n as [|n IH]; [apply same_queue_members_refl|].
  rewrite process_items_S, daemon_loop_body.
  eapply same_queue_members_trans; [exact IH | apply visit_members].
Qed.

(** X23. A whole cycle of the daemon, status refresh and item loop,
    whether it returns or raises, neither adds, removes nor reorders queue
    items: the list of issue ids of the queue is the same before and
    after, and so is the ['issue_queue'] of the configuration (of which
    the refresh only adds to ['issue_titles']).  So a configuration that
    listed the queue before the cycle lists it after, and ids that were
    pairwise distinct stay so. *)
Theorem cycle_keeps_the_queue_members (refresh_answers process_answers : nat -> Answers.t)
    (now : Z) (self : AutomationDaemon.t) :
  let self' := fst (_process_cycle refresh_answers process_answers now self) in
  queue_ids (engine self') = queue_ids (engine self) /\
  Config.issue_queue (AutomationEngine.config (engine self')) =
    Config.issue_queue (AutomationEngine.config (engine self)) /\
  (Config.issue_queue (AutomationEngine.config (engine self)) = queue_ids (engine self) ->
   Config.issue_queue (AutomationEngine.config (engine self')) = queue_ids (engine self')) /\
  (NoDup (queue_ids (engine self)) -> NoDup (queue_ids (engine self'))).
Proof.
  intros self'.
  assert (H : same_queue_members self self').
  { subst self'. unfold _process_cycle.
    pose proof (refresh_status_members refresh_answers (engine self)) as Hr.
    destruct (AutomationEngine.refresh_status refresh_answers (engine self)) as [e [u|ex]];
      simpl in Hr.
    - destruct (CooldownManager.can_assign _ now now) as [can minutes]. cbn [fst].
      eapply same_queue_members_trans; [|apply process_items_members].
      exact Hr.
    - exact Hr. }
  destruct H as (Hc & _ & _ & Hids). rewrite Hc, Hids. auto.
Qed.

Lemma loop_body_actions answers now l i :
  let r := _process_item_with_cooldown (answers i) now i (can_assign l) (daemon l) in
  actions_taken (loop_body answers now l i) =
  (actions_taken l ++ (if truthy_str (snd r) then [or_empty (snd r)] else []))%list.
Proof.
  unfold loop_body.
  destruct (_process_item_with_cooldown _ _ _ _ _) as [self action]. simpl.
  destruct (truthy_str action); simpl; [|symmetry; apply app_nil_r].
  destruct (contains "Assigned" _); reflexivity.
Qed.

Lemma process_items_requests answers now n l :
  exists reqs acts,
    sent (daemon (process_items answers now n l)) = (sent (daemon l) ++ reqs)%list /\
    (List.length reqs <= n)%nat /\
    actions_taken (process_items answers now n l) = (actions_taken l ++ acts)%list /\
    (List.length acts <= List.length reqs)%nat.
Proof.
  induction n as [|n (reqs & acts & Hs & Hn & Ha & Hl)].
  - exists [], []. simpl. rewrite !app_nil_r. auto.
  - rewrite process_items_S.
    set (L := process_items answers now n l) in *.
    pose proof (visit_outcome_holds (answers n) now n (can_assign L) (daemon L))
      as (l1 & Hs1 & Hn1 & Hiff).
    rewrite loop_body_actions, daemon_loop_body.
    destruct (_process_item_with_cooldown (answers n) now n (can_assign L) (daemon L))
      as [self' action]. simpl in *.
    exists (reqs ++ l1)%list.
    exists (acts ++ (if truthy_str action then [or_empty action] else []))%list.
    rewrite Hs1, Hs, Ha, !app_assoc, !length_app.
    repeat split; try lia.
    destruct action as [a|]; simpl.
    + destruct (proj1 Hiff) as (req & -> & _); [eauto|].
      destruct (negb _); simpl; lia.
    + lia.
Qed.

Ltac about_leaf Hi' :=
  idtac;
  lazymatch goal with
  | |- visit_requests _ _ _ (_, _) =>
      unfold visit_requests; cbn [fst snd]; sent_simpl; item_simpl; rewrite Hi';
      first
        [ exists []; eexists; rewrite app_nil_r;
          split; [reflexivity|]; split; [simpl; lia|]; split; [constructor|];
          split; [reflexivity|]; split; reflexivity
        | eexists [_]; eexists;
          split; [reflexivity|]; split; [simpl; lia|];
          split; [constructor; [|constructor]; cbn [about_item QueueItem.pr_number
                                                      QueueItem.issue_number]|
                  split; [reflexivity|]; split; reflexivity] ]
  end.

Lemma visit_requests_about_item (w : Answers.t) (now : Z) (i : nat) (can : bool)
    (self : AutomationDaemon.t) (item0 : QueueItem.t) :
  item_at i self = Some item0 ->
  visit_requests i item0 self (_process_item_with_cooldown w now i can self).
Proof.
  intros Hi'. pose proof Hi' as Hi. unfold item_at in Hi.
  unfold _process_item_with_cooldown.
  destruct (AutomationEngine.client (engine self)); cbn [negb]; cbv beta iota.
  2:{ unfold returns. cbv beta iota. about_leaf Hi'. }
  unfold with_item at 1. rewrite Hi.
  destruct (review_done_pr self item0) as [n|] eqn:Hdone.
  - apply review_done_pr_Some in Hdone as [Hpn Hdone].
    destruct item0 as [id st num title prn la lat]. cbn [QueueItem.pr_number] in Hpn.
    visit_prelude Hi.
    walk_with Hi w ltac:(about_leaf Hi').
    all: try assumption.
  - destruct item0 as [id st num title prn la lat].
    visit_prelude Hi.
    destruct st; walk_with Hi w ltac:(about_leaf Hi').
    all: try assumption.
    all: match goal with
         | H : _ && truthy_int ?n = true |- truthy_int ?n = true /\ _ =>
             apply andb_true_iff in H as [_ H]; split; [exact H|];
             destruct n; [reflexivity | discriminate H]
         end.
Qed.

Lemma visit_without_item w now i can self :
  item_at i self = None ->
  _process_item_with_cooldown w now i can self = (self, None).
Proof.
  intros Hi. unfold item_at in Hi. unfold _process_item_with_cooldown.
  destruct (AutomationEngine.client (engine self)); cbn [negb]; [|reflexivity].
  unfold with_item. rewrite Hi. reflexivity.
Qed.

(** The loop over the first [n] items: what each iteration sent. *)
Lemma process_items_per_item answers now n l :
  exists per_item : list (list Request),
    List.length per_item = n /\
    sent (daemon (process_items answers now n l)) =
      (sent (daemon l) ++ concat per_item)%list /\
    (forall i reqs item,
       per_item !! i = Some reqs ->
       item_at i (daemon (process_items answers now n l)) = Some item ->
       (List.length reqs <= 1)%nat /\ Forall (about_item item) reqs).
Proof.
  induction n as [|n (per_item & Hlen & Hsent & Hper)].
  - exists []. simpl. rewrite app_nil_r. split; [reflexivity|]. split; [reflexivity|].
    intros i reqs item H. rewrite lookup_nil in H. discriminate.
  - rewrite process_items_S.
    set (L := process_items answers now n l) in *.
    rewrite daemon_loop_body.
    pose proof (visit_leaves_others (answers n) now n (can_assign L) (daemon L)) as Hothers.
    destruct (item_at n (daemon L)) as [item0|] eqn:Hn.
    + destruct (visit_requests_about_item (answers n) now n (can_assign L) (daemon L)
                  item0 Hn) as (reqs & item1 & Hs & Hl & Hab & Hi1 & Hnum & Hprn).
      exists (per_item ++ [reqs])%list. split; [rewrite length_app; simpl; lia|].
      split.
      { rewrite Hs, Hsent, concat_app. simpl. rewrite app_nil_r, app_assoc. reflexivity. }
      intros i reqs' item Hlk Hit.
      destruct (decide (i = n)) as [->|Hne].
      * rewrite lookup_app_r in Hlk by lia. rewrite Hlen, Nat.sub_diag in Hlk.
        injection Hlk as <-. rewrite Hi1 in Hit. injection Hit as <-.
        split; [exact Hl|].
        eapply Forall_impl; [exact Hab|]. intros r Hr.
        destruct r; simpl in *; rewrite ?Hnum, ?Hprn; exact Hr.
      * assert (Hlt : (i < n)%nat).
        { apply lookup_lt_Some in Hlk. rewrite length_app in Hlk. simpl in Hlk. lia. }
        rewrite lookup_app_l in Hlk by lia.
        rewrite Hothers in Hit by exact Hne. exact (Hper i reqs' item Hlk Hit).
    + rewrite (visit_without_item (answers n) now n (can_assign L) (daemon L) Hn).
      cbn [fst].
      exists (per_item ++ [[]])%list. split; [rewrite length_app; simpl; lia|].
      split.
      { rewrite Hsent, concat_app. simpl. rewrite !app_nil_r. reflexivity. }
      intros i reqs' item Hlk Hit.
      destruct (decide (i = n)) as [->|Hne]; [congruence|].
      assert (Hlt : (i < n)%nat).
      { apply lookup_lt_Some in Hlk. rewrite length_app in Hlk. simpl in Hlk. lia. }
      rewrite lookup_app_l in Hlk by lia.
      exact (Hper i reqs' item Hlk Hit).
Qed.

(** X24. In a cycle of the daemon that returns, each queue item gives rise
    to at most one request to GitHub, and that request names the PR of the
    item or, for an assignment, its issue: the requests of the cycle are,
    item by item in queue order, one request or none.  A cycle that returns
    reports at most as many actions as it sent requests.  When the status
    refresh raises, the cycle raises the same exception and has sent
    nothing. *)
Theorem cycle_sends_at_most_one_request_per_item
    (refresh_answers process_answers : nat -> Answers.t) (now : Z)
    (self : AutomationDaemon.t) :
  let refresh := AutomationEngine.refresh_status refresh_answers (engine self) in
  let r := _process_cycle refresh_answers process_answers now self in
  (forall ex, snd refresh = Raise ex -> snd r = Raise ex /\ sent (fst r) = sent self) /\
  (forall actions, snd r = Ok actions ->
   exists per_item,
     sent (fst r) = (sent self ++ concat per_item)%list /\
     Forall2 (fun item reqs =>
                (List.length reqs <= 1)%nat /\ Forall (about_item item) reqs)
       (queue (fst r)) per_item /\
     (List.length actions <= List.length (concat per_item))%nat).
Proof.
  intros refresh r. subst refresh r. unfold _process_cycle.
  destruct (AutomationEngine.refresh_status refresh_answers (engine self)) as [e [[]|ex]];
    cbn [fst snd].
  2:{ split; [intros ex' [= <-]; auto | discriminate]. }
  split; [discriminate|].
  destruct (CooldownManager.can_assign _ now now) as [can minutes]. cbn [fst snd].
  match goal with
  | |- context [process_items ?a ?t ?n ?l] =>
      destruct (process_items_per_item a t n l) as (per_item & Hlen & Hsent & Hper);
      destruct (process_items_requests a t n l) as (reqs & acts & Hs & _ & Ha & Hl);
      pose proof (process_items_members a t n l) as (_ & _ & _ & Hids);
      set (L := process_items a t n l) in *
  end.
  intros actions [= <-].
  exists per_item. simpl in Hsent, Hs, Ha, Hids.
  split; [exact Hsent|]. split.
  - apply Forall2_same_length_lookup_2.
    + unfold queue_ids in Hids. apply (f_equal (@List.length _)) in Hids.
      rewrite !length_fmap in Hids. unfold queue in *. simpl in *. congruence.
    + intros i item reqs' Hit Hlk. exact (Hper i reqs' item Hlk Hit).
  - rewrite Hsent in Hs. apply app_inv_head in Hs. rewrite Hs, Ha. exact Hl.
Qed.

(* ===================================================================== *)
(** * Further properties of the status file and its reader                *)
(* ===================================================================== *)

Lemma WorkflowState_call_value s : App.WorkflowState_call (WorkflowState.value s) = Ok s.
Proof. destruct s; reflexivity. Qed.

Lemma WorkflowState_call_raises value e :
  App.WorkflowState_call value = Raise e -> e = ValueError.
Proof.
  unfold App.WorkflowState_call. destruct (List.find _ _); [discriminate|].
  intros [= <-]. reflexivity.
Qed.

Lemma item_states_fold (self : AutomationDaemon.t) (l : list QueueItem.t)
    (m0 : gmap string ItemState.entry) (k : string) :
  NoDup (QueueItem.issue_id <$> l) ->
  foldl (fun m item =>
           <[QueueItem.issue_id item :=
               ItemState.object (DaemonStatus.item_state self item)]> m)
    m0 l !! k =
  match List.find (AutomationEngine.has_id k) l with
  | Some item => Some (ItemState.object (DaemonStatus.item_state self item))
  | None => m0 !! k
  end.
Proof.
  revert m0. induction l as [|x l IH]; intros m0 Hnd; simpl; [reflexivity|].
  rewrite fmap_cons in Hnd. apply NoDup_cons in Hnd as [Hx Hnd].
  rewrite (IH _ Hnd).
  destruct (AutomationEngine.has_id k x) eqn:E.
  - apply has_id_true in E. subst k.
    destruct (List.find _ l) as [y|] eqn:F.
    + exfalso. apply List.find_some in F as [Hin Hy]. apply has_id_true in Hy.
      apply Hx. rewrite <- Hy. apply list_elem_of_fmap. exists y. split; [reflexivity|].
      apply list_elem_of_In. exact Hin.
    + apply lookup_insert_eq.
  - destruct (List.find _ l); [reflexivity|].
    apply lookup_insert_ne. intros Heq. apply has_id_false in E. congruence.
Qed.

Lemma item_states_fold_other (self : AutomationDaemon.t) (l : list QueueItem.t)
    (m0 : gmap string ItemState.entry) (k : string) :
  k ∉ QueueItem.issue_id <$> l ->
  foldl (fun m item =>
           <[QueueItem.issue_id item :=
               ItemState.object (DaemonStatus.item_state self item)]> m)
    m0 l !! k = m0 !! k.
Proof.
  revert m0. induction l as [|x l IH]; intros m0 Hk; simpl; [reflexivity|].
  rewrite fmap_cons in Hk. apply not_elem_of_cons in Hk as [Hx Hk].
  rewrite (IH _ Hk). apply lookup_insert_ne. congruence.
Qed.

Lemma item_states_lookup (self : AutomationDaemon.t) (dq : QueueItem.t) :
  NoDup (queue_ids (engine self)) ->
  dq ∈ queue self ->
  DaemonStatus.item_states self !! QueueItem.issue_id dq =
  Some (ItemState.object (DaemonStatus.item_state self dq)).
Proof.
  intros Hnd Hin. unfold DaemonStatus.item_states.
  rewrite item_states_fold by exact Hnd.
  destruct (List.find _ _) as [y|] eqn:F.
  - apply List.find_some in F as [Hy Hid]. apply has_id_true in Hid.
    apply list_elem_of_In in Hy.
    apply list_elem_of_lookup in Hy as [j Hj]. apply list_elem_of_lookup in Hin as [i Hi].
    assert (i = j).
    { eapply (unique_id _ _ _ _ _ Hnd Hi Hj). congruence. }
    subst j. congruence.
  - exfalso. apply list_elem_of_In in Hin.
    pose proof (List.find_none _ _ F _ Hin) as H.
    apply has_id_false in H. congruence.
Qed.

Lemma item_states_lookup_None (self : AutomationDaemon.t) (k : string) :
  k ∉ queue_ids (engine self) ->
  DaemonStatus.item_states self !! k = None.
Proof.
  intros Hk. unfold DaemonStatus.item_states.
  rewrite item_states_fold_other by exact Hk. apply lookup_empty.
Qed.

Lemma sync_item_of_daemon (self : AutomationDaemon.t) (dq a : QueueItem.t) :
  exists a', App.sync_item (DaemonStatus.item_state self dq) a = (a', Ok tt) /\
             synced_from dq a a'.
Proof.
  unfold App.sync_item, DaemonStatus.item_state, synced_from.
  cbn [ItemState.state ItemState.issue_number ItemState.pr_number ItemState.last_action
       ItemState.last_action_time].
  rewrite WorkflowState_call_value.
  unfold bind, assign, pass, ret, lift.
  destruct dq as [did dst dnum dtitle dprn dla dlat], a as [aid ast anum atitle aprn ala alat].
  cbn [QueueItem.issue_number QueueItem.pr_number QueueItem.last_action
       QueueItem.last_action_time QueueItem.state QueueItem.issue_id QueueItem.issue_title].
  destruct (truthy_int dnum), (truthy_int dprn), (truthy_str dla), dlat;
    eexists; (split; [reflexivity|]); cbn; repeat split.
Qed.

(** What [sync_items] did to each item it reached. *)
Lemma sync_items_Ok (m : gmap string ItemState.entry) (q q' : list QueueItem.t) :
  App.sync_items m q = (q', Ok tt) ->
  Forall2 (fun a a' =>
             match m !! QueueItem.issue_id a with
             | Some (ItemState.object info) => App.sync_item info a = (a', Ok tt)
             | Some ItemState.not_an_object => False
             | None => a' = a
             end) q q'.
Proof.
  revert q'. induction q as [|a q IH]; intros q'; simpl.
  - intros [= <-]. constructor.
  - destruct (m !! QueueItem.issue_id a) as [[info|]|] eqn:E.
    + destruct (App.sync_item info a) as [a' [[]|e]] eqn:S; [|discriminate].
      destruct (App.sync_items m q) as [rest r]. intros [= <- ->].
      constructor; [rewrite E; exact S | apply IH; reflexivity].
    + discriminate.
    + destruct (App.sync_items m q) as [rest r]. intros [= <- ->].
      constructor; [rewrite E; reflexivity | apply IH; reflexivity].
Qed.

Lemma sync_items_of_daemon (self : AutomationDaemon.t) (q : list QueueItem.t) :
  NoDup (queue_ids (engine self)) ->
  exists q', App.sync_items (DaemonStatus.item_states self) q = (q', Ok tt).
Proof.
  intros Hnd. induction q as [|a q [q' IH]]; simpl; [eauto|].
  destruct (DaemonStatus.item_states self !! QueueItem.issue_id a) as [entry|] eqn:E.
  - assert (exists dq, entry = ItemState.object (DaemonStatus.item_state self dq))
      as [dq ->].
    { unfold DaemonStatus.item_states in E. rewrite item_states_fold in E by exact Hnd.
      destruct (List.find _ _) as [y|]; [|rewrite lookup_empty in E; discriminate].
      injection E as <-. eauto. }
    destruct (sync_item_of_daemon self dq a) as (a' & -> & _).
    rewrite IH. eauto.
  - rewrite IH. eauto.
Qed.

(** X25. When the daemon's queue has pairwise distinct ids, syncing the
    app from the item states that the daemon exports never fails and
    gives every app item whose id the daemon knows the daemon's state of
    that item; issue number, PR number, last action and its time are
    taken over only when the daemon's value is truthy, so a PR number
    that the daemon has dropped stays on the app's item. Items whose id
    the daemon does not know, and the id and title of every item, are
    left as they are. *)
Theorem sync_mirrors_the_daemon (d : AutomationDaemon.t) (app : AutomationEngine.t) :
  NoDup (queue_ids (engine d)) ->
  let r := App.sync_item_states_from_daemon (DaemonStatus.item_states d) app in
  snd r = Ok tt /\
  Forall2 (fun a a' =>
             (forall dq, dq ∈ queue d ->
                QueueItem.issue_id dq = QueueItem.issue_id a -> synced_from dq a a') /\
             (QueueItem.issue_id a ∉ queue_ids (engine d) -> a' = a))
    (AutomationEngine.queue app) (AutomationEngine.queue (fst r)).
Proof.
  intros Hnd r. subst r. unfold App.sync_item_states_from_daemon.
  destruct (sync_items_of_daemon d (AutomationEngine.queue app) Hnd) as [q' Hq].
  assert (HF : Forall2 (fun a a' =>
             (forall dq, dq ∈ queue d ->
                QueueItem.issue_id dq = QueueItem.issue_id a -> synced_from dq a a') /\
             (QueueItem.issue_id a ∉ queue_ids (engine d) -> a' = a))
            (AutomationEngine.queue app) q').
  { eapply Forall2_impl; [apply sync_items_Ok, Hq|].
    intros a a' H. simpl in H. split.
    - intros dq Hin Hid. rewrite <- Hid, (item_states_lookup d dq Hnd Hin) in H.
      destruct (sync_item_of_daemon d dq a) as (a'' & Hs & Hsync).
      rewrite Hs in H. injection H as <-. exact Hsync.
    - intros Hno. rewrite (item_states_lookup_None d _ Hno) in H. exact H. }
  destruct (size (DaemonStatus.item_states d) =? 0)%nat eqn:Hsz.
  - simpl. split; [reflexivity|].
    apply Nat.eqb_eq, map_size_empty_inv in Hsz.
    assert (E : q' = AutomationEngine.queue app); [|rewrite E in HF; exact HF].
    rewrite Hsz in Hq. clear -Hq. revert q' Hq.
    induction (AutomationEngine.queue app) as [|a q IH]; intros q'; simpl.
    + intros [= <-]. reflexivity.
    + rewrite lookup_empty. destruct (App.sync_items ∅ q) as [rest r].
      intros [= <- ->]. f_equal. apply IH. reflexivity.
  - rewrite Hq. simpl. split; [reflexivity|exact HF].
Qed.

Lemma requeued_daemon_ids_distinct : NoDup (queue_ids (engine requeued_daemon)).
Proof. apply NoDup_singleton. Qed.

Lemma sync_mirrors_the_daemon_witness :
  NoDup (queue_ids (engine requeued_daemon)) /\
  AutomationEngine.queue
    (fst (App.sync_item_states_from_daemon (DaemonStatus.item_states requeued_daemon)
            stale_app)) =
    [sample_item "TC-A-01" WorkflowState.QUEUED (Some 11) (Some 42)] /\
  snd (App.sync_item_states_from_daemon (DaemonStatus.item_states requeued_daemon)
         stale_app) = Ok tt.
Proof.
  split; [exact requeued_daemon_ids_distinct|]. split; [reflexivity|].
  exact (proj1 (sync_mirrors_the_daemon requeued_daemon stale_app
                  requeued_daemon_ids_distinct)).
Defined.


Lemma sync_item_cases (info : ItemState.t) (a : QueueItem.t) :
  QueueItem.issue_id (fst (App.sync_item info a)) = QueueItem.issue_id a /\
  match ItemState.state info with
  | None => App.sync_item info a = (a, Raise KeyError)
  | Some value =>
      snd (App.sync_item info a) = Ok tt /\
      QueueItem.state (fst (App.sync_item info a)) =
        match App.WorkflowState_call value with
        | Ok s => s
        | Raise _ => QueueItem.state a
        end
  end.
Proof.
  unfold App.sync_item, bind, assign, pass, ret, lift.
  destruct (ItemState.state info) as [value|]; [|auto].
  pose proof (WorkflowState_call_raises value) as Hv.
  destruct (App.WorkflowState_call value) as [s|e]; [|rewrite (Hv e eq_refl)];
    destruct (truthy_int (ItemState.issue_number info)),
             (truthy_int (ItemState.pr_number info)),
             (truthy_str (ItemState.last_action info)),
             (ItemState.last_action_time info) as [[t|e']|]; auto.
Qed.

Lemma sync_items_ids (m : gmap string ItemState.entry) (q : list QueueItem.t) :
  QueueItem.issue_id <$> fst (App.sync_items m q) = QueueItem.issue_id <$> q.
Proof.
  induction q as [|a q IH]; simpl; [reflexivity|].
  destruct (m !! QueueItem.issue_id a) as [[info|]|].
  - pose proof (proj1 (sync_item_cases info a)) as Hid.
    destruct (App.sync_item info a) as [a' [u|e]]; simpl in Hid.
    + destruct (App.sync_items m q) as [rest r]. simpl in *.
      rewrite ?fmap_cons. f_equal; assumption.
    + simpl. rewrite ?fmap_cons. f_equal; assumption.
  - reflexivity.
  - destruct (App.sync_items m q) as [rest r]. simpl in *.
    rewrite ?fmap_cons. f_equal; assumption.
Qed.

Lemma sync_items_Raise (m : gmap string ItemState.entry) (q : list QueueItem.t) (e : exn) :
  snd (App.sync_items m q) = Raise e ->
  exists a, a ∈ q /\
    ((e = TypeError /\ m !! QueueItem.issue_id a = Some ItemState.not_an_object) \/
     (e = KeyError /\
      exists info, m !! QueueItem.issue_id a = Some (ItemState.object info) /\
                   ItemState.state info = None)).
Proof.
  induction q as [|a q IH]; simpl; [discriminate|].
  destruct (m !! QueueItem.issue_id a) as [[info|]|] eqn:E.
  - pose proof (proj2 (sync_item_cases info a)) as Hc.
    destruct (ItemState.state info) as [value|] eqn:Hs.
    + destruct Hc as [Hok _].
      destruct (App.sync_item info a) as [a' [u|e']]; [|discriminate Hok].
      destruct (App.sync_items m q) as [rest r]. simpl in *.
      intros Hr. destruct (IH Hr) as (b & Hb & H).
      exists b. split; [apply list_elem_of_further, Hb|exact H].
    + rewrite Hc. simpl. intros [= <-].
      exists a. split; [apply list_elem_of_here|]. right. eauto.
  - simpl. intros [= <-].
    exists a. split; [apply list_elem_of_here|]. left. auto.
  - destruct (App.sync_items m q) as [rest r]. simpl in *.
    intros Hr. destruct (IH Hr) as (b & Hb & H).
    exists b. split; [apply list_elem_of_further, Hb|exact H].
Qed.

(** X26. For a status file whose [item_states] is an object with entries
    that either are objects holding values of the types the daemon writes
    or are no objects at all, [sync_item_states_from_daemon] keeps the ids
    of the app's queue in their order.  It fails only at the entry of a
    queued id: with [TypeError] when that entry is no object (a null, for
    one), with [KeyError] when it is an object without ['state'].  When it
    does not fail, an item with an entry takes the state that the entry
    names, and keeps its own state when the entry names none of the ten
    states. *)
Theorem sync_fails_only_on_a_malformed_entry (m : gmap string ItemState.entry)
    (app : AutomationEngine.t) :
  let r := App.sync_item_states_from_daemon m app in
  queue_ids (fst r) = queue_ids app /\
  (forall e, snd r = Raise e ->
     exists a, a ∈ AutomationEngine.queue app /\
       ((e = TypeError /\ m !! QueueItem.issue_id a = Some ItemState.not_an_object) \/
        (e = KeyError /\
         exists info, m !! QueueItem.issue_id a = Some (ItemState.object info) /\
                      ItemState.state info = None))) /\
  ((forall a, a ∈ AutomationEngine.queue app ->
      match m !! QueueItem.issue_id a with
      | Some (ItemState.object info) => is_Some (ItemState.state info)
      | Some ItemState.not_an_object => False
      | None => True
      end) ->
   snd r = Ok tt) /\
  (snd r = Ok tt ->
   Forall2 (fun a a' =>
              forall info value,
                m !! QueueItem.issue_id a = Some (ItemState.object info) ->
                ItemState.state info = Some value ->
                QueueItem.state a' =
                  match App.WorkflowState_call value with
                  | Ok s => s
                  | Raise _ => QueueItem.state a
                  end)
     (AutomationEngine.queue app) (AutomationEngine.queue (fst r))).
Proof.
  intros r. subst r. unfold App.sync_item_states_from_daemon.
  destruct (size m =? 0)%nat eqn:Hsz.
  - simpl. split; [reflexivity|]. split; [discriminate|]. split; [reflexivity|].
    intros _. apply Nat.eqb_eq, map_size_empty_inv in Hsz. subst m.
    apply Forall2_same_length_lookup_2; [reflexivity|].
    intros i a a' _ _ info value H. rewrite lookup_empty in H. discriminate.
  - pose proof (sync_items_ids m (AutomationEngine.queue app)) as Hids.
    pose proof (sync_items_Raise m (AutomationEngine.queue app)) as Hr.
    pose proof (sync_items_Ok m (AutomationEngine.queue app)) as Hok.
    destruct (App.sync_items m (AutomationEngine.queue app)) as [q' r]. simpl in *.
    split; [exact Hids|]. split; [exact Hr|]. split.
    + intros Hgood. destruct r as [[]|e]; [reflexivity|]. exfalso.
      destruct (Hr e eq_refl) as (a & Ha & [[_ Hm] | [_ (info & Hm & Hs)]]);
        specialize (Hgood a Ha); rewrite Hm in Hgood; [exact Hgood|].
      rewrite Hs in Hgood. destruct Hgood as [x Hx]. discriminate Hx.
    + intros ->. eapply Forall2_impl; [apply Hok; reflexivity|].
      intros a a' H info value Hm Hs. simpl in H. rewrite Hm in H.
      pose proof (proj2 (sync_item_cases info a)) as Hc. rewrite Hs, H in Hc.
      exact (proj2 Hc).
Qed.

(* ===================================================================== *)
(** * Further properties of the engine's run                              *)
(* ===================================================================== *)

Lemma update_item_status_raises self w item e :
  snd (AutomationEngine._update_item_status self w item) = Raise e ->
  Answers.get_pr_by_issue w = Raise e.
Proof.
  unfold AutomationEngine._update_item_status.
  destruct (negb (AutomationEngine.client self)); [discriminate|].
  unfold bind, get, ret, assign, pass, lift.
  destruct (truthy_int (QueueItem.issue_number item)).
  all: repeat match goal with
       | |- context [match ?o with Some _ => _ | None => _ end] => destruct o eqn:?; simpl
       | |- context [if ?b then _ else _] => destruct b eqn:?; simpl
       | |- context [match ?r with Ok _ => _ | Raise _ => _ end] => destruct r eqn:?; simpl
       end; try discriminate; intros [= <-]; reflexivity.
Qed.

Lemma update_item_status_approved self w item issue pr :
  AutomationEngine.client self = true ->
  finds_issue w issue ->
  IssueInfo.state issue = IssueState.IN_PROGRESS ->
  Answers.get_pr_by_number w = Some pr ->
  Answers.get_pr_by_issue w = Ok (Some pr) ->
  PRInfo.state pr = PRState.APPROVED ->
  PRInfo.number pr <> 0 ->
  approved_with_pr (fst (AutomationEngine._update_item_status self w item)).
Proof.
  intros Hc [H1 H2] Hs H3 H4 Hp Hn.
  unfold AutomationEngine._update_item_status. rewrite Hc. cbn [negb].
  unfold bind, get, ret, assign, pass, lift. rewrite H1, H2, H3, H4.
  destruct issue as [inum ititle ist iasg], item as [id st num title prn la lat].
  cbn [IssueInfo.state QueueItem.state QueueItem.pr_number] in *. subst ist.
  assert (Ht : truthy_int (Some (PRInfo.number pr)) = true).
  { simpl. apply negb_true_iff, Z.eqb_neq, Hn. }
  destruct st; refresh_cases;
    unfold AutomationEngine.apply_pr_status; rewrite Hp; simpl;
    (split; [reflexivity | exact Ht]).
Qed.

Lemma refresh_items_lookup self answers k items q' :
  AutomationEngine.refresh_items self answers k items = (q', Ok tt) ->
  forall j item, items !! j = Some item ->
    q' !! j = Some (fst (AutomationEngine._update_item_status self (answers (k + j)%nat) item)).
Proof.
  revert k q'. induction items as [|a items IH]; intros k q'; simpl.
  - intros _ j item H. rewrite lookup_nil in H. discriminate.
  - destruct (AutomationEngine._update_item_status self (answers k) a) as [a' [[]|e]] eqn:E;
      [|discriminate].
    destruct (AutomationEngine.refresh_items self answers (S k) items) as [rest r] eqn:R.
    intros [= <- ->] j item Hj. destruct j as [|j]; simpl in *.
    + injection Hj as <-. rewrite Nat.add_0_r, E. reflexivity.
    + rewrite (IH _ _ R j item Hj).
      replace (k + S j)%nat with (S k + j)%nat by lia. reflexivity.
Qed.

Lemma refresh_items_no_raise self answers k items :
  (forall j, is_ok (Answers.get_pr_by_issue (answers j)) = true) ->
  snd (AutomationEngine.refresh_items self answers k items) = Ok tt.
Proof.
  intros Hok. revert k. induction items as [|a items IH]; intros k; simpl; [reflexivity|].
  pose proof (update_item_status_raises self (answers k) a) as Hr.
  destruct (AutomationEngine._update_item_status self (answers k) a) as [a' [[]|e]].
  - specialize (IH (S k)).
    destruct (AutomationEngine.refresh_items self answers (S k) items) as [rest r].
    exact IH.
  - specialize (Hr e eq_refl). specialize (Hok k). rewrite Hr in Hok. discriminate.
Qed.

Lemma na_visit_marks_ready w now i self item pr :
  AutomationEngine.client (NextAction.engine self) = true ->
  auto_merge (AutomationEngine.config (NextAction.engine self)) = true ->
  engine_item_at i self = Some item ->
  approved_with_pr item ->
  Answers.get_pr_by_number w = Some pr ->
  PRInfo.is_draft pr = true ->
  truthy_str (snd (NextAction._get_next_action w now i self)) = true.
Proof.
  intros Hc Hm Hi [Hs Hp] Hpr Hd. unfold engine_item_at in Hi.
  unfold NextAction._get_next_action. rewrite Hc. cbn [negb]. cbv beta iota zeta.
  destruct item as [id st num title prn la lat].
  cbn [QueueItem.state QueueItem.pr_number] in *. subst st.
  assert (Hn : truthy_number prn = Some (default 0 prn)).
  { unfold truthy_number. rewrite Hp. destruct prn; [reflexivity|discriminate]. }
  na_prelude Hi.
  repeat (rewrite ?Hi, ?Hn, ?Hpr, ?Hd, ?Hm;
          cbn [NextAction.engine NextAction.send QueueItem.state QueueItem.pr_number
               QueueItem.issue_number QueueItem.issue_id WorkflowState.eqb andb];
          cbv beta iota).
  reflexivity.
Qed.

Lemma same_frame_update_item i f self : same_frame self (NextAction.update_item i f self).
Proof.
  unfold same_frame, NextAction.update_item.
  destruct (NextAction.queue self !! i); [|auto].
  unfold NextAction.queue. simpl. rewrite length_insert. auto.
Qed.

Lemma same_frame_trans a b c : same_frame a b -> same_frame b c -> same_frame a c.
Proof. unfold same_frame. intros (?&?&?) (?&?&?). repeat split; congruence. Qed.

Lemma same_frame_send r self : same_frame self (NextAction.send r self).
Proof. repeat split. Qed.

Lemma same_frame_refl self : same_frame self self.
Proof. repeat split. Qed.

Lemma na_visit_frame_kept w now i self :
  same_frame self (fst (NextAction._get_next_action w now i self)).
Proof.
  unfold NextAction._get_next_action.
  destruct (AutomationEngine.client (NextAction.engine self)); cbn [negb]; cbv beta iota;
    [|apply same_frame_refl].
  destruct (NextAction.queue self !! i) as [item0|] eqn:Hi.
  2:{ unfold NextAction.then_, NextAction.review_requested_steps, NextAction.with_item.
      rewrite Hi. apply same_frame_refl. }
  destruct item0 as [id st num title prn la lat].
  na_prelude Hi.
  destruct st;
    na_walk Hi w ltac:(idtac;
      lazymatch goal with
      | |- same_frame _ (fst (_, _)) =>
          cbn [fst]; unfold NextAction.transition;
          repeat first
            [ apply same_frame_refl
            | eapply same_frame_trans; [|apply same_frame_update_item]
            | eapply same_frame_trans; [|apply same_frame_send] ]
      end).
Qed.

Lemma first_action_marks_ready (answers : nat -> Answers.t) now items i self item pr :
  AutomationEngine.client (NextAction.engine self) = true ->
  auto_merge (AutomationEngine.config (NextAction.engine self)) = true ->
  engine_item_at i self = Some item ->
  approved_with_pr item ->
  Answers.get_pr_by_number (answers i) = Some pr ->
  PRInfo.is_draft pr = true ->
  i ∈ items ->
  truthy_str (snd (NextAction.first_action answers now items self)) = true /\
  same_frame self (fst (NextAction.first_action answers now items self)).
Proof.
  intros Hc Hm Hi Ha Hpr Hd. revert self Hc Hm Hi.
  induction items as [|j items IH]; intros self Hc Hm Hi Hin; [inversion Hin|].
  simpl.
  pose proof (na_quiet_visit (answers j) now j self) as Hq.
  pose proof (na_visit_frame_kept (answers j) now j self) as Hf.
  pose proof (na_visit_marks_ready (answers j) now j self) as Hr.
  destruct (NextAction._get_next_action (answers j) now j self) as [self' action].
  cbn [fst snd] in Hq, Hf, Hr.
  destruct (truthy_str action) eqn:Ht; [simpl; auto|].
  specialize (Hq eq_refl).
  assert (Hne : j <> i).
  { intros ->. specialize (Hr item pr Hc Hm Hi Ha Hpr Hd). discriminate Hr. }
  assert (Hin' : i ∈ items) by (inversion Hin; subst; [contradiction|assumption]).
  destruct (IH self') as [H1 H2]; try exact Hin'.
  - rewrite Hq. exact Hc.
  - rewrite Hq. exact Hm.
  - unfold engine_item_at, NextAction.queue in *. rewrite Hq. exact Hi.
  - split; [exact H1|]. eapply same_frame_trans; eassumption.
Qed.

Lemma round_returns_an_action (i : nat) (round : NextAction.Round) (self : NextAction.t) :
  ready_for_round i self ->
  stuck_on_draft i round ->
  exists self' action,
    NextAction.process_next_action (NextAction.refresh_answers round)
      (NextAction.answers round) (NextAction.now round) self = (self', Ok action) /\
    truthy_str action = true /\
    ready_for_round i self'.
Proof.
  intros (Hc & Hm & Hlen) (Hok & (issue & pr & Hissue & Hst & Hpn & Hpi & Hps & Hnz)
                            & (pr' & Hpr' & Hd)).
  unfold NextAction.process_next_action. rewrite Hc. cbn [negb].
  pose proof (refresh_status_members (NextAction.refresh_answers round)
                (NextAction.engine self)) as (Hcfg & Hcl & _ & Hids).
  unfold AutomationEngine.refresh_status in *. rewrite Hc in *. cbn [negb] in *.
  pose proof (refresh_items_no_raise (NextAction.engine self)
                (NextAction.refresh_answers round) 0
                (AutomationEngine.queue (NextAction.engine self)) Hok) as Hno.
  pose proof (refresh_items_lookup (NextAction.engine self)
                (NextAction.refresh_answers round) 0
                (AutomationEngine.queue (NextAction.engine self))) as Hlk.
  destruct (AutomationEngine.refresh_items _ _ _ _) as [q r]. simpl in Hno. subst r.
  simpl in Hcfg, Hcl, Hids.
  destruct (lookup_lt_is_Some_2 (AutomationEngine.queue (NextAction.engine self)) i Hlen)
    as [item Hitem].
  specialize (Hlk q eq_refl i item Hitem). simpl in Hlk.
  set (self1 := {| NextAction.engine := AutomationEngine.set_queue q (NextAction.engine self);
                   NextAction.sent := NextAction.sent self |}).
  assert (Hlen1 : List.length (NextAction.queue self1) = List.length (NextAction.queue self)).
  { unfold queue_ids in Hids. apply (f_equal (@List.length _)) in Hids.
    rewrite !length_fmap in Hids. exact Hids. }
  destruct (first_action_marks_ready (NextAction.answers round) (NextAction.now round)
              (seq 0 (List.length (NextAction.queue self1))) i self1 _ pr'
              Hc Hm Hlk
              (update_item_status_approved _ _ item issue pr Hc Hissue Hst Hpn Hpi Hps Hnz)
              Hpr' Hd) as [Ht (F1 & F2 & F3)].
  { apply list_elem_of_In, in_seq. lia. }
  destruct (NextAction.first_action _ _ _ self1) as [self' action]. simpl in *.
  exists self', action. split; [reflexivity|]. split; [exact Ht|].
  unfold ready_for_round. rewrite F1, F2, F3. repeat split; try assumption. lia.
Qed.

Lemma run_once_loop_spins (i : nat) (rounds : nat -> NextAction.Round) (fuel : nat) :
  (forall k, stuck_on_draft i (rounds k)) ->
  forall k actions self,
    ready_for_round i self ->
    NextAction.run_once_loop fuel rounds k actions self = None.
Proof.
  intros Hstuck. induction fuel as [|fuel IH]; intros k actions self Hready; [reflexivity|].
  simpl.
  destruct (round_returns_an_action i (rounds k) self Hready (Hstuck k))
    as (self' & action & -> & -> & Hready').
  apply IH, Hready'.
Qed.

(** X27. [run_once] leaves its [while True] loop only when a round reports
    no action. As long as the client keeps answering that the PR of some
    queue item is approved and still a draft (as it does when marking the
    PR ready keeps failing, whose outcome the engine does not look at) and
    no PR search fails, every round reports an action: with automatic
    merging on, [run_once] is still in its loop after any number of
    rounds. *)
Theorem run_once_spins_on_a_stuck_draft (fuel : nat) (first_refresh : nat -> Answers.t)
    (rounds : nat -> NextAction.Round) (self : NextAction.t) (i : nat) :
  auto_merge (AutomationEngine.config (NextAction.engine self)) = true ->
  (i < List.length (NextAction.queue self))%nat ->
  (forall j, is_ok (Answers.get_pr_by_issue (first_refresh j)) = true) ->
  (forall k, stuck_on_draft i (rounds k)) ->
  NextAction.run_once fuel NextAction.connected first_refresh rounds self = None.
Proof.
  intros Hm Hlen Hok Hstuck. unfold NextAction.run_once.
  set (self0 := NextAction.connect NextAction.connected self).
  pose proof (refresh_status_members first_refresh (NextAction.engine self0))
    as (Hcfg & Hcl & _ & Hids).
  unfold AutomationEngine.refresh_status in *.
  change (AutomationEngine.client (NextAction.engine self0)) with true in *.
  cbn [negb] in *.
  pose proof (refresh_items_no_raise (NextAction.engine self0) first_refresh 0
                (AutomationEngine.queue (NextAction.engine self0)) Hok) as Hno.
  destruct (AutomationEngine.refresh_items _ _ _ _) as [q r]. simpl in Hno. subst r.
  apply (run_once_loop_spins i rounds fuel Hstuck).
  simpl in Hcfg, Hcl, Hids. unfold ready_for_round. simpl.
  split; [reflexivity|]. split; [exact Hm|].
  unfold queue_ids in Hids. apply (f_equal (@List.length _)) in Hids.
  rewrite !length_fmap in Hids. simpl in Hids. unfold NextAction.queue in *.
  simpl. lia.
Qed.

Lemma run_once_spins_on_a_stuck_draft_witness :
  (forall k, stuck_on_draft 0 (same_answers_every_round k)) /\
  NextAction.run_once 1000 NextAction.connected (fun _ => draft_stays_draft)
    same_answers_every_round
    (sample_run [sample_item "TC-A-01" WorkflowState.APPROVED (Some 11) (Some 42)]) = None.
Proof.
  assert (H : forall k, stuck_on_draft 0 (same_answers_every_round k)).
  { intros k. split; [reflexivity|]. split.
    - exists (sample_issue 11 IssueState.IN_PROGRESS), (sample_info PRState.APPROVED true []).
      repeat split. discriminate.
    - exists (sample_info PRState.APPROVED true []). split; reflexivity. }
  split; [exact H|].
  exact (run_once_spins_on_a_stuck_draft 1000 (fun _ => draft_stays_draft)
           same_answers_every_round
           (sample_run [sample_item "TC-A-01" WorkflowState.APPROVED (Some 11) (Some 42)])
           0 eq_refl (le_n 1) (fun _ => eq_refl) H).
Defined.
